(** * Comfyui_TextBatch: the browser-side extension [js/textbatch.js]

    A shallow embedding of the event handlers and node lifecycle hooks of
    [js/textbatch.js], and the properties of the specification checked
    against them.

    The source file holds two copies of the extension: the first one
    (lines 1-257) calls the host API directly, the second one (lines 257-447)
    guards most host accesses with optional chaining.  Both are embedded, in
    the modules [V1] and [V2], and the statements below quantify over the
    two of them through [Variant]. *)

From stdpp Require Import gmap strings list pretty.
From Stdlib Require Import ZArith Ascii String Lia.

Local Open Scope string_scope.
Local Open Scope list_scope.

(** ** JavaScript values

    The primitive values an event payload or a node identifier can hold.
    Numbers are the doubles that are whole numbers, [NaN] and the two
    infinities; there is one zero.  Fractions, arrays and objects as payload
    values are outside the model.  Strings are byte strings, in UTF-8. *)

Inductive JsVal : Type :=
| VUndef
| VNull
| VBool (b : bool)
| VNum (z : Z)
| VNaN
| VInf (negative : bool)
| VStr (s : string).

#[global] Instance JsVal_eq_dec : EqDecision JsVal.
Proof. solve_decision. Defined.

(** [ToBoolean]: what [!v] and [if (v)] look at. *)
Definition truthy (v : JsVal) : bool :=
  match v with
  | VUndef | VNull | VNaN => false
  | VBool b => b
  | VNum z => negb (z =? 0)%Z
  | VInf _ => true
  | VStr s => negb (String.eqb s "")
  end.

(** [a === b]: same type and same value, [NaN] different from itself. *)
Definition strict_eq (a b : JsVal) : bool :=
  match a, b with
  | VNaN, _ | _, VNaN => false
  | _, _ => bool_decide (a = b)
  end.

(** [SameValueZero], the key comparison of [Map]: [NaN] equals itself. *)
Definition same_value_zero (a b : JsVal) : bool := bool_decide (a = b).

(** *** Strings to numbers *)

Definition code (c : ascii) : Z := Z.of_N (N_of_ascii c).

(** The white space of one byte: tab, line feed, vertical tab, form feed,
    carriage return, space. *)
Definition is_ws (c : ascii) : bool :=
  let n := code c in ((9 <=? n) && (n <=? 13) || (n =? 32))%Z.

(** The white space of two bytes: U+00A0. *)
Definition is_ws2 (c1 c2 : ascii) : bool :=
  ((code c1 =? 194) && (code c2 =? 160))%Z.

(** The white space of three bytes: U+1680, U+2000 to U+200A, U+2028,
    U+2029, U+202F, U+205F, U+3000 and U+FEFF. *)
Definition is_ws3 (c1 c2 c3 : ascii) : bool :=
  let '(a, b, c) := (code c1, code c2, code c3) in
  ((a =? 225) && (b =? 154) && (c =? 128)
   || (a =? 226) && (b =? 128)
      && ((128 <=? c) && (c <=? 138) || (c =? 168) || (c =? 169) || (c =? 175))
   || (a =? 226) && (b =? 129) && (c =? 159)
   || (a =? 227) && (b =? 128) && (c =? 128)
   || (a =? 239) && (b =? 187) && (c =? 191))%Z.

(** Drops the leading white space and line terminators. *)
Fixpoint skip_ws (s : string) : string :=
  match s with
  | String c1 r1 =>
      if is_ws c1 then skip_ws r1
      else
        match r1 with
        | String c2 r2 =>
            if is_ws2 c1 c2 then skip_ws r2
            else
              match r2 with
              | String c3 r3 => if is_ws3 c1 c2 c3 then skip_ws r3 else s
              | EmptyString => s
              end
        | EmptyString => s
        end
  | EmptyString => s
  end.

(** The value of [c] as a digit in [radix], if it is one. *)
Definition digit_of (radix : Z) (c : ascii) : option Z :=
  let n := code c in
  let d :=
    if ((48 <=? n) && (n <=? 57))%Z then Some (n - 48)%Z
    else if ((97 <=? n) && (n <=? 122))%Z then Some (n - 87)%Z
    else if ((65 <=? n) && (n <=? 90))%Z then Some (n - 55)%Z
    else None in
  match d with
  | Some k => if (k <? radix)%Z then Some k else None
  | None => None
  end.

(** Reads the longest prefix of digits; [acc] is [None] until a digit is
    read.  Returns the value read so far and the rest of the string. *)
Fixpoint read_digits (radix : Z) (s : string) (acc : option Z)
  : option Z * string :=
  match s with
  | String c r =>
      match digit_of radix c with
      | Some d => read_digits radix r (Some (default 0 acc * radix + d)%Z)
      | None => (acc, s)
      end
  | EmptyString => (acc, s)
  end.

Definition strip_sign (s : string) : Z * string :=
  match s with
  | String "-" r => ((-1)%Z, r)
  | String "+" r => (1%Z, r)
  | _ => (1%Z, s)
  end.

Definition strip_hex (s : string) : Z * string :=
  match s with
  | String "0" (String "x" r) | String "0" (String "X" r) => (16%Z, r)
  | _ => (10%Z, s)
  end.

(** [a / b] rounded to the nearest integer, a tie to the even one. *)
Definition round_half_even (a b : Z) : Z :=
  let q := (a / b)%Z in
  let r := (a mod b)%Z in
  if (b <? 2 * r)%Z || ((2 * r =? b)%Z && Z.odd q) then (q + 1)%Z else q.

(** The double nearest to the integer [m]: [m] itself below [2^53], else
    [m] rounded to 53 significant bits; [None] when that is beyond the
    largest double, where the number is an infinity. *)
Definition to_double (m : Z) : option Z :=
  let a := Z.abs m in
  if (a <? 2 ^ 53)%Z then Some m
  else
    let e := (Z.log2 a - 52)%Z in
    let d := (round_half_even a (2 ^ e) * 2 ^ e)%Z in
    if (d <? 2 ^ 1024)%Z then Some (Z.sgn m * d)%Z else None.

(** The number an integer of the text stands for. *)
Definition number_value (m : Z) : JsVal :=
  match to_double m with
  | Some z => VNum z
  | None => VInf (m <? 0)%Z
  end.

(** [parseInt(s)] on a string, no radix argument: leading white space, a
    sign, a [0x] prefix, then the longest run of digits; [NaN] when that run
    is empty.  What follows the digits is ignored. *)
Definition parseInt_string (s : string) : JsVal :=
  let '(sign, s1) := strip_sign (skip_ws s) in
  let '(radix, s2) := strip_hex s1 in
  match fst (read_digits radix s2 None) with
  | Some m => number_value (sign * m)
  | None => VNaN
  end.

(** How many decimal digits [m] has. *)
Definition digits (m : Z) : Z := Z.of_nat (String.length (pretty (Z.abs m))).

(** The numbers of [k] significant digits next to [x], below and above,
    that read back as the double [x]: the nearer one, the one with the even
    last digit when they are as near. *)
Definition shorter (x k : Z) : option Z :=
  let p := (10 ^ (digits x - k))%Z in
  let lo := (x / p * p)%Z in
  let hi := (lo + p)%Z in
  let reads_back c := bool_decide (to_double c = Some x) in
  match reads_back lo, reads_back hi with
  | true, true =>
      if (x - lo <? hi - x)%Z then Some lo
      else if (hi - x <? x - lo)%Z then Some hi
      else if Z.even (lo / p) then Some lo else Some hi
  | true, false => Some lo
  | false, true => Some hi
  | false, false => None
  end.

Fixpoint shortest_from (x k : Z) (fuel : nat) : Z :=
  match fuel with
  | O => x
  | S fuel' =>
      match shorter x k with
      | Some c => c
      | None => shortest_from x (k + 1) fuel'
      end
  end.

(** The number with the fewest significant digits that reads back as the
    double [x]; 17 digits always do. *)
Definition shortest (x : Z) : Z := shortest_from x 1 17.

Fixpoint strip_zeros (fuel : nat) (c : Z) : Z :=
  match fuel with
  | O => c
  | S fuel' => if (c mod 10 =? 0)%Z then strip_zeros fuel' (c / 10) else c
  end.

(** [d.ddde+n], for a number of more than 21 digits. *)
Definition exponent_form (c : Z) : string :=
  let n := digits c in
  let s := pretty (strip_zeros (Z.to_nat n) c) in
  match s with
  | String d EmptyString => String d ("e+" +:+ pretty (n - 1)%Z)
  | String d r => String d ("." +:+ r +:+ "e+" +:+ pretty (n - 1)%Z)
  | EmptyString => s
  end.

(** [Number::toString]: an integer below [2^53] prints all its digits;
    above, a double prints the fewest digits that tell it from its
    neighbours, followed by zeros up to 21 digits and in exponent form
    beyond. *)
Definition number_to_string (z : Z) : string :=
  if (Z.abs z <? 2 ^ 53)%Z then pretty z
  else
    let c := shortest (Z.abs z) in
    let body := if (digits c <=? 21)%Z then pretty c else exponent_form c in
    if (z <? 0)%Z then "-" +:+ body else body.

(** [ToString] on primitives. *)
Definition to_string (v : JsVal) : string :=
  match v with
  | VUndef => "undefined"
  | VNull => "null"
  | VBool true => "true"
  | VBool false => "false"
  | VNum z => number_to_string z
  | VNaN => "NaN"
  | VInf false => "Infinity"
  | VInf true => "-Infinity"
  | VStr s => s
  end.

(** [parseInt(v)]: the argument is converted to a string first. *)
Definition parseInt (v : JsVal) : JsVal := parseInt_string (to_string v).

(** [ToNumber] yields an integer, [NaN], an infinity, or a fraction, which
    no value of the model equals. *)
Inductive Number : Type :=
| NInt (z : Z)
| NNaN
| NInf (negative : bool)
| NOther.

Definition blank (s : string) : bool := String.eqb (skip_ws s) "".

(** The [0x], [0o] and [0b] literals of [StringToNumber]; they take no sign. *)
Definition strip_radix (s : string) : option (Z * string) :=
  match s with
  | String "0" (String "x" r) | String "0" (String "X" r) => Some (16%Z, r)
  | String "0" (String "o" r) | String "0" (String "O" r) => Some (8%Z, r)
  | String "0" (String "b" r) | String "0" (String "B" r) => Some (2%Z, r)
  | _ => None
  end.

(** The exponent part of a decimal literal: [None] when it is malformed. *)
Definition read_exponent (s : string) : option (Z * string) :=
  match s with
  | String "e" r | String "E" r =>
      let '(sg, r1) := strip_sign r in
      match read_digits 10 r1 None with
      | (Some e, r2) => Some ((sg * e)%Z, r2)
      | (None, _) => None
      end
  | _ => Some (0%Z, s)
  end.

(** The fraction part: its digits as an integer and how many there are. *)
Definition read_fraction (s : string) : option Z * Z * string :=
  match s with
  | String "." r =>
      let '(f, r') := read_digits 10 r None in
      (f, Z.of_nat (String.length r) - Z.of_nat (String.length r'), r')%Z
  | _ => (None, 0%Z, s)
  end.

(** The double nearest to [num / den], for [0 <= num] and [0 < den]: with
    [e] the binary exponent of the quotient, no less than -1022, the
    quotient is rounded to a multiple of [2^(e-52)]. *)
Definition round_ratio (num den : Z) : Number :=
  if (num =? 0)%Z then NInt 0
  else
    let e :=
      Z.max (if (den <=? num)%Z then Z.log2 (num / den)
             else - Z.log2_up ((den + num - 1) / num))
            (-1022) in
    if (52 <? e)%Z then
      let p := (2 ^ (e - 52))%Z in
      let z := (round_half_even num (den * p) * p)%Z in
      if (z <? 2 ^ 1024)%Z then NInt z else NInf false
    else
      let p := (2 ^ (52 - e))%Z in
      let q := round_half_even (num * p) den in
      if (q mod p =? 0)%Z then NInt (q / p) else NOther.

Definition negate (sign : Z) (n : Number) : Number :=
  match n with
  | NInt z => NInt (sign * z)
  | NInf b => NInf (xorb b (sign <? 0)%Z)
  | _ => n
  end.

Definition decimal_literal (s : string) : Number :=
  let '(sign, s1) := strip_sign s in
  if String.prefix "Infinity" s1 then
    (if blank (String.substring 8 (String.length s1 - 8) s1)
     then NInf (sign <? 0)%Z else NNaN)
  else
    let '(ip, s2) := read_digits 10 s1 None in
    let '(fp, flen, s3) := read_fraction s2 in
    match ip, fp with
    | None, None => NNaN
    | _, _ =>
        match read_exponent s3 with
        | None => NNaN
        | Some (ex, s4) =>
            if blank s4 then
              let m := (default 0 ip * 10 ^ flen + default 0 fp)%Z in
              let k := (ex - flen)%Z in
              negate sign
                (if (0 <=? k)%Z then round_ratio (m * 10 ^ k) 1
                 else round_ratio m (10 ^ (- k)))
            else NNaN
        end
    end.

(** [StringToNumber]: white space around the literal is dropped, the empty
    string is [0]. *)
Definition string_to_number (s : string) : Number :=
  let s0 := skip_ws s in
  if String.eqb s0 "" then NInt 0
  else
    match strip_radix s0 with
    | Some (radix, r) =>
        match read_digits radix r None with
        | (Some m, rest) => if blank rest then round_ratio m 1 else NNaN
        | (None, _) => NNaN
        end
    | None => decimal_literal s0
    end.

Definition to_number (v : JsVal) : Number :=
  match v with
  | VUndef => NNaN
  | VNull => NInt 0
  | VBool b => NInt (if b then 1 else 0)
  | VNum z => NInt z
  | VNaN => NNaN
  | VInf b => NInf b
  | VStr s => string_to_number s
  end.

Definition number_eq (a b : Number) : bool :=
  match a, b with
  | NInt x, NInt y => (x =? y)%Z
  | NInf x, NInf y => Bool.eqb x y
  | _, _ => false
  end.

(** [a == b]: [null] and [undefined] equal each other and nothing else;
    values of one type compare strictly; otherwise both sides go through
    [ToNumber]. *)
Definition loose_eq (a b : JsVal) : bool :=
  match a, b with
  | (VUndef | VNull), (VUndef | VNull) => true
  | (VUndef | VNull), _ | _, (VUndef | VNull) => false
  | VStr x, VStr y => String.eqb x y
  | VBool x, VBool y => Bool.eqb x y
  | _, _ => number_eq (to_number a) (to_number b)
  end.

(** ** Objects of the host

    Nodes are objects of the host, shared by reference between the graph,
    the identifier cache and the closures of the extension: they live in a
    heap and are named by a reference.  A reference with no object in the
    heap stands for a missing ([null] or [undefined]) object. *)

Abbreviation NodeRef := nat (only parsing).

(** A function supplied by the host (a widget callback, a handler installed
    on a node type, [app.queuePrompt], [graph.serialize]).  Its body is not
    part of this program: a call is recorded in the effect log, and the
    function says whether the call raises and, as a function may throw any
    value, whether what it throws is [null] or [undefined]. *)
Record HostFn : Type := { hf_tag : nat; hf_raises : bool; hf_nullish : bool }.

#[global] Instance HostFn_eq_dec : EqDecision HostFn.
Proof. solve_decision. Defined.

Inductive Callback : Type :=
| HostCallback (f : HostFn)
  (** [(v) => { console.log("Status widget updated:", v); this.status = v; }],
      with [this] the node [owner]. *)
| StatusCallback (owner : NodeRef).

#[global] Instance Callback_eq_dec : EqDecision Callback.
Proof. solve_decision. Defined.

Record Widget : Type := {
  w_type : string;
  w_name : JsVal;
  w_value : JsVal;
  w_callback : option Callback
}.

#[global] Instance Widget_eq_dec : EqDecision Widget.
Proof. solve_decision. Defined.

Definition set_value (v : JsVal) (w : Widget) : Widget :=
  {| w_type := w_type w; w_name := w_name w; w_value := v;
     w_callback := w_callback w |}.

(** A node: [id], [widgets] (undefined until the host adds the first
    widget), [status], whether the object has an [addWidget] method, and
    [outputs] with the integer [value] of each slot that has one. *)
Record Node : Type := {
  n_id : JsVal;
  n_widgets : option (list Widget);
  n_status : JsVal;
  n_addWidget : bool;
  n_outputs : option (list (option Z))
}.

#[global] Instance Node_eq_dec : EqDecision Node.
Proof. solve_decision. Defined.

Definition set_id (v : JsVal) (n : Node) : Node :=
  {| n_id := v; n_widgets := n_widgets n; n_status := n_status n;
     n_addWidget := n_addWidget n; n_outputs := n_outputs n |}.

Definition set_widgets (ws : option (list Widget)) (n : Node) : Node :=
  {| n_id := n_id n; n_widgets := ws; n_status := n_status n;
     n_addWidget := n_addWidget n; n_outputs := n_outputs n |}.

Definition set_status (v : JsVal) (n : Node) : Node :=
  {| n_id := n_id n; n_widgets := n_widgets n; n_status := v;
     n_addWidget := n_addWidget n; n_outputs := n_outputs n |}.

(** The host's [node.addWidget(type, name, value, callback)]: the widget is
    pushed on [widgets], which is created when it does not exist. *)
Definition push_widget (w : Widget) (n : Node) : Node :=
  set_widgets (Some (default [] (n_widgets n) ++ [w])) n.

(** [app.graph]: the id-indexed table (property names to nodes), the getter
    and the array of nodes, each of which a host may lack; [serialize]. *)
Record Graph : Type := {
  g_nodes_by_id : option (list (string * NodeRef));
  g_getNodeById : option (JsVal -> option NodeRef);
  g_nodes : option (list NodeRef);
  g_serialize : option HostFn
}.

Record App : Type := {
  app_graph : option Graph;
  app_isProcessing : bool;
  app_queuePrompt : option HostFn
}.

(** ** The identifier cache: [const nodeIdMap = new Map()]

    Keys compare by [SameValueZero] and keep their insertion order. *)

Definition IdMap := list (JsVal * NodeRef).

Fixpoint map_get (k : JsVal) (m : IdMap) : option NodeRef :=
  match m with
  | [] => None
  | (k', r) :: m' => if same_value_zero k' k then Some r else map_get k m'
  end.

Fixpoint map_set (k : JsVal) (r : NodeRef) (m : IdMap) : IdMap :=
  match m with
  | [] => [(k, r)]
  | (k', r') :: m' =>
      if same_value_zero k' k then (k', r) :: m' else (k', r') :: map_set k r m'
  end.

Fixpoint map_delete (k : JsVal) (m : IdMap) : IdMap :=
  match m with
  | [] => []
  | (k', r') :: m' =>
      if same_value_zero k' k then m' else (k', r') :: map_delete k m'
  end.

(** ** Timers, effects and the state of the page *)

(** The two closures the extension hands to [setTimeout]. *)
Inductive Task : Type :=
| QueuePromptTask
| RetryInit (this : NodeRef).

Record Timer : Type := { t_due : nat; t_task : Task }.

Inductive Level : Type := LLog | LWarn | LError.

(** What the host observes: console output (by its leading message) and
    calls into host functions. *)
Inductive Effect : Type :=
| Console (lvl : Level) (msg : string)
| Invoked (cb : Callback) (arg : JsVal)
| Applied (f : HostFn) (this : NodeRef) (args : list JsVal)
| Serialized
| QueuePrompt (number batch : JsVal).

#[global] Instance Task_eq_dec : EqDecision Task.
Proof. solve_decision. Defined.
#[global] Instance Timer_eq_dec : EqDecision Timer.
Proof. solve_decision. Defined.
#[global] Instance Level_eq_dec : EqDecision Level.
Proof. solve_decision. Defined.
#[global] Instance Effect_eq_dec : EqDecision Effect.
Proof. solve_decision. Defined.

Record World : Type := {
  heap : gmap NodeRef Node;
  nodeIdMap : IdMap;
  timers : list Timer;
  now : nat;
  effects : list Effect
}.

Definition with_heap (h : gmap NodeRef Node) (w : World) : World :=
  {| heap := h; nodeIdMap := nodeIdMap w; timers := timers w; now := now w;
     effects := effects w |}.
Definition with_map (m : IdMap) (w : World) : World :=
  {| heap := heap w; nodeIdMap := m; timers := timers w; now := now w;
     effects := effects w |}.
Definition with_timers (ts : list Timer) (w : World) : World :=
  {| heap := heap w; nodeIdMap := nodeIdMap w; timers := ts; now := now w;
     effects := effects w |}.
Definition with_now (t : nat) (w : World) : World :=
  {| heap := heap w; nodeIdMap := nodeIdMap w; timers := timers w; now := t;
     effects := effects w |}.
Definition with_effects (es : list Effect) (w : World) : World :=
  {| heap := heap w; nodeIdMap := nodeIdMap w; timers := timers w; now := now w;
     effects := es |}.

(** ** Computations: state and exceptions *)

Inductive JsError : Type :=
| TypeError (what : string)
| HostError (f : HostFn).

(** Whether the value thrown is [null] or [undefined], on which reading a
    member raises; a [TypeError] is an object. *)
Definition nullish (e : JsError) : bool :=
  match e with
  | TypeError _ => false
  | HostError f => hf_nullish f
  end.

Inductive Result (A : Type) : Type :=
| Ok (a : A)
| Raise (e : JsError).
Arguments Ok {A} & a.
Arguments Raise {A} e.
#[local] Arguments Some {A} & a.

Definition Exec (A : Type) : Type := World -> Result A * World.

#[global] Instance Exec_ret : MRet Exec := fun A a w => (Ok a, w).
#[global] Instance Exec_bind : MBind Exec := fun A B k m w =>
  match m w with
  | (Ok a, w') => k a w'
  | (Raise e, w') => (Raise e, w')
  end.

Definition throw {A} (e : JsError) : Exec A := fun w => (Raise e, w).

(** [try { body } catch (error) { handler(error) }] *)
Definition try_catch {A} (body : Exec A) (handler : JsError -> Exec A) : Exec A :=
  fun w =>
    match body w with
    | (Ok a, w') => (Ok a, w')
    | (Raise e, w') => handler e w'
    end.

Definition emit (e : Effect) : Exec unit :=
  fun w => (Ok tt, with_effects (effects w ++ [e]) w).

Definition console_log (msg : string) : Exec unit := emit (Console LLog msg).
Definition console_warn (msg : string) : Exec unit := emit (Console LWarn msg).
Definition console_error (msg : string) : Exec unit := emit (Console LError msg).

(** Reading a member that must be there: a [TypeError] when it is not. *)
Definition require {A} (what : string) (o : option A) : Exec A :=
  match o with
  | Some a => mret a
  | None => throw (TypeError what)
  end.

(** [error.message], [error.stack]: reading a member of the value caught. *)
Definition read_member (what : string) (error : JsError) : Exec unit :=
  if nullish error then throw (TypeError what) else mret tt.

(** Calling a host function: the call is recorded, then it returns or
    raises. *)
Definition call_host (e : Effect) (f : HostFn) : Exec unit :=
  emit e;; if hf_raises f then throw (HostError f) else mret tt.

Definition read_node (r : NodeRef) : Exec Node :=
  fun w => require "node" (heap w !! r) w.

Definition write_node (r : NodeRef) (n : Node) : Exec unit :=
  fun w => (Ok tt, with_heap (<[r := n]> (heap w)) w).

(** [setTimeout(task, delay)] *)
Definition setTimeout (task : Task) (delay : nat) : Exec unit :=
  fun w => (Ok tt, with_timers (timers w ++ [{| t_due := now w + delay; t_task := task |}]) w).

Definition map_get_m (k : JsVal) : Exec (option NodeRef) :=
  fun w => (Ok (map_get k (nodeIdMap w)), w).
Definition map_set_m (k : JsVal) (r : NodeRef) : Exec unit :=
  fun w => (Ok tt, with_map (map_set k r (nodeIdMap w)) w).
Definition map_delete_m (k : JsVal) : Exec unit :=
  fun w => (Ok tt, with_map (map_delete k (nodeIdMap w)) w).

(** ** Event payloads and the code shared by the two copies *)

(** [event.detail] of a [textbatch-node-feedback] event; a missing field
    reads as [undefined]. *)
Record Payload : Type := {
  node_id : JsVal;
  widget_name : JsVal;
  type : JsVal;
  value : JsVal
}.

(** The event object; [detail] is [None] when it is not an object. *)
Record Event : Type := { detail : option Payload }.

(** [node.widgets.find(w => w.name === data.widget_name)]: the first widget
    of that name, with its position. *)
Fixpoint find_widget (name : JsVal) (ws : list Widget) : option (nat * Widget) :=
  match ws with
  | [] => None
  | w :: ws' =>
      if strict_eq (w_name w) name then Some (0, w)
      else prod_map S id <$> find_widget name ws'
  end.

(** [widget.value = v], for the widget at position [i] of node [r]. *)
Definition assign_value (r : NodeRef) (i : nat) (v : JsVal) : Exec unit :=
  fun w =>
    (Ok tt,
     with_heap
       (alter (fun n => set_widgets (alter (set_value v) i <$> n_widgets n) n) r (heap w))
       w).

(** [this.status = v] in the status closure. *)
Definition assign_status (r : NodeRef) (v : JsVal) : Exec unit :=
  fun w => (Ok tt, with_heap (alter (set_status v) r (heap w)) w).

(** [widget.callback(v)] *)
Definition invoke (cb : Callback) (v : JsVal) : Exec unit :=
  match cb with
  | HostCallback f => call_host (Invoked cb v) f
  | StatusCallback owner =>
      emit (Invoked cb v);;
      console_log "Status widget updated:";;
      assign_status owner v
  end.

(** The value the handler assigns (lines 46-51 and 302-307). *)
Definition coerce (data : Payload) : JsVal :=
  if strict_eq (type data) (VStr "int") then parseInt (value data) else value data.

(** Lines 46-56 and 302-312, the same text in the two copies: assign the
    coerced value, then call the widget's callback with the widget's value. *)
Definition assign_and_notify (r : NodeRef) (i : nat) (widget : Widget)
    (data : Payload) : Exec unit :=
  (if strict_eq (type data) (VStr "int") then
     console_log "Updating widget value:";;
     assign_value r i (parseInt (value data))
   else
     assign_value r i (value data));;
  match w_callback widget with
  | Some cb => invoke cb (coerce data)
  | None => mret tt
  end.

(** [!this.id || this.id === -1] is [negb (valid_id id)]. *)
Definition valid_id (v : JsVal) : bool :=
  truthy v && negb (strict_eq v (VNum (-1))).

Definition status_widget (this : NodeRef) : Widget :=
  {| w_type := "text"; w_name := VStr "status"; w_value := VStr "";
     w_callback := Some (StatusCallback this) |}.

(** What a lookup hands back: a node, or another object of the host. *)
Inductive Found : Type :=
| FoundNode (r : NodeRef)
| Inherited (name : string).

Coercion FoundNode : NodeRef >-> Found.

#[global] Instance Found_eq_dec : EqDecision Found.
Proof. solve_decision. Defined.

(** The entry the table itself holds under [k]. *)
Fixpoint table_own (k : string) (tbl : list (string * NodeRef)) : option NodeRef :=
  match tbl with
  | [] => None
  | (k', r) :: tbl' => if String.eqb k' k then Some r else table_own k tbl'
  end.

(** The names every plain object inherits from [Object.prototype].  Each
    reads as a function ([__proto__] as the prototype itself): a truthy
    value that is no node and has no [widgets]. *)
Definition Object_prototype : list string :=
  [ "constructor"; "__defineGetter__"; "__defineSetter__"; "hasOwnProperty";
    "__lookupGetter__"; "__lookupSetter__"; "isPrototypeOf";
    "propertyIsEnumerable"; "toString"; "valueOf"; "__proto__";
    "toLocaleString" ].

Definition inherited (k : string) : bool := existsb (String.eqb k) Object_prototype.

(** [tbl[k]] on the plain object [app.graph._nodes_by_id]: the table's own
    entry, else what the name inherits. *)
Definition table_get (k : string) (tbl : list (string * NodeRef)) : option Found :=
  match table_own k tbl with
  | Some r => Some (FoundNode r)
  | None => if inherited k then Some (Inherited k) else None
  end.

(** ** The first copy (lines 1-257) *)

Module V1.

(** [[...app.graph.nodes].find(n => n.id == nodeId)] *)
Fixpoint find_node (nodeId : JsVal) (ns : list NodeRef) : Exec (option NodeRef) :=
  match ns with
  | [] => mret None
  | r :: ns' =>
      n ← read_node r;
      if loose_eq (n_id n) nodeId then mret (Some r) else find_node nodeId ns'
  end.

(** Lines 28-30. *)
Definition fallback (app : App) (nodeId : JsVal) : Exec (option Found) :=
  graph ← require "app.graph" (app_graph app);
  tbl ← require "app.graph._nodes_by_id" (g_nodes_by_id graph);
  match table_get (to_string nodeId) tbl with
  | Some node => mret (Some node)
  | None =>
      getNodeById ← require "app.graph.getNodeById" (g_getNodeById graph);
      match getNodeById (parseInt nodeId) with
      | Some r => mret (Some (FoundNode r))
      | None =>
          ns ← require "app.graph.nodes" (g_nodes graph);
          node ← find_node nodeId ns;
          mret (FoundNode <$> node)
      end
  end.

(** Lines 24-31. *)
Definition resolve (app : App) (nodeId : JsVal) : Exec (option Found) :=
  node ← map_get_m nodeId;
  match node with
  | Some r => mret (Some (FoundNode r))
  | None => fallback app nodeId
  end.

(** Lines 11-56, the body of the [try]. *)
Definition feedback_body (app : App) (event : Event) : Exec unit :=
  match detail event with
  | None => console_error "Invalid data received:"
  | Some data =>
      if negb (truthy (node_id data)) then console_error "Invalid data received:"
      else
        let nodeId := node_id data in
        console_log "Looking for node:";;
        node ← resolve app nodeId;
        match node with
        | None => console_warn "Node not found by ID:"
        | Some (FoundNode r) =>
            console_log "Found node:";;
            n ← read_node r;
            ws ← require "node.widgets" (n_widgets n);
            match find_widget (widget_name data) ws with
            | None => console_warn "Widget not found:"
            | Some (i, widget) => assign_and_notify r i widget data
            end
        | Some (Inherited _) =>
            (* [node.widgets] is undefined on such an object *)
            console_log "Found node:";;
            throw (TypeError "node.widgets")
        end
  end.

(** Lines 8-60. *)
Definition feedback_handler (app : App) (event : Event) : Exec unit :=
  console_log "Received node feedback:";;
  try_catch (feedback_body app event)
    (fun error => console_error "Error in node feedback handler:").

(** Lines 79-82, the body of the [try] in the scheduled closure. *)
Definition queue_task_body (app : App) : Exec unit :=
  console_log "Executing queued prompt";;
  queuePrompt ← require "app.queuePrompt" (app_queuePrompt app);
  call_host (QueuePrompt (VNum 0) (VNum 1)) queuePrompt;;
  console_log "Queue prompt executed".

(** Lines 77-86, the closure given to [setTimeout]. *)
Definition queue_task (app : App) : Exec unit :=
  try_catch (queue_task_body app)
    (fun queueError => console_error "Error queueing prompt:").

(** Lines 65-86, the body of the [try]. *)
Definition queue_body (app : App) : Exec unit :=
  console_log "Received queue event:";;
  (if app_isProcessing app
   then console_log "Already processing, queueing next prompt"
   else mret tt);;
  graph ← require "app.graph" (app_graph app);
  serialize ← require "app.graph.serialize" (g_serialize graph);
  call_host Serialized serialize;;
  console_log "Current workflow:";;
  setTimeout QueuePromptTask 100.

(** Lines 63-94.  The catch block reads [error.message] and [error.stack]
    to build the argument of its second [console.error]. *)
Definition queue_handler (app : App) : Exec unit :=
  try_catch (queue_body app)
    (fun error =>
       console_error "Error in textbatch-add-queue handler:";;
       read_member "error.message" error;;
       read_member "error.stack" error;;
       console_error "Error details:").

(** [this.addWidget("text", "status", "", (v) => {...})] *)
Definition attach_status (this : NodeRef) : Exec unit :=
  n ← read_node this;
  if n_addWidget n then write_node this (push_widget (status_widget this) n)
  else throw (TypeError "this.addWidget").

(** Lines 118-129, the closure given to [setTimeout]. *)
Definition retry_init (this : NodeRef) : Exec unit :=
  console_log "Retrying node initialization:";;
  n ← read_node this;
  if truthy (n_id n) && negb (strict_eq (n_id n) (VNum (-1))) then
    map_set_m (n_id n) this;;
    attach_status this
  else mret tt.

(** Lines 111-140; [prev] is the [onNodeCreated] found on the prototype
    when the override was installed.  The value the previous handler
    returns, which the override hands back, is left out. *)
Definition onNodeCreated (prev : option HostFn) (this : NodeRef)
    (args : list JsVal) : Exec unit :=
  match prev with
  | Some f => call_host (Applied f this args) f
  | None => mret tt
  end;;
  n ← read_node this;
  if negb (truthy (n_id n)) || strict_eq (n_id n) (VNum (-1)) then
    console_warn "Invalid node ID detected, waiting for proper initialization";;
    setTimeout (RetryInit this) 0
  else
    console_log "Node created:";;
    map_set_m (n_id n) this;;
    attach_status this.

(** Lines 144-150. *)
Definition onRemoved (prev : option HostFn) (this : NodeRef)
    (args : list JsVal) : Exec unit :=
  n ← read_node this;
  console_log "Node removed:";;
  map_delete_m (n_id n);;
  match prev with
  | Some f => call_host (Applied f this args) f
  | None => mret tt
  end.

End V1.

(** ** The second copy (lines 257-447), with optional chaining *)

Module V2.

(** [this?.id]: [undefined] when there is no object. *)
Definition id_of (r : NodeRef) : Exec JsVal :=
  fun w => (Ok (from_option n_id VUndef (heap w !! r)), w).

(** [[...(app.graph?.nodes || [])].find(n => n?.id == nodeId)] *)
Fixpoint find_node (nodeId : JsVal) (ns : list NodeRef) : Exec (option NodeRef) :=
  match ns with
  | [] => mret None
  | r :: ns' =>
      id ← id_of r;
      if loose_eq id nodeId then mret (Some r) else find_node nodeId ns'
  end.

(** Lines 284-286. *)
Definition fallback (app : App) (nodeId : JsVal) : Exec (option Found) :=
  graph ← require "app.graph" (app_graph app);
  match g_nodes_by_id graph ≫= table_get (to_string nodeId) with
  | Some node => mret (Some node)
  | None =>
      match g_getNodeById graph ≫= (fun getNodeById => getNodeById (parseInt nodeId)) with
      | Some r => mret (Some (FoundNode r))
      | None =>
          node ← find_node nodeId (default [] (g_nodes graph));
          mret (FoundNode <$> node)
      end
  end.

(** Lines 280-287. *)
Definition resolve (app : App) (nodeId : JsVal) : Exec (option Found) :=
  node ← map_get_m nodeId;
  match node with
  | Some r => mret (Some (FoundNode r))
  | None => fallback app nodeId
  end.

(** Lines 267-312, the body of the [try]. *)
Definition feedback_body (app : App) (event : Event) : Exec unit :=
  match detail event with
  | None => console_error "Invalid data received:"
  | Some data =>
      if negb (truthy (node_id data)) then console_error "Invalid data received:"
      else
        let nodeId := node_id data in
        console_log "Looking for node:";;
        node ← resolve app nodeId;
        match node with
        | None => console_warn "Node not found by ID:"
        | Some (FoundNode r) =>
            console_log "Found node:";;
            n ← read_node r;
            match n_widgets n ≫= find_widget (widget_name data) with
            | None => console_warn "Widget not found:"
            | Some (i, widget) => assign_and_notify r i widget data
            end
        | Some (Inherited _) =>
            (* [node.widgets?.find(...)] is undefined on such an object *)
            console_log "Found node:";;
            console_warn "Widget not found:"
        end
  end.

(** Lines 264-316. *)
Definition feedback_handler (app : App) (event : Event) : Exec unit :=
  console_log "Received node feedback:";;
  try_catch (feedback_body app event)
    (fun error => console_error "Error in node feedback handler:").

(** Lines 335-338, the body of the [try] in the scheduled closure. *)
Definition queue_task_body (app : App) : Exec unit :=
  console_log "Executing queued prompt";;
  match app_queuePrompt app with
  | Some queuePrompt => call_host (QueuePrompt (VNum 0) (VNum 1)) queuePrompt
  | None => mret tt
  end;;
  console_log "Queue prompt executed".

(** Lines 333-342, the closure given to [setTimeout]. *)
Definition queue_task (app : App) : Exec unit :=
  try_catch (queue_task_body app)
    (fun queueError => console_error "Error queueing prompt:").

(** Lines 321-342, the body of the [try]. *)
Definition queue_body (app : App) : Exec unit :=
  console_log "Received queue event:";;
  (if app_isProcessing app
   then console_log "Already processing, queueing next prompt"
   else mret tt);;
  match app_graph app ≫= g_serialize with
  | Some serialize => call_host Serialized serialize
  | None => mret tt
  end;;
  console_log "Current workflow:";;
  setTimeout QueuePromptTask 100.

(** Lines 319-350, with the catch block of the first copy. *)
Definition queue_handler (app : App) : Exec unit :=
  try_catch (queue_body app)
    (fun error =>
       console_error "Error in textbatch-add-queue handler:";;
       read_member "error.message" error;;
       read_member "error.stack" error;;
       console_error "Error details:").

(** [this.addWidget?.("text", "status", "", (v) => {...})] *)
Definition attach_status (this : NodeRef) : Exec unit :=
  n ← read_node this;
  if n_addWidget n then write_node this (push_widget (status_widget this) n)
  else mret tt.

(** Lines 371-380, the closure given to [setTimeout]. *)
Definition retry_init (this : NodeRef) : Exec unit :=
  id ← id_of this;
  if truthy id && negb (strict_eq id (VNum (-1))) then
    console_log "Retrying node initialization:";;
    map_set_m id this;;
    attach_status this
  else mret tt.

(** Lines 365-390; the value of the previous handler is left out, as in
    the first copy. *)
Definition onNodeCreated (prev : option HostFn) (this : NodeRef)
    (args : list JsVal) : Exec unit :=
  match prev with
  | Some f => call_host (Applied f this args) f
  | None => mret tt
  end;;
  id ← id_of this;
  if negb (truthy id) || strict_eq id (VNum (-1)) then
    console_warn "Invalid node ID detected, waiting for proper initialization";;
    setTimeout (RetryInit this) 0
  else
    console_log "Node created:";;
    map_set_m id this;;
    attach_status this.

(** Lines 394-400. *)
Definition onRemoved (prev : option HostFn) (this : NodeRef)
    (args : list JsVal) : Exec unit :=
  id ← id_of this;
  (if truthy id then
     console_log "Node removed:";;
     map_delete_m id
   else mret tt);;
  match prev with
  | Some f => call_host (Applied f this args) f
  | None => mret tt
  end.

End V2.

(** ** The extension, in either copy *)

Inductive Variant : Type := First | Second.

Definition resolve (v : Variant) : App -> JsVal -> Exec (option Found) :=
  match v with First => V1.resolve | Second => V2.resolve end.
Definition feedback_body (v : Variant) : App -> Event -> Exec unit :=
  match v with First => V1.feedback_body | Second => V2.feedback_body end.
Definition feedback_handler (v : Variant) : App -> Event -> Exec unit :=
  match v with First => V1.feedback_handler | Second => V2.feedback_handler end.
Definition queue_body (v : Variant) : App -> Exec unit :=
  match v with First => V1.queue_body | Second => V2.queue_body end.
Definition queue_handler (v : Variant) : App -> Exec unit :=
  match v with First => V1.queue_handler | Second => V2.queue_handler end.
Definition queue_task_body (v : Variant) : App -> Exec unit :=
  match v with First => V1.queue_task_body | Second => V2.queue_task_body end.
Definition queue_task (v : Variant) : App -> Exec unit :=
  match v with First => V1.queue_task | Second => V2.queue_task end.
Definition retry_init (v : Variant) : NodeRef -> Exec unit :=
  match v with First => V1.retry_init | Second => V2.retry_init end.
Definition onNodeCreated (v : Variant)
  : option HostFn -> NodeRef -> list JsVal -> Exec unit :=
  match v with First => V1.onNodeCreated | Second => V2.onNodeCreated end.
Definition onRemoved (v : Variant)
  : option HostFn -> NodeRef -> list JsVal -> Exec unit :=
  match v with First => V1.onRemoved | Second => V2.onRemoved end.

(** ** The event loop

    A timer may fire once its delay has passed, and fires once.  Between
    the extension's own steps time passes and the host may give a node its
    identifier. *)

Definition run_task (v : Variant) (app : App) (t : Task) : Exec unit :=
  match t with
  | QueuePromptTask => queue_task v app
  | RetryInit this => retry_init v this
  end.

Inductive step (v : Variant) (app : App) : World -> World -> Prop :=
| step_tick (dt : nat) (w : World) :
    step v app w (with_now (now w + dt) w)
| step_assign_id (r : NodeRef) (id : JsVal) (w : World) :
    step v app w (with_heap (alter (set_id id) r (heap w)) w)
| step_fire (i : nat) (t : Timer) (w w' : World) (res : Result unit) :
    timers w !! i = Some t ->
    t_due t <= now w ->
    run_task v app (t_task t) (with_timers (delete i (timers w)) w) = (res, w') ->
    step v app w w'.

Definition steps (v : Variant) (app : App) : World -> World -> Prop :=
  rtc (step v app).

(** ** The two node classes and the extension [rgthree.TextBatch]
    (lines 161-257 and 406-447) *)

Inductive Class : Type := TextQueueProcessorNode | ImageQueueProcessorNode.

(** The output slot the jump-to-end closure reads: [this.outputs?.[2]] in
    the first class, [this.outputs?.[3]] in the second. *)
Definition total_slot (c : Class) : nat :=
  match c with
  | TextQueueProcessorNode => 2
  | ImageQueueProcessorNode => 3
  end.

(** The closures [addCustomWidgets] gives to [this.addWidget]. *)
Inductive ButtonAction : Type :=
| TriggerReset
| ToStart
| ToEnd (slot : nat).

(** One [this.addWidget("button", name, null, closure)]. *)
Record Button : Type := { b_name : string; b_action : ButtonAction }.

(** [addCustomWidgets] of the first copy (lines 169-190 and 212-233): the
    buttons it asks the host to add, in order. *)
Definition addCustomWidgets (c : Class) : list Button :=
  [ {| b_name := "🔄 Reset"; b_action := TriggerReset |};
    {| b_name := "⏮️ To Start"; b_action := ToStart |};
    {| b_name := "⏭️ To End"; b_action := ToEnd (total_slot c) |} ].

(** [this.widgets.find(w => w.name === "start_index").value = v] *)
Definition set_start_index (v : JsVal) (this : Node) : Result Node :=
  match n_widgets this with
  | None => Raise (TypeError "this.widgets")
  | Some ws =>
      match find_widget (VStr "start_index") ws with
      | None => Raise (TypeError "start_index")
      | Some (i, _) => Ok (set_widgets (Some (alter (set_value v) i ws)) this)
      end
  end.

(** [this.outputs?.[slot]?.value ?? 0] *)
Definition total_of (slot : nat) (this : Node) : Z :=
  match n_outputs this with
  | Some os =>
      match os !! slot with
      | Some (Some total) => total
      | _ => 0%Z
      end
  | None => 0%Z
  end.

(** What pressing a button does to its node.  The reset closure calls
    [triggerReset] (lines 192-200), which asks the host for the prompt and
    queues it: it writes nothing on the node, and its calls to the host are
    not shown here. *)
Definition press (a : ButtonAction) (this : Node) : Result Node :=
  match a with
  | TriggerReset => Ok this
  | ToStart => set_start_index (VNum 0) this
  | ToEnd slot =>
      let total := total_of slot this in
      if (0 <? total)%Z then set_start_index (VNum (total - 1)) this else Ok this
  end.

(** What [nodeType.prototype] holds under a name. *)
Inductive Member : Type :=
| HostMethod (f : HostFn)
| CreatedOverride (prev : option HostFn)
| RemovedOverride (prev : option HostFn)
| ClassConstructor (c : Class)
| ClassAddCustomWidgets (c : Class)
| ClassTriggerReset (c : Class).

Record Property : Type := { p_value : Member; p_enumerable : bool }.

(** The own properties of a prototype object, by name. *)
Definition Prototype := list (string * Property).

Fixpoint proto_get (k : string) (p : Prototype) : option Member :=
  match p with
  | [] => None
  | (k', d) :: p' => if String.eqb k' k then Some (p_value d) else proto_get k p'
  end.

(** [proto[k] = m]: an existing property keeps its place and attributes, a
    new one is enumerable. *)
Fixpoint proto_set (k : string) (m : Member) (p : Prototype) : Prototype :=
  match p with
  | [] => [(k, {| p_value := m; p_enumerable := true |})]
  | (k', d) :: p' =>
      if String.eqb k' k
      then (k', {| p_value := m; p_enumerable := p_enumerable d |}) :: p'
      else (k', d) :: proto_set k m p'
  end.

(** [Object.assign(target, source)] copies the own enumerable properties of
    [source]. *)
Fixpoint Object_assign (target source : Prototype) : Prototype :=
  match source with
  | [] => target
  | (k, d) :: source' =>
      Object_assign (if p_enumerable d then proto_set k (p_value d) target else target)
        source'
  end.

(** The prototype object a [class] declaration creates: the constructor and
    the methods are own properties that are not enumerable. *)
Definition class_prototype (c : Class) : Prototype :=
  [ ("constructor", {| p_value := ClassConstructor c; p_enumerable := false |});
    ("addCustomWidgets", {| p_value := ClassAddCustomWidgets c; p_enumerable := false |});
    ("triggerReset", {| p_value := ClassTriggerReset c; p_enumerable := false |}) ].

(** [beforeRegisterNodeDef] of [rgthree.TextBatch] (lines 249-256 and
    439-446).  The second copy declares no [ImageQueueProcessorNode], so
    naming it there raises. *)
Definition rgthree_beforeRegisterNodeDef (v : Variant) (name : string)
    (proto : Prototype) : Result Prototype :=
  if String.eqb name "TextQueueProcessor" then
    Ok (Object_assign proto (class_prototype TextQueueProcessorNode))
  else if String.eqb name "ImageQueueProcessor" then
    match v with
    | First => Ok (Object_assign proto (class_prototype ImageQueueProcessorNode))
    | Second => Raise (TypeError "ImageQueueProcessorNode is not defined")
    end
  else Ok proto.

Definition host_member (k : string) (p : Prototype) : option HostFn :=
  match proto_get k p with
  | Some (HostMethod f) => Some f
  | _ => None
  end.

(** [beforeRegisterNodeDef] of [TextBatch.TextBatchNode] (lines 99-152 and
    355-402), on a prototype whose handlers are the host's. *)
Definition textbatch_beforeRegisterNodeDef (name : string) (proto : Prototype)
  : Prototype :=
  if String.eqb name "TextBatch" || String.eqb name "TextQueueProcessor"
     || String.eqb name "ZippedPromptBatch"
     || String.eqb name "ZippedPromptBatchAdvanced"
  then
    let p1 := proto_set "onNodeCreated"
                (CreatedOverride (host_member "onNodeCreated" proto)) proto in
    proto_set "onRemoved" (RemovedOverride (host_member "onRemoved" proto)) p1
  else proto.

(** The prototype of a node type of the host: host methods, enumerable. *)
Definition host_prototype (methods : list (string * HostFn)) : Prototype :=
  map (fun kf => (kf.1, {| p_value := HostMethod kf.2; p_enumerable := true |}))
    methods.

(** The prototype after the two extensions have seen the node type. *)
Definition registered (v : Variant) (name : string) (proto : Prototype) : Prototype :=
  let p := textbatch_beforeRegisterNodeDef name proto in
  match rgthree_beforeRegisterNodeDef v name p with
  | Ok p' => p'
  | Raise _ => p
  end.

(** The host builds the node with the constructor of its own node type and
    then calls the [onNodeCreated] of the prototype, when there is one; the
    constructor of a class above runs only under [new] of that class, which
    the program never does. *)
Definition construct (v : Variant) (proto : Prototype) (this : NodeRef) : Exec unit :=
  match proto_get "onNodeCreated" proto with
  | Some (HostMethod f) => call_host (Applied f this []) f
  | Some (CreatedOverride prev) => onNodeCreated v prev this []
  | _ => mret tt
  end.

Definition is_button (w : Widget) : bool := String.eqb (w_type w) "button".

(** ** Observations on worlds and effect logs *)

(** The widget at position [i] of node [r]. *)
Definition widget_in (h : gmap NodeRef Node) (r : NodeRef) (i : nat)
  : option Widget :=
  match h !! r with
  | Some n =>
      match n_widgets n with
      | Some ws => ws !! i
      | None => None
      end
  | None => None
  end.

Definition widget_at (w : World) (r : NodeRef) (i : nat) : option Widget :=
  widget_in (heap w) r i.

(** The callback invocations of a log, in order. *)
Fixpoint invocations (es : list Effect) : list (Callback * JsVal) :=
  match es with
  | [] => []
  | Invoked cb v :: es' => (cb, v) :: invocations es'
  | _ :: es' => invocations es'
  end.

(** The console messages of a given level, in order. *)
Fixpoint messages (lvl : Level) (es : list Effect) : list string :=
  match es with
  | [] => []
  | Console l msg :: es' =>
      if bool_decide (l = lvl) then msg :: messages lvl es' else messages lvl es'
  | _ :: es' => messages lvl es'
  end.

(** The [app.queuePrompt] calls of a log, in order. *)
Fixpoint queue_calls (es : list Effect) : list (JsVal * JsVal) :=
  match es with
  | [] => []
  | QueuePrompt a b :: es' => (a, b) :: queue_calls es'
  | _ :: es' => queue_calls es'
  end.

(** The calls of previously installed handlers, in order. *)
Fixpoint applications (es : list Effect) : list (HostFn * NodeRef * list JsVal) :=
  match es with
  | [] => []
  | Applied f this args :: es' => (f, this, args) :: applications es'
  | _ :: es' => applications es'
  end.

(** The widgets array of node [r]. *)
Definition widgets_of (w : World) (r : NodeRef) : option (list Widget) :=
  match heap w !! r with
  | Some n => n_widgets n
  | None => None
  end.

(** The button widgets of node [r]. *)
Definition buttons_of (w : World) (r : NodeRef) : list Widget :=
  filter (fun x => is_button x = true) (default [] (widgets_of w r)).

(** What [resolve] finds for an identifier, or the error it raises. *)
Definition resolved (v : Variant) (app : App) (k : JsVal) (w : World)
  : Result (option Found) := (resolve v app k w).1.

(** How many scheduled [app.queuePrompt] closures have not fired yet. *)
Definition pending_queue (ts : list Timer) : nat :=
  List.length (filter (fun t => t_task t = QueuePromptTask) ts).

(** Whether [app.graph.serialize], when the host has it, throws [null] or
    [undefined]. *)
Definition serialize_throws_nullish (app : App) : bool :=
  match app_graph app ≫= g_serialize with
  | Some f => hf_raises f && hf_nullish f
  | None => false
  end.

(** Whether the handler installed before, when there is one, raises. *)
Definition raises (prev : option HostFn) : bool :=
  match prev with
  | Some f => hf_raises f
  | None => false
  end.

(** The timers the two handlers schedule from a world [w]. *)
Definition queue_timer (w : World) : Timer :=
  {| t_due := now w + 100; t_task := QueuePromptTask |}.

Definition retry_timer (w : World) (this : NodeRef) : Timer :=
  {| t_due := now w + 0; t_task := RetryInit this |}.

(** ** A small page, for running the handlers *)

Module Demo.

Definition on_change : HostFn :=
  {| hf_tag := 1; hf_raises := false; hf_nullish := false |}.
Definition failing : HostFn :=
  {| hf_tag := 2; hf_raises := true; hf_nullish := false |}.
Definition serialize : HostFn :=
  {| hf_tag := 3; hf_raises := false; hf_nullish := false |}.
Definition queuePrompt : HostFn :=
  {| hf_tag := 4; hf_raises := false; hf_nullish := false |}.
Definition previous : HostFn :=
  {| hf_tag := 5; hf_raises := false; hf_nullish := false |}.
(** A function that does [throw null]. *)
Definition throwing_null : HostFn :=
  {| hf_tag := 6; hf_raises := true; hf_nullish := true |}.

Definition start_index : Widget :=
  {| w_type := "number"; w_name := VStr "start_index"; w_value := VNum 0;
     w_callback := Some (HostCallback on_change) |}.
Definition text : Widget :=
  {| w_type := "customtext"; w_name := VStr "text"; w_value := VStr "a";
     w_callback := None |}.

(** A node the host numbered 7, one numbered 0, one not numbered yet. *)
Definition node7 : Node :=
  {| n_id := VNum 7; n_widgets := Some [text; start_index]; n_status := VUndef;
     n_addWidget := true; n_outputs := None |}.
Definition node0 : Node :=
  {| n_id := VNum 0; n_widgets := Some [start_index]; n_status := VUndef;
     n_addWidget := true; n_outputs := None |}.
Definition fresh : Node :=
  {| n_id := VNum (-1); n_widgets := None; n_status := VUndef;
     n_addWidget := true; n_outputs := None |}.

Definition objects : gmap NodeRef Node :=
  <[1 := node7]> (<[2 := node0]> (<[3 := fresh]> ∅)).

(** Node 7 is in the cache; the host's graph knows nodes 7 and 0. *)
Definition page : World :=
  {| heap := objects; nodeIdMap := [(VNum 7, 1)]; timers := []; now := 0;
     effects := [] |}.

Definition getNodeById (id : JsVal) : option NodeRef :=
  match id with
  | VNum 7 => Some 1
  | VNum 0 => Some 2
  | _ => None
  end.

Definition graph : Graph :=
  {| g_nodes_by_id := Some [("7", 1); ("0", 2)];
     g_getNodeById := Some getNodeById;
     g_nodes := Some [1; 2];
     g_serialize := Some serialize |}.

Definition app : App :=
  {| app_graph := Some graph; app_isProcessing := false;
     app_queuePrompt := Some queuePrompt |}.

(** A host whose serialization raises. *)
Definition broken_app : App :=
  {| app_graph :=
       Some {| g_nodes_by_id := Some []; g_getNodeById := Some getNodeById;
               g_nodes := Some []; g_serialize := Some failing |};
     app_isProcessing := false;
     app_queuePrompt := Some queuePrompt |}.

(** A host whose serialization throws [null]. *)
Definition null_app : App :=
  {| app_graph :=
       Some {| g_nodes_by_id := Some []; g_getNodeById := Some getNodeById;
               g_nodes := Some []; g_serialize := Some throwing_null |};
     app_isProcessing := false;
     app_queuePrompt := Some queuePrompt |}.

(** The page at time 10, with the call of a queue event and the check of
    the node numbered 0 pending. *)
Definition busy : World :=
  {| heap := objects; nodeIdMap := [(VNum 7, 1)];
     timers := [ {| t_due := 100; t_task := QueuePromptTask |};
                 {| t_due := 0; t_task := RetryInit 2 |} ];
     now := 10; effects := [] |}.

Definition feedback (id : JsVal) (ty v : JsVal) : Event :=
  {| detail := Some {| node_id := id; widget_name := VStr "start_index";
                       type := ty; value := v |} |}.

End Demo.

(** A [TextQueueProcessor] node type whose prototype is the host's, and the
    node the host builds from it on the demo page. *)
Definition TextQueueProcessor_prototype : Prototype :=
  registered First "TextQueueProcessor"
    (host_prototype [("onNodeCreated", Demo.previous)]).

Definition TextQueueProcessor_created : World :=
  (construct First TextQueueProcessor_prototype 3 Demo.page).2.

(** ** Frames

    What a computation leaves alone, as a relation between the world before
    and the world after. *)

Definition fallback (v : Variant) : App -> JsVal -> Exec (option Found) :=
  match v with First => V1.fallback | Second => V2.fallback end.

(** The keys of the cache, in insertion order: [nodeIdMap.keys()]. *)
Definition keys (m : IdMap) : list JsVal := m.*1.

(** Every key is an identifier the extension takes as valid, and no key
    occurs twice. *)
Definition cache_ok (m : IdMap) : Prop :=
  NoDup (keys m) /\ Forall (fun k => valid_id k = true) (keys m).

(** [m] leaves [w'] related to [w] by [P], whatever it returns. *)
Definition keeps {A} (P : World -> World -> Prop) (m : Exec A) : Prop :=
  forall w, P w (m w).2.

(** The cache, the timers, the clock and the calls to [app.queuePrompt]
    are as before. *)
Definition same_cache (w w' : World) : Prop :=
  nodeIdMap w' = nodeIdMap w /\ timers w' = timers w /\ now w' = now w
  /\ queue_calls (effects w') = queue_calls (effects w).

(** The nodes, the cache, the clock, and the calls to widget callbacks and
    to [app.queuePrompt] are as before. *)
Definition same_nodes (w w' : World) : Prop :=
  heap w' = heap w /\ nodeIdMap w' = nodeIdMap w /\ now w' = now w
  /\ invocations (effects w') = invocations (effects w)
  /\ queue_calls (effects w') = queue_calls (effects w).

(** The nodes, the cache, the timers and the clock are as before. *)
Definition same_store (w w' : World) : Prop :=
  heap w' = heap w /\ nodeIdMap w' = nodeIdMap w /\ timers w' = timers w
  /\ now w' = now w.

(** The calls of previously installed handlers are as before. *)
Definition same_applications (w w' : World) : Prop :=
  applications (effects w') = applications (effects w).

(** The cache is as before, or has one more valid key, or one key less. *)
Definition cache_step (w w' : World) : Prop :=
  nodeIdMap w' = nodeIdMap w
  \/ (exists k r, valid_id k = true /\ nodeIdMap w' = map_set k r (nodeIdMap w))
  \/ (exists k, nodeIdMap w' = map_delete k (nodeIdMap w)).

(** * Properties *)

(** ** The conversions, on examples *)

Example parseInt_42 : parseInt (VStr "42") = VNum 42.
Proof. reflexivity. Qed.
Example parseInt_prefix : parseInt (VStr "  -17px") = VNum (-17).
Proof. reflexivity. Qed.
Example parseInt_hex : parseInt (VStr "0x1F") = VNum 31.
Proof. reflexivity. Qed.
Example parseInt_word : parseInt (VStr "abc") = VNaN.
Proof. reflexivity. Qed.
Example parseInt_num : parseInt (VNum (-7)) = VNum (-7).
Proof. vm_compute. reflexivity. Qed.
Example parseInt_undef : parseInt VUndef = VNaN.
Proof. reflexivity. Qed.
(** A no-break space, U+00A0, before the digits. *)
Example parseInt_nbsp :
  parseInt (VStr (String (ascii_of_nat 194) (String (ascii_of_nat 160) "42")))
  = VNum 42.
Proof. reflexivity. Qed.
Example parseInt_rounds : parseInt (VStr "9007199254740993") = VNum 9007199254740992.
Proof. vm_compute. reflexivity. Qed.
Example parseInt_large : parseInt (VNum (10 ^ 21)) = VNum 1.
Proof. vm_compute. reflexivity. Qed.
Example parseInt_infinity : parseInt (VInf false) = VNaN.
Proof. reflexivity. Qed.

Example to_string_large : to_string (VNum (10 ^ 21)) = "1e+21".
Proof. vm_compute. reflexivity. Qed.
Example to_string_shortest : to_string (VNum (2 ^ 60)) = "1152921504606847000".
Proof. vm_compute. reflexivity. Qed.
Example to_string_exponent : to_string (VNum (- 2 ^ 70)) = "-1.1805916207174113e+21".
Proof. vm_compute. reflexivity. Qed.

Example table_get_own : table_get "7" [("7", 1)] = Some (FoundNode 1).
Proof. reflexivity. Qed.
Example table_get_inherited :
  table_get "toString" [("7", 1)] = Some (Inherited "toString").
Proof. reflexivity. Qed.
Example table_get_missing : table_get "12" [("7", 1)] = None.
Proof. reflexivity. Qed.

Example loose_num_str : loose_eq (VNum 5) (VStr " 5 ") = true.
Proof. reflexivity. Qed.
Example loose_num_str_frac : loose_eq (VNum 5) (VStr "5.0") = true.
Proof. reflexivity. Qed.
Example loose_num_str_exp : loose_eq (VNum 1200) (VStr "1.2e3") = true.
Proof. reflexivity. Qed.
Example loose_num_str_half : loose_eq (VNum 5) (VStr "5.5") = false.
Proof. reflexivity. Qed.
Example loose_num_str_junk : loose_eq (VNum 5) (VStr "5px") = false.
Proof. reflexivity. Qed.
Example loose_zero_empty : loose_eq (VNum 0) (VStr "") = true.
Proof. reflexivity. Qed.
Example loose_null_zero : loose_eq VNull (VNum 0) = false.
Proof. reflexivity. Qed.
Example loose_nan : loose_eq VNaN VNaN = false.
Proof. reflexivity. Qed.
Example loose_num_str_rounds :
  loose_eq (VNum 1) (VStr "0.99999999999999999999") = true.
Proof. vm_compute. reflexivity. Qed.
Example loose_infinity : loose_eq (VInf false) (VStr "Infinity") = true.
Proof. reflexivity. Qed.

Lemma invocations_app es1 es2 :
  invocations (es1 ++ es2) = invocations es1 ++ invocations es2.
Proof.
  induction es1 as [|e es1 IH]; simpl; [done|].
  destruct e; simpl; by rewrite IH.
Qed.


Lemma queue_calls_app es1 es2 :
  queue_calls (es1 ++ es2) = queue_calls es1 ++ queue_calls es2.
Proof.
  induction es1 as [|e es1 IH]; simpl; [done|].
  destruct e; simpl; by rewrite IH.
Qed.

Lemma applications_app es1 es2 :
  applications (es1 ++ es2) = applications es1 ++ applications es2.
Proof.
  induction es1 as [|e es1 IH]; simpl; [done|].
  destruct e; simpl; by rewrite IH.
Qed.

(** ** Unfolding computations *)

Ltac exec_unfold :=
  unfold mbind, mret, Exec_bind, Exec_ret, try_catch, throw, require,
    call_host, emit, console_log, console_warn, console_error, read_node,
    write_node, setTimeout, map_get_m, map_set_m, map_delete_m, assign_value,
    assign_status, V2.id_of in *.

Ltac exec_simpl := exec_unfold; simpl in *.

Lemma bind_run {A B} (m : Exec A) (k : A -> Exec B) (w : World) :
  (m ≫= k) w
  = match m w with
    | (Ok a, w') => k a w'
    | (Raise e, w') => (Raise e, w')
    end.
Proof. reflexivity. Qed.

Lemma try_catch_run {A} (body : Exec A) (handler : JsError -> Exec A) (w : World) :
  try_catch body handler w
  = match body w with
    | (Ok a, w') => (Ok a, w')
    | (Raise e, w') => handler e w'
    end.
Proof. reflexivity. Qed.

(** ** Resolving a node reads the heap and the cache, and changes nothing *)

Lemma find_node_1_frame k ns w1 w2 :
  heap w1 = heap w2 ->
  V1.find_node k ns w1 = ((V1.find_node k ns w2).1, w1).
Proof.
  intros Hh. induction ns as [|r ns IH]; simpl; [done|].
  exec_simpl. rewrite Hh. destruct (heap w2 !! r) as [n|]; simpl; [|done].
  destruct (loose_eq (n_id n) k); simpl; [done|]. exact IH.
Qed.

Lemma find_node_2_frame k ns w1 w2 :
  heap w1 = heap w2 ->
  V2.find_node k ns w1 = ((V2.find_node k ns w2).1, w1).
Proof.
  intros Hh. induction ns as [|r ns IH]; simpl; [done|].
  exec_simpl. rewrite Hh.
  destruct (loose_eq (from_option n_id VUndef (heap w2 !! r)) k); simpl; [done|].
  exact IH.
Qed.

Lemma resolve_frame v app k w1 w2 :
  heap w1 = heap w2 ->
  nodeIdMap w1 = nodeIdMap w2 ->
  resolve v app k w1 = ((resolve v app k w2).1, w1).
Proof.
  intros Hh Hm. destruct v; simpl.
  - unfold V1.resolve, V1.fallback. exec_simpl. rewrite Hm.
    destruct (map_get k (nodeIdMap w2)); simpl; [done|].
    destruct (app_graph app) as [g|]; simpl; [|done].
    destruct (g_nodes_by_id g) as [tbl|]; simpl; [|done].
    destruct (table_get (to_string k) tbl); simpl; [done|].
    destruct (g_getNodeById g) as [f|]; simpl; [|done].
    destruct (f (parseInt k)); simpl; [done|].
    destruct (g_nodes g) as [ns|]; simpl; [|done].
    rewrite (find_node_1_frame k ns w1 w2 Hh).
    by destruct (V1.find_node k ns w2) as [[o|e] w'].
  - unfold V2.resolve, V2.fallback. exec_simpl. rewrite Hm.
    destruct (map_get k (nodeIdMap w2)); simpl; [done|].
    destruct (app_graph app) as [g|]; simpl; [|done].
    destruct (option_bind _ _ _ (g_nodes_by_id g)); simpl; [done|].
    destruct (option_bind _ _ _ (g_getNodeById g)); simpl; [done|].
    rewrite (find_node_2_frame k (default [] (g_nodes g)) w1 w2 Hh).
    by destruct (V2.find_node k _ w2) as [[o|e] w'].
Qed.

Lemma resolve_log v app k w es :
  resolve v app k (with_effects es w) = (resolved v app k w, with_effects es w).
Proof. by apply resolve_frame. Qed.

Lemma resolved_log v app k w es :
  resolved v app k (with_effects es w) = resolved v app k w.
Proof. unfold resolved at 1. by rewrite resolve_log. Qed.

(** ** The feedback handler on a target it finds *)

Lemma find_widget_lookup name ws i wd :
  find_widget name ws = Some (i, wd) ->
  ws !! i = Some wd /\ strict_eq (w_name wd) name = true.
Proof.
  revert i. induction ws as [|x ws IH]; intros i; simpl; [done|].
  destruct (strict_eq (w_name x) name) eqn:E.
  - intros [= <- <-]. done.
  - destruct (find_widget name ws) as [[j y]|]; simpl; [|done].
    intros [= <- <-]. simpl. by apply IH.
Qed.

(** Assigning a widget's value changes that widget only. *)
Lemma widget_in_assign_eq h r i v n ws wd :
  h !! r = Some n -> n_widgets n = Some ws -> ws !! i = Some wd ->
  widget_in
    (alter (fun n => set_widgets (alter (set_value v) i <$> n_widgets n) n) r h)
    r i = Some (set_value v wd).
Proof.
  intros Hn Hws Hi. unfold widget_in.
  rewrite lookup_alter_eq, Hn. simpl. rewrite Hws. simpl.
  by rewrite list_lookup_alter_eq, Hi.
Qed.

Lemma widget_in_assign_ne h r i v r' i' :
  r' ≠ r \/ i' ≠ i ->
  widget_in
    (alter (fun n => set_widgets (alter (set_value v) i <$> n_widgets n) n) r h)
    r' i' = widget_in h r' i'.
Proof.
  intros Hne. unfold widget_in.
  destruct (decide (r' = r)) as [->|Hr].
  - rewrite lookup_alter_eq. destruct (h !! r) as [n|]; simpl; [|done].
    destruct (n_widgets n) as [ws|]; simpl; [|done].
    destruct Hne as [?|Hi]; [done|]. by rewrite list_lookup_alter_ne.
  - by rewrite lookup_alter_ne.
Qed.

(** The status closure writes [status], no widget. *)
Lemma widget_in_status h r v r' i' :
  widget_in (alter (set_status v) r h) r' i' = widget_in h r' i'.
Proof.
  unfold widget_in. destruct (decide (r' = r)) as [->|Hr].
  - rewrite lookup_alter_eq. by destruct (h !! r).
  - by rewrite lookup_alter_ne.
Qed.

(** A callback adds one invocation to the log and touches no widget. *)
Lemma invoke_spec cb v w :
  exists res w',
    invoke cb v w = (res, w')
    /\ invocations (effects w') = invocations (effects w) ++ [(cb, v)]
    /\ (forall r i, widget_at w' r i = widget_at w r i)
    /\ nodeIdMap w' = nodeIdMap w /\ timers w' = timers w.
Proof.
  destruct cb as [f|owner]; simpl; exec_simpl.
  - destruct (hf_raises f); simpl; eexists _, _; (split; [done|]); simpl;
      rewrite invocations_app; done.
  - eexists _, _. split; [done|]. simpl.
    rewrite !invocations_app. simpl. rewrite app_nil_r.
    split; [done|]. split; [|done]. intros r i. unfold widget_at. simpl.
    apply widget_in_status.
Qed.

(** Lines 46-56 on the widget at position [i] of node [r]. *)
Lemma assign_and_notify_spec r i wd data w n ws :
  heap w !! r = Some n ->
  n_widgets n = Some ws ->
  ws !! i = Some wd ->
  exists res w',
    assign_and_notify r i wd data w = (res, w')
    /\ widget_at w' r i = Some (set_value (coerce data) wd)
    /\ invocations (effects w')
       = invocations (effects w)
         ++ match w_callback wd with Some cb => [(cb, coerce data)] | None => [] end
    /\ (forall r' i', r' ≠ r \/ i' ≠ i -> widget_at w' r' i' = widget_at w r' i')
    /\ nodeIdMap w' = nodeIdMap w /\ timers w' = timers w.
Proof.
  intros Hn Hws Hi.
  assert (H1 : exists w1,
    (if strict_eq (type data) (VStr "int")
     then console_log "Updating widget value:";; assign_value r i (parseInt (value data))
     else assign_value r i (value data)) w = (Ok tt, w1)
    /\ heap w1
       = alter (fun n => set_widgets (alter (set_value (coerce data)) i <$> n_widgets n) n)
           r (heap w)
    /\ invocations (effects w1) = invocations (effects w)
    /\ nodeIdMap w1 = nodeIdMap w /\ timers w1 = timers w).
  { unfold coerce. destruct (strict_eq (type data) (VStr "int")); exec_simpl;
      eexists; (split; [done|]); simpl; (split; [done|]).
    - rewrite invocations_app. simpl. by rewrite app_nil_r.
    - done. }
  destruct H1 as (w1 & E1 & Hh1 & Hi1 & Hm1 & Ht1).
  assert (Hat : widget_at w1 r i = Some (set_value (coerce data) wd)).
  { unfold widget_at. rewrite Hh1. by eapply widget_in_assign_eq. }
  assert (Hfr : forall r' i', r' ≠ r \/ i' ≠ i -> widget_at w1 r' i' = widget_at w r' i').
  { intros r' i' Hne. unfold widget_at. rewrite Hh1. by apply widget_in_assign_ne. }
  unfold assign_and_notify. rewrite bind_run, E1.
  destruct (w_callback wd) as [cb|].
  - destruct (invoke_spec cb (coerce data) w1) as (res & w2 & E2 & Hi2 & Hw2 & Hm2 & Ht2).
    exists res, w2. split; [done|]. split; [by rewrite Hw2|].
    split; [by rewrite Hi2, Hi1|]. split; [|by rewrite Hm2, Ht2].
    intros r' i' Hne. rewrite Hw2. by apply Hfr.
  - exists (Ok tt), w1. rewrite app_nil_r. done.
Qed.

Lemma console_run lvl msg w :
  emit (Console lvl msg) w = (Ok tt, with_effects (effects w ++ [Console lvl msg]) w).
Proof. reflexivity. Qed.

(** The outcome of the handler when the node and the widget are found. *)
Lemma feedback_found v app data w (r : NodeRef) n ws i wd :
  truthy (node_id data) = true ->
  resolved v app (node_id data) w = Ok (Some r) ->
  heap w !! r = Some n ->
  n_widgets n = Some ws ->
  find_widget (widget_name data) ws = Some (i, wd) ->
  exists w',
    feedback_handler v app {| detail := Some data |} w = (Ok tt, w')
    /\ widget_at w' r i = Some (set_value (coerce data) wd)
    /\ invocations (effects w')
       = invocations (effects w)
         ++ match w_callback wd with Some cb => [(cb, coerce data)] | None => [] end
    /\ (forall r' i', r' ≠ r \/ i' ≠ i -> widget_at w' r' i' = widget_at w r' i')
    /\ nodeIdMap w' = nodeIdMap w /\ timers w' = timers w.
Proof.
  intros Ht Hres Hn Hws Hfind.
  destruct (find_widget_lookup _ _ _ _ Hfind) as [Hi _].
  set (w3 := with_effects
               (((effects w ++ [Console LLog "Received node feedback:"])
                 ++ [Console LLog "Looking for node:"])
                ++ [Console LLog "Found node:"]) w).
  destruct (assign_and_notify_spec r i wd data w3 n ws Hn Hws Hi)
    as (res & w' & E & Hat & Hinv & Hfr & Hm & Htm).
  assert (Hinv3 : invocations (effects w3) = invocations (effects w)).
  { unfold w3. simpl. rewrite !invocations_app. simpl. by rewrite !app_nil_r. }
  assert (Hrun : feedback_body v app {| detail := Some data |}
                   (with_effects (effects w ++ [Console LLog "Received node feedback:"]) w)
                 = (res, w')).
  { destruct v; simpl.
    - unfold V1.feedback_body. simpl. rewrite Ht. simpl.
      rewrite bind_run. unfold console_log at 1. rewrite console_run.
      rewrite bind_run. rewrite (resolve_log First), resolved_log, Hres.
      rewrite bind_run. unfold console_log at 1. rewrite console_run.
      rewrite bind_run. unfold read_node at 1. simpl. rewrite Hn. simpl.
      rewrite bind_run. rewrite Hws. simpl. rewrite Hfind. exact E.
    - unfold V2.feedback_body. simpl. rewrite Ht. simpl.
      rewrite bind_run. unfold console_log at 1. rewrite console_run.
      rewrite bind_run. rewrite (resolve_log Second), resolved_log, Hres.
      rewrite bind_run. unfold console_log at 1. rewrite console_run.
      rewrite bind_run. unfold read_node at 1. simpl. rewrite Hn. simpl.
      rewrite Hws. simpl. rewrite Hfind. exact E. }
  assert (Hh : feedback_handler v app {| detail := Some data |} w
               = try_catch (feedback_body v app {| detail := Some data |})
                   (fun _ => console_error "Error in node feedback handler:")
                   (with_effects (effects w ++ [Console LLog "Received node feedback:"]) w)).
  { by destruct v. }
  rewrite Hh, try_catch_run, Hrun.
  destruct res as [[]|e].
  - exists w'. rewrite Hinv, Hinv3. done.
  - eexists. split; [reflexivity|]. simpl.
    rewrite invocations_app, Hinv, Hinv3. simpl. rewrite app_nil_r. done.
Qed.

Lemma strict_eq_str a s : strict_eq a (VStr s) = bool_decide (a = VStr s).
Proof. destruct a; simpl; try done. Qed.

(** ** The feedback handler *)

(** C1: when the event's node identifier resolves to a node (through the
    cache or the host fallbacks) and its widget name matches a widget of
    that node, then after the handler the widget's value is the coerced
    event value ([parseInt] of the value for type ["int"], the raw value
    otherwise), and the widget's callback, when it has one, has been called
    exactly once, with that value. *)
Theorem C1_feedback_updates_widget v app data w (r : NodeRef) n ws i wd :
  truthy (node_id data) = true ->
  resolved v app (node_id data) w = Ok (Some r) ->
  heap w !! r = Some n ->
  n_widgets n = Some ws ->
  find_widget (widget_name data) ws = Some (i, wd) ->
  exists w',
    feedback_handler v app {| detail := Some data |} w = (Ok tt, w')
    /\ w_value <$> widget_at w' r i
       = Some (if strict_eq (type data) (VStr "int")
               then parseInt (value data) else value data)
    /\ invocations (effects w')
       = invocations (effects w)
         ++ match w_callback wd with
            | Some cb =>
                [(cb, if strict_eq (type data) (VStr "int")
                      then parseInt (value data) else value data)]
            | None => []
            end.
Proof.
  intros Ht Hres Hn Hws Hfind.
  destruct (feedback_found v app data w r n ws i wd Ht Hres Hn Hws Hfind)
    as (w' & E & Hat & Hinv & _).
  exists w'. split; [exact E|]. split; [by rewrite Hat|exact Hinv].
Qed.

(** C2: for type ["int"] the value assigned to the target widget is the
    integer parse of the event value, the number 42 for the value ["42"];
    for any other type the raw event value is assigned. *)
Theorem C2_int_values_are_parsed v app data w (r : NodeRef) n ws i wd :
  truthy (node_id data) = true ->
  resolved v app (node_id data) w = Ok (Some r) ->
  heap w !! r = Some n ->
  n_widgets n = Some ws ->
  find_widget (widget_name data) ws = Some (i, wd) ->
  exists w',
    feedback_handler v app {| detail := Some data |} w = (Ok tt, w')
    /\ (type data = VStr "int" ->
        w_value <$> widget_at w' r i = Some (parseInt (value data)))
    /\ (type data = VStr "int" -> value data = VStr "42" ->
        w_value <$> widget_at w' r i = Some (VNum 42))
    /\ (type data <> VStr "int" ->
        w_value <$> widget_at w' r i = Some (value data)).
Proof.
  intros Ht Hres Hn Hws Hfind.
  destruct (feedback_found v app data w r n ws i wd Ht Hres Hn Hws Hfind)
    as (w' & E & Hat & _).
  exists w'. split; [exact E|]. rewrite Hat. simpl. unfold coerce.
  rewrite strict_eq_str. repeat split.
  - intros ->. by rewrite bool_decide_eq_true_2.
  - intros -> ->. by rewrite bool_decide_eq_true_2.
  - intros Hne. by rewrite bool_decide_eq_false_2.
Qed.

(** C10: for type ["int"] and a value that does not parse as an integer,
    the target widget is still assigned: its value becomes [NaN], and its
    callback, when it has one, is called once, with [NaN]. *)
Theorem C10_unparsable_int_is_NaN v app data w (r : NodeRef) n ws i wd :
  truthy (node_id data) = true ->
  resolved v app (node_id data) w = Ok (Some r) ->
  heap w !! r = Some n ->
  n_widgets n = Some ws ->
  find_widget (widget_name data) ws = Some (i, wd) ->
  type data = VStr "int" ->
  parseInt (value data) = VNaN ->
  exists w',
    feedback_handler v app {| detail := Some data |} w = (Ok tt, w')
    /\ w_value <$> widget_at w' r i = Some VNaN
    /\ invocations (effects w')
       = invocations (effects w)
         ++ match w_callback wd with Some cb => [(cb, VNaN)] | None => [] end.
Proof.
  intros Ht Hres Hn Hws Hfind Hty Hnan.
  destruct (feedback_found v app data w r n ws i wd Ht Hres Hn Hws Hfind)
    as (w' & E & Hat & Hinv & _).
  assert (Hc : coerce data = VNaN).
  { unfold coerce. by rewrite Hty, Hnan. }
  rewrite Hc in *. exists w'. split; [exact E|]. split; [by rewrite Hat|exact Hinv].
Qed.

(** The server sends the identifier as a string: the cache, keyed by the
    number 7, misses, and the host's table finds the node. *)
Lemma C1_witness :
  (truthy (VStr "7") = true
   /\ resolved First Demo.app (VStr "7") Demo.page = Ok (Some 1)
   /\ heap Demo.page !! 1 = Some Demo.node7
   /\ n_widgets Demo.node7 = Some [Demo.text; Demo.start_index]
   /\ find_widget (VStr "start_index") [Demo.text; Demo.start_index]
      = Some (1, Demo.start_index))
  /\ exists w',
       feedback_handler First Demo.app
         (Demo.feedback (VStr "7") (VStr "int") (VStr "42")) Demo.page = (Ok tt, w')
       /\ w_value <$> widget_at w' 1 1 = Some (VNum 42)
       /\ invocations (effects w') = [(HostCallback Demo.on_change, VNum 42)].
Proof.
  split; [repeat split; reflexivity|].
  apply (C1_feedback_updates_widget First Demo.app
           {| node_id := VStr "7"; widget_name := VStr "start_index";
              type := VStr "int"; value := VStr "42" |}
           Demo.page 1 Demo.node7 [Demo.text; Demo.start_index] 1 Demo.start_index);
    reflexivity.
Defined.

(** The identifier comes as a number and is found in the cache. *)
Lemma C2_witness :
  (truthy (VNum 7) = true
   /\ resolved Second Demo.app (VNum 7) Demo.page = Ok (Some 1)
   /\ heap Demo.page !! 1 = Some Demo.node7
   /\ n_widgets Demo.node7 = Some [Demo.text; Demo.start_index]
   /\ find_widget (VStr "start_index") [Demo.text; Demo.start_index]
      = Some (1, Demo.start_index))
  /\ exists w',
       feedback_handler Second Demo.app
         (Demo.feedback (VNum 7) (VStr "int") (VStr "42")) Demo.page = (Ok tt, w')
       /\ (VStr "int" = VStr "int" ->
           w_value <$> widget_at w' 1 1 = Some (VNum 42))
       /\ (VStr "int" = VStr "int" -> VStr "42" = VStr "42" ->
           w_value <$> widget_at w' 1 1 = Some (VNum 42))
       /\ (VStr "int" <> VStr "int" ->
           w_value <$> widget_at w' 1 1 = Some (VStr "42")).
Proof.
  split; [repeat split; reflexivity|].
  apply (C2_int_values_are_parsed Second Demo.app
           {| node_id := VNum 7; widget_name := VStr "start_index";
              type := VStr "int"; value := VStr "42" |}
           Demo.page 1 Demo.node7 [Demo.text; Demo.start_index] 1 Demo.start_index);
    reflexivity.
Defined.

Lemma C10_witness :
  (truthy (VNum 7) = true
   /\ resolved First Demo.app (VNum 7) Demo.page = Ok (Some 1)
   /\ heap Demo.page !! 1 = Some Demo.node7
   /\ n_widgets Demo.node7 = Some [Demo.text; Demo.start_index]
   /\ find_widget (VStr "start_index") [Demo.text; Demo.start_index]
      = Some (1, Demo.start_index)
   /\ parseInt (VStr "abc") = VNaN)
  /\ exists w',
       feedback_handler First Demo.app
         (Demo.feedback (VNum 7) (VStr "int") (VStr "abc")) Demo.page = (Ok tt, w')
       /\ w_value <$> widget_at w' 1 1 = Some VNaN
       /\ invocations (effects w') = [(HostCallback Demo.on_change, VNaN)].
Proof.
  split; [repeat split; reflexivity|].
  apply (C10_unparsable_int_is_NaN First Demo.app
           {| node_id := VNum 7; widget_name := VStr "start_index";
              type := VStr "int"; value := VStr "abc" |}
           Demo.page 1 Demo.node7 [Demo.text; Demo.start_index] 1 Demo.start_index);
    reflexivity.
Defined.




(** The two copies differ on a host that lacks one of the lookups: the
    first raises inside the chain, and the handler logs an error and no
    warning; the second goes on to the next lookup. *)
Example lookup_without_getter :
  let app :=
    {| app_graph :=
         Some {| g_nodes_by_id := Some []; g_getNodeById := None;
                 g_nodes := Some []; g_serialize := None |};
       app_isProcessing := false; app_queuePrompt := None |} in
  let event := Demo.feedback (VStr "12") (VStr "int") (VStr "3") in
  resolved First app (VStr "12") Demo.page = Raise (TypeError "app.graph.getNodeById")
  /\ messages LWarn (effects (feedback_handler First app event Demo.page).2) = []
  /\ messages LError (effects (feedback_handler First app event Demo.page).2)
     = ["Error in node feedback handler:"]
  /\ resolved Second app (VStr "12") Demo.page = Ok None
  /\ messages LWarn (effects (feedback_handler Second app event Demo.page).2)
     = ["Node not found by ID:"].
Proof. repeat split; vm_compute; reflexivity. Qed.

(** C9, as the code has it: a payload whose [node_id] is falsy (missing,
    the number 0, the empty string) is rejected: the handler logs one error
    and returns, and nothing else changes, so no node is looked up and no
    widget is written.  The check is on the payload's value, not on the
    node: the strings ["0"] and ["00"] are truthy and pass it. *)
Theorem C9_falsy_node_id_is_rejected v app data w :
  truthy (node_id data) = false ->
  feedback_handler v app {| detail := Some data |} w
  = (Ok tt,
     with_effects
       (effects w ++ [Console LLog "Received node feedback:";
                      Console LError "Invalid data received:"]) w)
  /\ truthy VUndef = false /\ truthy (VNum 0) = false /\ truthy (VStr "") = false
  /\ truthy (VStr "0") = true.
Proof.
  intros Ht. split; [|done].
  destruct v; simpl.
  - unfold V1.feedback_handler, V1.feedback_body. simpl. rewrite Ht. simpl.
    exec_simpl. by rewrite <- app_assoc.
  - unfold V2.feedback_handler, V2.feedback_body. simpl. rewrite Ht. simpl.
    exec_simpl. by rewrite <- app_assoc.
Qed.

Lemma C9_witness :
  truthy (VNum 0) = false
  /\ feedback_handler First Demo.app
       (Demo.feedback (VNum 0) (VStr "int") (VStr "3")) Demo.page
     = (Ok tt,
        with_effects [Console LLog "Received node feedback:";
                      Console LError "Invalid data received:"] Demo.page).
Proof.
  split; [reflexivity|].
  apply (C9_falsy_node_id_is_rejected First Demo.app
           {| node_id := VNum 0; widget_name := VStr "start_index";
              type := VStr "int"; value := VStr "3" |} Demo.page).
  reflexivity.
Defined.

(** Against C9 as stated: the node the host numbered 0 does receive
    feedback, from an event that names it by the string ["0"]; the host's
    id-indexed table resolves it. *)
Lemma C9_counterexample :
  n_id Demo.node0 = VNum 0
  /\ (feedback_handler First Demo.app
        (Demo.feedback (VStr "0") (VStr "int") (VStr "3")) Demo.page).1 = Ok tt
  /\ w_value <$> widget_at Demo.page 2 0 = Some (VNum 0)
  /\ w_value <$> widget_at
       (feedback_handler First Demo.app
          (Demo.feedback (VStr "0") (VStr "int") (VStr "3")) Demo.page).2 2 0
     = Some (VNum 3)
  /\ invocations
       (effects (feedback_handler First Demo.app
          (Demo.feedback (VStr "0") (VStr "int") (VStr "3")) Demo.page).2)
     = [(HostCallback Demo.on_change, VNum 3)].
Proof. repeat split; vm_compute; reflexivity. Qed.

(** ** Node lifecycle *)

Lemma map_delete_absent k m : map_get k m = None -> map_delete k m = m.
Proof.
  induction m as [|[k' r] m IH]; simpl; [done|].
  destruct (same_value_zero k' k); [done|]. intros H. by rewrite IH.
Qed.

(** C6: when a node is removed whose identifier is not in the cache, the
    eviction leaves the cache as it is, and the [onRemoved] handler that
    was installed before, when there is one, is called once, on the node
    and with the arguments of the removal. *)
Theorem C6_removal_of_unregistered_node v prev this args w n :
  heap w !! this = Some n ->
  map_get (n_id n) (nodeIdMap w) = None ->
  exists res w',
    onRemoved v prev this args w = (res, w')
    /\ nodeIdMap w' = nodeIdMap w
    /\ heap w' = heap w
    /\ applications (effects w')
       = applications (effects w)
         ++ match prev with Some f => [(f, this, args)] | None => [] end.
Proof.
  intros Hn Habs.
  destruct v; simpl.
  - unfold V1.onRemoved. exec_simpl. rewrite Hn. simpl.
    rewrite (map_delete_absent _ _ Habs).
    destruct prev as [f|]; simpl.
    + destruct (hf_raises f); eexists _, _; (split; [reflexivity|]); simpl;
        rewrite !applications_app; simpl; by rewrite app_nil_r.
    + eexists _, _. split; [reflexivity|]. simpl.
      rewrite !applications_app. simpl. by rewrite !app_nil_r.
  - unfold V2.onRemoved. exec_simpl. rewrite Hn. simpl.
    destruct (truthy (n_id n)); simpl.
    + rewrite (map_delete_absent _ _ Habs).
      destruct prev as [f|]; simpl.
      * destruct (hf_raises f); eexists _, _; (split; [reflexivity|]); simpl;
          rewrite !applications_app; simpl; by rewrite app_nil_r.
      * eexists _, _. split; [reflexivity|]. simpl.
        rewrite !applications_app. simpl. by rewrite !app_nil_r.
    + destruct prev as [f|]; simpl.
      * destruct (hf_raises f); eexists _, _; (split; [reflexivity|]); simpl;
          rewrite !applications_app; simpl; done.
      * eexists _, _. split; [reflexivity|]. simpl. by rewrite app_nil_r.
Qed.

Lemma C6_witness :
  (heap Demo.page !! 3 = Some Demo.fresh
   /\ map_get (n_id Demo.fresh) (nodeIdMap Demo.page) = None)
  /\ exists res w',
       onRemoved First (Some Demo.previous) 3 [VStr "graph"] Demo.page = (res, w')
       /\ nodeIdMap w' = [(VNum 7, 1)]
       /\ heap w' = heap Demo.page
       /\ applications (effects w') = [(Demo.previous, 3, [VStr "graph"])].
Proof.
  split; [split; reflexivity|].
  apply (C6_removal_of_unregistered_node First (Some Demo.previous) 3
           [VStr "graph"] Demo.page Demo.fresh); reflexivity.
Defined.

(** ** Errors *)

Lemma try_catch_total (body : Exec unit) (handler : JsError -> Exec unit) w :
  (forall e w1, (handler e w1).1 = Ok tt) ->
  (try_catch body handler w).1 = Ok tt.
Proof.
  intros H. rewrite try_catch_run. destruct (body w) as [[[]|e] w1]; [done|apply H].
Qed.

(** The catch block of the queue handler, on the value caught. *)
Lemma queue_catch_run error w :
  (console_error "Error in textbatch-add-queue handler:";;
   read_member "error.message" error;;
   read_member "error.stack" error;;
   console_error "Error details:") w
  = if nullish error
    then (Raise (TypeError "error.message"),
          with_effects
            (effects w ++ [Console LError "Error in textbatch-add-queue handler:"]) w)
    else (Ok tt,
          with_effects
            (effects w ++ [Console LError "Error in textbatch-add-queue handler:";
                           Console LError "Error details:"]) w).
Proof.
  unfold read_member. destruct (nullish error); exec_simpl; [done|].
  rewrite console_run. simpl. by rewrite <- app_assoc.
Qed.

Lemma queue_handler_run v app w :
  queue_handler v app w
  = match queue_body v app w with
    | (Ok a, w1) => (Ok a, w1)
    | (Raise e, w1) =>
        if nullish e
        then (Raise (TypeError "error.message"),
              with_effects
                (effects w1 ++ [Console LError "Error in textbatch-add-queue handler:"])
                w1)
        else (Ok tt,
              with_effects
                (effects w1 ++ [Console LError "Error in textbatch-add-queue handler:";
                                Console LError "Error details:"]) w1)
    end.
Proof.
  destruct v; simpl; [unfold V1.queue_handler|unfold V2.queue_handler];
    rewrite try_catch_run;
    match goal with |- context [?body app w] => destruct (body app w) as [[a|e] w1] end;
    try done; apply queue_catch_run.
Qed.

(** What the body of the queue handler raises is [null] or [undefined]
    only when the host's [serialize] throws such a value. *)
Lemma queue_body_raise v app w e w1 :
  queue_body v app w = (Raise e, w1) -> nullish e = serialize_throws_nullish app.
Proof.
  unfold serialize_throws_nullish.
  destruct v; simpl; [unfold V1.queue_body|unfold V2.queue_body]; exec_simpl.
  - destruct (app_isProcessing app); simpl;
      (destruct (app_graph app) as [g|]; simpl; [|by intros [= <- _]]);
      (destruct (g_serialize g) as [s|]; simpl; [|by intros [= <- _]]);
      (destruct (hf_raises s); simpl; [|done]); by intros [= <- _].
  - destruct (app_isProcessing app); simpl;
      (destruct (option_bind _ _ _ (app_graph app)) as [s|]; simpl; [|done]);
      (destruct (hf_raises s); simpl; [|done]); by intros [= <- _].
Qed.

Lemma queue_body_nullish v app w :
  serialize_throws_nullish app = true ->
  exists e w1, queue_body v app w = (Raise e, w1) /\ nullish e = true.
Proof.
  unfold serialize_throws_nullish.
  destruct v; simpl; [unfold V1.queue_body|unfold V2.queue_body]; exec_simpl.
  - destruct (app_isProcessing app); simpl;
      (destruct (app_graph app) as [g|]; simpl; [|done]);
      (destruct (g_serialize g) as [s|]; simpl; [|done]);
      (destruct (hf_raises s); simpl; [|done]); intros Hn; eexists _, _; done.
  - destruct (app_isProcessing app); simpl;
      (destruct (option_bind _ _ _ (app_graph app)) as [s|]; simpl; [|done]);
      (destruct (hf_raises s); simpl; [|done]); intros Hn; eexists _, _; done.
Qed.

(** C7, as the code has it: the feedback handler and the closure the queue
    handler schedules return normally whatever happens inside them; an
    error raised in their body is caught and logged on the console.  The
    queue handler catches what its body raises and logs it twice, unless
    the value thrown is [null] or [undefined], which only the host's
    [serialize] can throw: its catch block reads [error.message], so it logs
    once and raises a [TypeError] itself, which leaves the handler.  The
    lifecycle handlers [onNodeCreated] and [onRemoved] have no such boundary
    and are not covered. *)
Theorem C7_event_handlers_catch v app event w :
  (feedback_handler v app event w).1 = Ok tt
  /\ (queue_task v app w).1 = Ok tt
  /\ (serialize_throws_nullish app = false -> (queue_handler v app w).1 = Ok tt)
  /\ (serialize_throws_nullish app = true ->
      (queue_handler v app w).1 = Raise (TypeError "error.message"))
  /\ (forall e w1,
        feedback_body v app event
          (with_effects (effects w ++ [Console LLog "Received node feedback:"]) w)
        = (Raise e, w1) ->
        (feedback_handler v app event w).2
        = with_effects
            (effects w1 ++ [Console LError "Error in node feedback handler:"]) w1)
  /\ (forall e w1,
        queue_body v app w = (Raise e, w1) ->
        (queue_handler v app w).2
        = with_effects
            (effects w1
             ++ Console LError "Error in textbatch-add-queue handler:"
                :: (if serialize_throws_nullish app then []
                    else [Console LError "Error details:"])) w1)
  /\ (forall e w1,
        queue_task_body v app w = (Raise e, w1) ->
        (queue_task v app w).2
        = with_effects (effects w1 ++ [Console LError "Error queueing prompt:"]) w1).
Proof.
  assert (Hf : feedback_handler v app event w
               = try_catch (feedback_body v app event)
                   (fun _ => console_error "Error in node feedback handler:")
                   (with_effects (effects w ++ [Console LLog "Received node feedback:"]) w)).
  { by destruct v. }
  assert (Ht : queue_task v app w
               = try_catch (queue_task_body v app)
                   (fun _ => console_error "Error queueing prompt:") w).
  { by destruct v. }
  split; [rewrite Hf; by apply try_catch_total|].
  split; [rewrite Ht; by apply try_catch_total|].
  split; [|split; [|split; [|split]]].
  - intros Hs. rewrite queue_handler_run.
    destruct (queue_body v app w) as [[[]|e] w1] eqn:E; [done|].
    by rewrite (queue_body_raise _ _ _ _ _ E), Hs.
  - intros Hs. rewrite queue_handler_run.
    destruct (queue_body_nullish v app w Hs) as (e & w1 & -> & ->). done.
  - intros e w1 E. rewrite Hf, try_catch_run, E. reflexivity.
  - intros e w1 E. rewrite queue_handler_run, E.
    rewrite (queue_body_raise _ _ _ _ _ E).
    by destruct (serialize_throws_nullish app).
  - intros e w1 E. rewrite Ht, try_catch_run, E. reflexivity.
Qed.

(** On a host whose [serialize] raises an error object, the first copy's
    queue handler catches the error and logs it. *)
Lemma C7_witness :
  queue_body First Demo.broken_app Demo.page
  = (Raise (HostError Demo.failing),
     with_effects [Console LLog "Received queue event:"; Serialized] Demo.page)
  /\ queue_handler First Demo.broken_app Demo.page
     = (Ok tt,
        with_effects
          [Console LLog "Received queue event:"; Serialized;
           Console LError "Error in textbatch-add-queue handler:";
           Console LError "Error details:"] Demo.page).
Proof.
  split; [reflexivity|].
  pose proof (C7_event_handlers_catch First Demo.broken_app
                {| detail := None |} Demo.page) as (_ & _ & Hok & _ & _ & Hlog & _).
  specialize (Hok eq_refl).
  specialize (Hlog (HostError Demo.failing)
                (with_effects [Console LLog "Received queue event:"; Serialized]
                   Demo.page) eq_refl).
  destruct (queue_handler First Demo.broken_app Demo.page) as [res w'].
  simpl in Hok, Hlog. by rewrite Hok, Hlog.
Defined.

(** Against C7 as stated: an error raised by the handler installed before
    leaves the [onRemoved] override, and the [onNodeCreated] one, uncaught;
    and when the host's [serialize] throws [null], the queue handler raises
    out of its own catch block, in both copies. *)
Lemma C7_counterexample :
  (onRemoved First (Some Demo.failing) 1 [] Demo.page).1
  = Raise (HostError Demo.failing)
  /\ (onRemoved Second (Some Demo.failing) 1 [] Demo.page).1
     = Raise (HostError Demo.failing)
  /\ (onNodeCreated First (Some Demo.failing) 1 [] Demo.page).1
     = Raise (HostError Demo.failing)
  /\ (onNodeCreated Second (Some Demo.failing) 1 [] Demo.page).1
     = Raise (HostError Demo.failing)
  /\ queue_handler First Demo.null_app Demo.page
     = (Raise (TypeError "error.message"),
        with_effects
          [Console LLog "Received queue event:"; Serialized;
           Console LError "Error in textbatch-add-queue handler:"] Demo.page)
  /\ (queue_handler Second Demo.null_app Demo.page).1
     = Raise (TypeError "error.message").
Proof. repeat split; vm_compute; reflexivity. Qed.

(** ** The queue trigger *)

(** The scheduled closure calls [app.queuePrompt(0, 1)] once, whether the
    call raises or not, and touches nothing else. *)
Lemma queue_task_spec v app f w :
  app_queuePrompt app = Some f ->
  exists w',
    queue_task v app w = (Ok tt, w')
    /\ queue_calls (effects w') = queue_calls (effects w) ++ [(VNum 0, VNum 1)]
    /\ timers w' = timers w /\ now w' = now w
    /\ heap w' = heap w /\ nodeIdMap w' = nodeIdMap w.
Proof.
  intros Hq. destruct v; simpl.
  - unfold V1.queue_task, V1.queue_task_body. rewrite Hq. exec_simpl.
    destruct (hf_raises f); simpl; eexists; (split; [reflexivity|]); simpl;
      rewrite !queue_calls_app; simpl; by rewrite !app_nil_r.
  - unfold V2.queue_task, V2.queue_task_body. rewrite Hq. exec_simpl.
    destruct (hf_raises f); simpl; eexists; (split; [reflexivity|]); simpl;
      rewrite !queue_calls_app; simpl; by rewrite !app_nil_r.
Qed.

(** When its synchronous part does not raise, the handler schedules the
    closure, 100 time units ahead, and calls nothing yet. *)
Lemma queue_handler_spec v app w :
  (queue_body v app w).1 = Ok tt ->
  exists w1,
    queue_handler v app w = (Ok tt, w1)
    /\ timers w1 = timers w ++ [queue_timer w]
    /\ queue_calls (effects w1) = queue_calls (effects w)
    /\ now w1 = now w /\ heap w1 = heap w /\ nodeIdMap w1 = nodeIdMap w.
Proof.
  destruct v; simpl.
  - unfold V1.queue_handler, V1.queue_body. exec_simpl.
    destruct (app_isProcessing app); simpl;
      (destruct (app_graph app) as [g|]; simpl; [|done]);
      (destruct (g_serialize g) as [s|]; simpl; [|done]);
      (destruct (hf_raises s); simpl; [done|]); intros _;
      eexists; (split; [reflexivity|]); simpl;
      rewrite !queue_calls_app; simpl; by rewrite !app_nil_r.
  - unfold V2.queue_handler, V2.queue_body. exec_simpl.
    destruct (app_isProcessing app); simpl;
      (destruct (option_bind _ _ _ (app_graph app)) as [s|]; simpl);
      try (destruct (hf_raises s); simpl; [done|]); intros _;
      eexists; (split; [reflexivity|]); simpl;
      rewrite !queue_calls_app; simpl; by rewrite !app_nil_r.
Qed.

(** The scheduled closure leaves the nodes, the cache, the timers and the
    clock alone, on every host. *)
Lemma queue_task_store v app w :
  timers (queue_task v app w).2 = timers w
  /\ heap (queue_task v app w).2 = heap w
  /\ nodeIdMap (queue_task v app w).2 = nodeIdMap w
  /\ now (queue_task v app w).2 = now w.
Proof.
  destruct v; simpl; [unfold V1.queue_task, V1.queue_task_body
                     |unfold V2.queue_task, V2.queue_task_body]; exec_simpl;
    (destruct (app_queuePrompt app) as [f|]; simpl; [destruct (hf_raises f)|]);
    done.
Qed.

(** The deferred check either finds no valid identifier and changes
    neither the cache nor any node, or finds one and registers the node
    under it; it schedules nothing. *)
Lemma retry_init_cases v this w :
  exists res w',
    retry_init v this w = (res, w')
    /\ timers w' = timers w
    /\ queue_calls (effects w') = queue_calls (effects w)
    /\ ((nodeIdMap w' = nodeIdMap w /\ heap w' = heap w
         /\ forall n, heap w !! this = Some n -> valid_id (n_id n) = false)
        \/ (exists n, heap w !! this = Some n /\ valid_id (n_id n) = true
            /\ nodeIdMap w' = map_set (n_id n) this (nodeIdMap w))).
Proof.
  destruct v; simpl.
  - unfold V1.retry_init, V1.attach_status. exec_simpl.
    destruct (heap w !! this) as [n|] eqn:Hn; simpl.
    + destruct (truthy (n_id n) && negb (strict_eq (n_id n) (VNum (-1)))) eqn:Hv; simpl.
      * rewrite Hn. simpl.
        destruct (n_addWidget n); simpl; eexists _, _; (split; [reflexivity|]);
          (split; [done|]); simpl; rewrite queue_calls_app; simpl;
          rewrite app_nil_r; (split; [done|]); right; exists n; done.
      * eexists _, _. split; [reflexivity|]. split; [done|]. simpl.
        rewrite queue_calls_app. simpl. rewrite app_nil_r. split; [done|]. left.
        repeat split; try done. by intros ? [= <-].
    + eexists _, _. split; [reflexivity|]. split; [done|]. simpl.
      rewrite queue_calls_app. simpl. rewrite app_nil_r. split; [done|].
      left. done.
  - unfold V2.retry_init, V2.attach_status. exec_simpl.
    destruct (heap w !! this) as [n|] eqn:Hn; simpl.
    + destruct (truthy (n_id n) && negb (strict_eq (n_id n) (VNum (-1)))) eqn:Hv; simpl.
      * rewrite Hn. simpl.
        destruct (n_addWidget n); simpl; eexists _, _; (split; [reflexivity|]);
          (split; [done|]); simpl; rewrite queue_calls_app; simpl;
          rewrite app_nil_r; (split; [done|]); right; exists n; done.
      * eexists _, _. split; [reflexivity|]. split; [done|]. split; [done|]. left.
        repeat split; try done. by intros ? [= <-].
    + eexists _, _. split; [reflexivity|]. split; [done|]. split; [done|].
      left. done.
Qed.

Lemma pending_queue_delete ts i t :
  ts !! i = Some t ->
  pending_queue ts
  = pending_queue (delete i ts)
    + (if decide (t_task t = QueuePromptTask) then 1 else 0).
Proof.
  revert i. induction ts as [|t0 ts IH]; intros i Hi; [done|].
  destruct i as [|i]; simpl in Hi.
  - injection Hi as ->. unfold pending_queue. simpl. rewrite filter_cons.
    destruct (decide (t_task t = QueuePromptTask)); simpl; lia.
  - specialize (IH i Hi). unfold pending_queue in *. simpl.
    rewrite !filter_cons. destruct (decide (t_task t0 = QueuePromptTask)); simpl; lia.
Qed.

(** On a host that has [app.queuePrompt], every scheduled closure accounts
    for one call: along any run, the calls made and the closures still
    pending add up to the same number. *)
Lemma queue_calls_conserved v app f w w2 :
  app_queuePrompt app = Some f ->
  steps v app w w2 ->
  List.length (queue_calls (effects w2)) + pending_queue (timers w2)
  = List.length (queue_calls (effects w)) + pending_queue (timers w).
Proof.
  intros Hq Hsteps. unfold steps in Hsteps. revert w2 Hsteps.
  apply rtc_ind_r; [done|]. intros y z _ Hyz IH.
  inversion Hyz as [dt y'|r id y'|i t y' z' res Hi Hdue Hrun]; subst; simpl;
    [exact IH|exact IH|].
  rewrite (pending_queue_delete _ _ _ Hi) in IH.
  destruct t as [due [|this]]; simpl in *.
  - destruct (queue_task_spec v app f (with_timers (delete i (timers y)) y) Hq)
      as (w' & E' & Hc' & Ht' & _).
    rewrite E' in Hrun. injection Hrun as _ <-.
    rewrite Hc', Ht', length_app. simpl. lia.
  - destruct (retry_init_cases v this (with_timers (delete i (timers y)) y))
      as (res' & w' & E' & Ht' & Hc' & _).
    rewrite E' in Hrun. injection Hrun as _ <-.
    rewrite Hc', Ht'. simpl. lia.
Qed.

(** The deferred check leaves the clock alone, and every node but its
    own. *)
Lemma retry_init_others v this w :
  now (retry_init v this w).2 = now w
  /\ forall r, r <> this -> heap (retry_init v this w).2 !! r = heap w !! r.
Proof.
  destruct v; simpl; [unfold V1.retry_init, V1.attach_status
                     |unfold V2.retry_init, V2.attach_status]; exec_simpl;
    (destruct (heap w !! this) as [n|] eqn:Hn; simpl; [|done]);
    (destruct (truthy (n_id n) && negb (strict_eq (n_id n) (VNum (-1)))); simpl;
     [|done]);
    rewrite Hn; simpl; (destruct (n_addWidget n); simpl; [|done]);
    (split; [done|]); intros r Hr; by rewrite lookup_insert_ne.
Qed.

(** What firing a timer does to the timers, the clock and the calls, on a
    host that has [app.queuePrompt]. *)
Lemma run_task_calls v app f t w :
  app_queuePrompt app = Some f ->
  exists res w',
    run_task v app t w = (res, w')
    /\ timers w' = timers w /\ now w' = now w
    /\ queue_calls (effects w')
       = queue_calls (effects w)
         ++ (if decide (t = QueuePromptTask) then [(VNum 0, VNum 1)] else []).
Proof.
  intros Hq. destruct t as [|this]; simpl.
  - destruct (queue_task_spec v app f w Hq) as (w' & E & Hc & Ht & Hn & _).
    exists (Ok tt), w'. done.
  - destruct (retry_init_cases v this w) as (res & w' & E & Ht & Hc & _).
    exists res, w'. rewrite app_nil_r. split; [done|]. split; [done|].
    split; [|done].
    pose proof (proj1 (retry_init_others v this w)) as Hn. by rewrite E in Hn.
Qed.

(** The timer at a position of a list that ends with [a]: one of the
    list before [a], or [a] itself. *)
Lemma lookup_snoc_delete {A} (ts : list A) (a : A) i t :
  (ts ++ [a]) !! i = Some t ->
  (ts !! i = Some t /\ delete i (ts ++ [a]) = delete i ts ++ [a])
  \/ (i = List.length ts /\ t = a /\ delete i (ts ++ [a]) = ts).
Proof.
  revert i. induction ts as [|b ts IH]; intros [|i]; simpl.
  - intros [= <-]. by right.
  - done.
  - intros [= <-]. by left.
  - intros Hi. destruct (IH i Hi) as [[H1 H2]|(H1 & H2 & H3)].
    + left. split; [done|]. f_equal. exact H2.
    + right. split; [by rewrite H1|]. split; [done|]. f_equal. exact H3.
Qed.

(** C4, as the code has it: when the synchronous part of the handler does
    not raise (the host's graph serializes) and the host has
    [app.queuePrompt], the handler calls nothing itself and adds one timer,
    due 100 time units later, behind the timers already pending.  In every
    run of the event loop from there, the calls made since the event are
    calls of [app.queuePrompt(0, 1)], and either the timer of the event is
    still pending, last in the list, and each call made is owed to an
    earlier event; or it has fired, not before those 100 units have passed,
    and one call more has been made than the earlier events account for.
    No timer is ever added, so the event is never answered twice; and some
    run makes the call, at the end of the delay, with the timers of before
    the event still pending. *)
Theorem C4_queue_once_after_delay v app w f :
  (queue_body v app w).1 = Ok tt ->
  app_queuePrompt app = Some f ->
  exists w1,
    queue_handler v app w = (Ok tt, w1)
    /\ timers w1 = timers w ++ [queue_timer w]
    /\ queue_calls (effects w1) = queue_calls (effects w)
    /\ (forall w2, steps v app w1 w2 ->
          exists k,
            queue_calls (effects w2)
            = queue_calls (effects w) ++ replicate k (VNum 0, VNum 1)
            /\ ((exists ts,
                   timers w2 = ts ++ [queue_timer w]
                   /\ ts `sublist_of` timers w
                   /\ k + pending_queue ts = pending_queue (timers w))
                \/ (timers w2 `sublist_of` timers w
                    /\ now w + 100 <= now w2
                    /\ k + pending_queue (timers w2)
                       = pending_queue (timers w) + 1)))
    /\ (exists w2, steps v app w1 w2
          /\ queue_calls (effects w2)
             = queue_calls (effects w) ++ [(VNum 0, VNum 1)]
          /\ timers w2 = timers w /\ now w2 = now w + 100).
Proof.
  intros Hbody Hq.
  destruct (queue_handler_spec v app w Hbody) as (w1 & E & Ht1 & Hc1 & Hn1 & _).
  exists w1. split; [exact E|]. split; [exact Ht1|]. split; [exact Hc1|]. split.
  - intros w2 Hsteps. unfold steps in Hsteps. revert w2 Hsteps.
    apply rtc_ind_r.
    { exists 0. rewrite app_nil_r. split; [exact Hc1|]. left.
      exists (timers w). done. }
    intros y z _ Hyz (k & Hc & IH).
    inversion Hyz as [dt y'|r id y'|i t y' z' res Hi Hdue Hrun]; subst.
    + exists k. split; [exact Hc|]. destruct IH as [IH|(Hs & Hn & Hk)]; [by left|].
      right. simpl. split; [done|]. split; [lia|done].
    + exists k. split; [exact Hc|]. exact IH.
    + destruct (run_task_calls v app f (t_task t)
                  (with_timers (delete i (timers y)) y) Hq)
        as (res' & w' & E' & Ht' & Hn' & Hc').
      rewrite E' in Hrun. injection Hrun as _ <-. simpl in Ht', Hn', Hc'.
      pose proof (pending_queue_delete _ _ _ Hi) as Hpend.
      destruct IH as [(ts & Hts & Hsub & Hk)|(Hsub & Hn & Hk)].
      * rewrite Hts in Hi.
        destruct (lookup_snoc_delete ts (queue_timer w) i t Hi)
          as [[Hi' Hdel]|(-> & -> & Hdel)].
        -- pose proof (pending_queue_delete _ _ _ Hi') as Hpend'.
           exists (k + (if decide (t_task t = QueuePromptTask) then 1 else 0)).
           split.
           { rewrite Hc', Hc, <- app_assoc. f_equal.
             destruct (decide (t_task t = QueuePromptTask)).
             - by rewrite Nat.add_1_r, replicate_S_end.
             - by rewrite Nat.add_0_r, app_nil_r. }
           left. exists (delete i ts). rewrite Ht', Hts, Hdel.
           split; [done|]. split; [by etrans; [apply sublist_delete|]|].
           destruct (decide (t_task t = QueuePromptTask)); lia.
        -- exists (S k). split.
           { rewrite Hc', Hc, <- app_assoc. f_equal. simpl.
             by rewrite replicate_cons_app. }
           right. rewrite Ht', Hn', Hts, Hdel. simpl in Hdue.
           split; [done|]. split; [exact Hdue|lia].
      * exists (k + (if decide (t_task t = QueuePromptTask) then 1 else 0)).
        split.
        { rewrite Hc', Hc, <- app_assoc. f_equal.
          destruct (decide (t_task t = QueuePromptTask)).
          - by rewrite Nat.add_1_r, replicate_S_end.
          - by rewrite Nat.add_0_r, app_nil_r. }
        right. rewrite Ht', Hn'.
        split; [by etrans; [apply sublist_delete|]|]. split; [done|].
        destruct (decide (t_task t = QueuePromptTask)); lia.
  - set (i := List.length (timers w)).
    set (wt := with_now (now w1 + 100) w1).
    destruct (queue_task_spec v app f (with_timers (delete i (timers wt)) wt) Hq)
      as (w' & E' & Hc' & Ht' & Hn' & _).
    assert (Hdel : delete i (timers wt) = timers w).
    { unfold wt, i. simpl. rewrite Ht1.
      rewrite (delete_middle (timers w) [] (queue_timer w)). apply app_nil_r. }
    exists w'. split; [|split; [|split]].
    + eapply rtc_l; [apply (step_tick v app 100 w1)|].
      eapply rtc_l; [|apply rtc_refl]. fold wt.
      eapply (step_fire v app i (queue_timer w)); [| |exact E'].
      * unfold wt, i. simpl. rewrite Ht1. apply list_lookup_middle. done.
      * unfold wt. simpl. rewrite Hn1. lia.
    + rewrite Hc'. simpl. by rewrite Hc1.
    + rewrite Ht'. simpl. exact Hdel.
    + rewrite Hn'. simpl. by rewrite Hn1.
Qed.

(** A second event, 10 time units after a first one whose call is still
    owed, with the check of a node pending as well. *)
Lemma C4_witness :
  ((queue_body First Demo.app Demo.busy).1 = Ok tt
   /\ app_queuePrompt Demo.app = Some Demo.queuePrompt)
  /\ exists w1,
       queue_handler First Demo.app Demo.busy = (Ok tt, w1)
       /\ timers w1
          = [ {| t_due := 100; t_task := QueuePromptTask |};
              {| t_due := 0; t_task := RetryInit 2 |};
              {| t_due := 110; t_task := QueuePromptTask |} ]
       /\ (forall w2, steps First Demo.app w1 w2 ->
             exists k,
               queue_calls (effects w2) = replicate k (VNum 0, VNum 1)
               /\ ((exists ts,
                      timers w2 = ts ++ [{| t_due := 110; t_task := QueuePromptTask |}]
                      /\ ts `sublist_of` timers Demo.busy
                      /\ k + pending_queue ts = 1)
                   \/ (timers w2 `sublist_of` timers Demo.busy
                       /\ 110 <= now w2
                       /\ k + pending_queue (timers w2) = 2)))
       /\ (exists w2, steps First Demo.app w1 w2
             /\ queue_calls (effects w2) = [(VNum 0, VNum 1)]
             /\ timers w2 = timers Demo.busy /\ now w2 = 110).
Proof.
  split; [split; reflexivity|].
  destruct (C4_queue_once_after_delay First Demo.app Demo.busy Demo.queuePrompt
              eq_refl eq_refl) as (w1 & E & Ht & _ & Hrun & Hex).
  exists w1. split; [exact E|]. split; [exact Ht|]. split; [exact Hrun|exact Hex].
Defined.

(** ** Runs with no timer pending *)

Lemma widgets_of_set_id w r id r' :
  widgets_of (with_heap (alter (set_id id) r (heap w)) w) r' = widgets_of w r'.
Proof.
  unfold widgets_of. simpl. destruct (decide (r' = r)) as [->|Hne].
  - rewrite lookup_alter_eq. by destruct (heap w !! r).
  - by rewrite lookup_alter_ne.
Qed.

(** With no timer pending the extension does nothing: whatever time
    passes and whatever identifiers the host assigns, the cache, the
    widgets and the log stay as they are. *)
Lemma idle_steps v app w w2 :
  timers w = [] ->
  steps v app w w2 ->
  timers w2 = [] /\ nodeIdMap w2 = nodeIdMap w /\ effects w2 = effects w
  /\ forall r, widgets_of w2 r = widgets_of w r.
Proof.
  intros Hts Hsteps. unfold steps in Hsteps. revert w2 Hsteps.
  apply rtc_ind_r; [done|]. intros y z _ Hyz (Ht & Hm & He & Hw).
  inversion Hyz as [dt y'|r id y'|i t y' z' res Hi Hdue Hrun]; subst; simpl.
  - done.
  - repeat split; try done. intros r'. by rewrite widgets_of_set_id.
  - by rewrite Ht in Hi.
Qed.

(** Against C4 as stated: when the host's serialization raises, the
    handler catches the error before it schedules anything, and
    [app.queuePrompt] is never called. *)
Lemma C4_counterexample :
  let w1 := (queue_handler First Demo.broken_app Demo.page).2 in
  (queue_handler First Demo.broken_app Demo.page).1 = Ok tt
  /\ timers w1 = []
  /\ forall w2, steps First Demo.broken_app w1 w2 -> queue_calls (effects w2) = [].
Proof.
  split; [reflexivity|]. split; [reflexivity|].
  intros w2 Hsteps.
  apply idle_steps in Hsteps as (_ & _ & He & _); [|reflexivity].
  rewrite He. reflexivity.
Qed.

(** ** Deferred registration *)

(** Creation of a node whose identifier is not valid yet: nothing is
    registered or attached; one check is scheduled for the next tick, unless
    the handler installed before raises, which ends the override. *)
Lemma onNodeCreated_invalid v prev this args w n :
  heap w !! this = Some n ->
  valid_id (n_id n) = false ->
  exists res w1,
    onNodeCreated v prev this args w = (res, w1)
    /\ nodeIdMap w1 = nodeIdMap w /\ heap w1 = heap w
    /\ timers w1
       = (if raises prev then timers w else timers w ++ [retry_timer w this]).
Proof.
  intros Hn Hv.
  assert (Hc : negb (truthy (n_id n)) || strict_eq (n_id n) (VNum (-1)) = true).
  { unfold valid_id in Hv. destruct (truthy (n_id n)), (strict_eq (n_id n) _); done. }
  destruct v; simpl.
  - unfold V1.onNodeCreated. exec_simpl.
    destruct prev as [f|]; simpl; [destruct (hf_raises f); simpl|];
      try (eexists _, _; done);
      rewrite Hn; simpl; rewrite Hc; simpl; eexists _, _; done.
  - unfold V2.onNodeCreated. exec_simpl.
    destruct prev as [f|]; simpl; [destruct (hf_raises f); simpl|];
      try (eexists _, _; done);
      rewrite Hn; simpl; rewrite Hc; simpl; eexists _, _; done.
Qed.

Lemma map_get_set_other k k' r this m :
  r <> this ->
  map_get k (map_set k' r m) = Some this -> map_get k m = Some this.
Proof.
  intros Hne. induction m as [|[k0 r0] m IH]; simpl.
  - destruct (same_value_zero k' k); [by intros [= ?]|done].
  - destruct (same_value_zero k0 k') eqn:E1; simpl;
      destruct (same_value_zero k0 k) eqn:E2; try done.
    by intros [= ?].
Qed.

(** What remains when the element at a position of [l ++ [a]] is taken
    out is [l] only if that element is [a]. *)
Lemma delete_snoc_eq {A} (l : list A) (a : A) i x :
  (l ++ [a]) !! i = Some x -> delete i (l ++ [a]) = l -> x = a.
Proof.
  assert (Hsnoc : forall (l : list A) b, l ++ [a] = b :: l -> a = b).
  { clear. induction l as [|c l IH]; intros b; simpl.
    - by intros [= ->].
    - intros [= -> H]. by apply IH. }
  revert i. induction l as [|b l IH]; intros [|i]; simpl.
  - by intros [= ->].
  - done.
  - intros [= <-] H. symmetry. by apply (Hsnoc l).
  - intros Hi [= H]. by apply (IH i).
Qed.

(** One step of the event loop registers a node, or touches its widgets,
    only by running a check of that node which finds a valid identifier. *)
Lemma step_registers v app this y z :
  step v app y z ->
  ((forall k, map_get k (nodeIdMap z) = Some this ->
              map_get k (nodeIdMap y) = Some this)
   /\ widgets_of z this = widgets_of y this)
  \/ (exists i t n2,
        timers y !! i = Some t /\ t_task t = RetryInit this /\ t_due t <= now y
        /\ heap y !! this = Some n2 /\ valid_id (n_id n2) = true
        /\ nodeIdMap z = map_set (n_id n2) this (nodeIdMap y)
        /\ timers z = delete i (timers y)).
Proof.
  intros Hyz.
  inversion Hyz as [dt y'|r id y'|i t y' z' res Hi Hdue Hrun]; subst.
  - by left.
  - left. split; [done|]. apply widgets_of_set_id.
  - destruct t as [due [|r]]; simpl in Hrun, Hdue.
    + destruct (queue_task_store v app (with_timers (delete i (timers y)) y))
        as (_ & Hh & Hm & _).
      rewrite Hrun in Hh, Hm. simpl in Hh, Hm.
      left. unfold widgets_of. by rewrite Hm, Hh.
    + destruct (retry_init_cases v r (with_timers (delete i (timers y)) y))
        as (res' & w' & E & Ht & _ & H).
      rewrite E in Hrun. injection Hrun as _ <-. simpl in Ht, H.
      destruct H as [(Hm & Hh & _)|(n2 & Hn2 & Hv2 & Hm)].
      * left. unfold widgets_of. by rewrite Hm, Hh.
      * destruct (decide (r = this)) as [->|Hne].
        -- right. exists i, {| t_due := due; t_task := RetryInit this |}, n2. done.
        -- left. split.
           ++ intros k. rewrite Hm. by apply map_get_set_other.
           ++ pose proof (proj2 (retry_init_others v r
                                   (with_timers (delete i (timers y)) y))
                            this (not_eq_sym Hne)) as Hh.
              rewrite E in Hh. simpl in Hh. unfold widgets_of. by rewrite Hh.
Qed.

(** Firing a timer takes it out of the list and adds none. *)
Lemma run_task_timers v app t w : timers (run_task v app t w).2 = timers w.
Proof.
  destruct t as [|this]; simpl.
  - apply queue_task_store.
  - destruct (retry_init_cases v this w) as (res & w' & E & Ht & _).
    by rewrite E.
Qed.

(** C5: a node created while its identifier is not valid (falsy, or -1)
    is neither registered nor given the status widget at creation; one
    check is scheduled for the next tick, behind the timers already pending
    (none when the handler installed before raises).  A check that still
    finds no valid identifier changes nothing and schedules nothing; one
    that finds a valid identifier registers the node under it.  A step of
    the event loop registers the node, or touches its widgets, only by
    running a check of the node which finds a valid identifier.  In every
    run of the event loop from the creation no timer is added; as long as
    no timer has fired, the cache and the node's widgets are those before
    the creation; and when the check has fired and the timers of before the
    creation are all pending, either they still are those, or the node is
    registered under a valid identifier.  Once no timer is pending nothing
    changes any more, whatever identifier the host assigns later: there is
    no second check. *)
Theorem C5_deferred_registration v app prev this args w n :
  heap w !! this = Some n ->
  valid_id (n_id n) = false ->
  exists res w1,
    onNodeCreated v prev this args w = (res, w1)
    /\ nodeIdMap w1 = nodeIdMap w /\ heap w1 = heap w
    /\ timers w1
       = (if raises prev then timers w else timers w ++ [retry_timer w this])
    /\ (forall w2,
          (forall n2, heap w2 !! this = Some n2 -> valid_id (n_id n2) = false) ->
          exists res2 w3,
            retry_init v this w2 = (res2, w3)
            /\ nodeIdMap w3 = nodeIdMap w2 /\ heap w3 = heap w2
            /\ timers w3 = timers w2)
    /\ (forall w2 n2,
          heap w2 !! this = Some n2 -> valid_id (n_id n2) = true ->
          exists res2 w3,
            retry_init v this w2 = (res2, w3)
            /\ nodeIdMap w3 = map_set (n_id n2) this (nodeIdMap w2)
            /\ timers w3 = timers w2)
    /\ (forall y z, step v app y z ->
          ((forall k, map_get k (nodeIdMap z) = Some this ->
                      map_get k (nodeIdMap y) = Some this)
           /\ widgets_of z this = widgets_of y this)
          \/ (exists i t n2,
                timers y !! i = Some t /\ t_task t = RetryInit this
                /\ t_due t <= now y
                /\ heap y !! this = Some n2 /\ valid_id (n_id n2) = true
                /\ nodeIdMap z = map_set (n_id n2) this (nodeIdMap y)
                /\ timers z = delete i (timers y)))
    /\ (forall w2, steps v app w1 w2 ->
          timers w2 `sublist_of` timers w1
          /\ (timers w2 = timers w1 ->
              nodeIdMap w2 = nodeIdMap w
              /\ widgets_of w2 this = widgets_of w this)
          /\ (timers w2 = timers w ->
              (nodeIdMap w2 = nodeIdMap w
               /\ widgets_of w2 this = widgets_of w this)
              \/ (exists id, valid_id id = true
                    /\ nodeIdMap w2 = map_set id this (nodeIdMap w))))
    /\ (forall w2 w3,
          steps v app w1 w2 -> timers w2 = [] -> steps v app w2 w3 ->
          timers w3 = [] /\ nodeIdMap w3 = nodeIdMap w2
          /\ widgets_of w3 this = widgets_of w2 this).
Proof.
  intros Hn Hv.
  destruct (onNodeCreated_invalid v prev this args w n Hn Hv)
    as (res & w1 & E & Hm1 & Hh1 & Ht1).
  exists res, w1.
  split; [exact E|]. split; [exact Hm1|]. split; [exact Hh1|].
  split; [exact Ht1|]. split; [|split; [|split; [|split]]].
  - intros w2 Hinv.
    destruct (retry_init_cases v this w2) as (res2 & w3 & E3 & Ht3 & _ & [H|H]).
    + destruct H as (Hm3 & Hh3 & _). exists res2, w3. done.
    + destruct H as (n2 & Hn2 & Hv2 & _). rewrite (Hinv n2 Hn2) in Hv2. done.
  - intros w2 n2 Hn2 Hv2.
    destruct (retry_init_cases v this w2) as (res2 & w3 & E3 & Ht3 & _ & [H|H]).
    + destruct H as (_ & _ & Hinv). rewrite (Hinv n2 Hn2) in Hv2. done.
    + destruct H as (n3 & Hn3 & _ & Hm3). rewrite Hn2 in Hn3.
      injection Hn3 as <-. exists res2, w3. done.
  - intros y z. apply step_registers.
  - intros w2 Hsteps.
    assert (Inv :
      timers w2 `sublist_of` timers w1
      /\ ((timers w2 = timers w1 /\ nodeIdMap w2 = nodeIdMap w
           /\ widgets_of w2 this = widgets_of w this)
          \/ (exists i x,
                timers w1 !! i = Some x /\ timers w2 = delete i (timers w1)
                /\ (t_task x = RetryInit this ->
                    (nodeIdMap w2 = nodeIdMap w
                     /\ widgets_of w2 this = widgets_of w this)
                    \/ (exists id, valid_id id = true
                          /\ nodeIdMap w2 = map_set id this (nodeIdMap w))))
          \/ List.length (timers w2) + 2 <= List.length (timers w1))).
    { unfold steps in Hsteps. revert w2 Hsteps. apply rtc_ind_r.
      { split; [done|]. left. unfold widgets_of. by rewrite Hm1, Hh1. }
      intros y z _ Hyz [Hsub IH].
      inversion Hyz as [dt y'|r id y'|i t y' z' res' Hi Hdue Hrun]; subst.
      - split; [exact Hsub|exact IH].
      - split; [exact Hsub|]. simpl. rewrite widgets_of_set_id. exact IH.
      - pose proof (run_task_timers v app (t_task t)
                      (with_timers (delete i (timers y)) y)) as Ht.
        rewrite Hrun in Ht. simpl in Ht.
        split; [rewrite Ht; by etrans; [apply sublist_delete|]|].
        destruct IH as [(Hty & Hmy & Hwy)|[(j & x & Hj & Hty & _)|Hlen]].
        + right. left. exists i, t. rewrite <- Hty. split; [exact Hi|].
          split; [exact Ht|]. intros Htask.
          destruct t as [due task]. simpl in Htask. subst task. simpl in Hrun.
          destruct (retry_init_cases v this (with_timers (delete i (timers y)) y))
            as (res'' & w3 & E3 & _ & _ & H).
          rewrite E3 in Hrun. injection Hrun as _ <-. simpl in H.
          destruct H as [(Hm3 & Hh3 & _)|(n3 & _ & Hv3 & Hm3)].
          * left. unfold widgets_of in *. by rewrite Hm3, Hh3.
          * right. exists (n_id n3). by rewrite Hm3, Hmy.
        + right. right. rewrite Ht.
          assert (H1 : List.length (timers y) = List.length (timers w1) - 1).
          { rewrite Hty. apply length_delete. by eexists. }
          assert (H2 : List.length (delete i (timers y))
                       = List.length (timers y) - 1).
          { apply length_delete. by eexists. }
          apply lookup_lt_Some in Hi. apply lookup_lt_Some in Hj. lia.
        + right. right. rewrite Ht.
          assert (H2 : List.length (delete i (timers y))
                       = List.length (timers y) - 1).
          { apply length_delete. by eexists. }
          lia. }
    destruct Inv as [Hsub Inv]. split; [exact Hsub|].
    assert (Hsame : timers w2 = timers w1 ->
                    nodeIdMap w2 = nodeIdMap w
                    /\ widgets_of w2 this = widgets_of w this).
    { intros Heq. destruct Inv as [(_ & Hm & Hw)|[(i & x & Hi & Hd & _)|Hlen]].
      - done.
      - assert (H1 : List.length (timers w2) = List.length (timers w1) - 1).
        { rewrite Hd. apply length_delete. by eexists. }
        apply lookup_lt_Some in Hi. rewrite Heq in H1. lia.
      - rewrite Heq in Hlen. lia. }
    split; [exact Hsame|].
    intros Heq. rewrite Ht1 in *. destruct (raises prev).
    { left. by apply Hsame. }
    destruct Inv as [(Hty & _)|[(i & x & Hi & Hd & H)|Hlen]].
    + rewrite Heq in Hty. apply (f_equal List.length) in Hty.
      rewrite length_app in Hty. simpl in Hty. lia.
    + apply H. rewrite Heq in Hd.
      by rewrite (delete_snoc_eq _ _ _ _ Hi (eq_sym Hd)).
    + rewrite Heq, length_app in Hlen. simpl in Hlen. lia.
  - intros w2 w3 _ Hts Hsteps.
    destruct (idle_steps v app w2 w3 Hts Hsteps) as (H1 & H2 & _ & H4). done.
Qed.

(** The node not numbered yet is created while a queue event and the
    check of another node are pending, and its own check finds it still
    numbered -1. *)
Lemma C5_witness :
  (heap Demo.busy !! 3 = Some Demo.fresh
   /\ valid_id (n_id Demo.fresh) = false)
  /\ exists w1,
       onNodeCreated First (Some Demo.previous) 3 [] Demo.busy = (Ok tt, w1)
       /\ nodeIdMap w1 = nodeIdMap Demo.busy /\ heap w1 = heap Demo.busy
       /\ timers w1
          = [ {| t_due := 100; t_task := QueuePromptTask |};
              {| t_due := 0; t_task := RetryInit 2 |};
              {| t_due := 10; t_task := RetryInit 3 |} ]
       /\ (exists res2 w3,
             retry_init First 3 w1 = (res2, w3)
             /\ nodeIdMap w3 = nodeIdMap w1 /\ heap w3 = heap w1
             /\ timers w3 = timers w1)
       /\ (forall w2, steps First Demo.app w1 w2 ->
             timers w2 `sublist_of` timers w1
             /\ (timers w2 = timers w1 ->
                 nodeIdMap w2 = [(VNum 7, 1)] /\ widgets_of w2 3 = None)
             /\ (timers w2 = timers Demo.busy ->
                 (nodeIdMap w2 = [(VNum 7, 1)] /\ widgets_of w2 3 = None)
                 \/ (exists id, valid_id id = true
                       /\ nodeIdMap w2 = map_set id 3 [(VNum 7, 1)]))).
Proof.
  split; [split; reflexivity|].
  destruct (C5_deferred_registration First Demo.app (Some Demo.previous) 3 []
              Demo.busy Demo.fresh eq_refl eq_refl)
    as (res & w1 & E & Hm & Hh & Ht & Hinvalid & _ & _ & Hrun & _).
  assert (Hres : res = Ok tt).
  { change res with (res, w1).1. rewrite <- E. reflexivity. }
  subst res.
  exists w1. split; [exact E|]. split; [exact Hm|]. split; [exact Hh|].
  split; [exact Ht|]. split; [|exact Hrun].
  apply Hinvalid. rewrite Hh. intros n2 [= <-]. reflexivity.
Defined.

(** ** The buttons *)

(** What the first copy's [addCustomWidgets] would ask for, were it
    called: three buttons; jump-to-start writes 0 to the widget named
    [start_index], jump-to-end reads the total from output slot 2 (3 in the
    image class), 0 when there is none, and writes [total - 1] when the
    total is positive. *)
Lemma addCustomWidgets_buttons c :
  map b_action (addCustomWidgets c) = [TriggerReset; ToStart; ToEnd (total_slot c)]
  /\ total_slot TextQueueProcessorNode = 2
  /\ total_slot ImageQueueProcessorNode = 3
  /\ (forall this, n_outputs this = None -> press (ToEnd (total_slot c)) this = Ok this)
  /\ press ToStart Demo.node7
     = Ok (set_widgets (Some [Demo.text; set_value (VNum 0) Demo.start_index]) Demo.node7).
Proof.
  repeat split; try reflexivity.
  intros this H. unfold press, total_of. by rewrite H.
Qed.

(** [Object.assign] takes nothing from the prototype of a class: none of
    its properties is enumerable. *)
Lemma Object_assign_class target c :
  Object_assign target (class_prototype c) = target.
Proof. reflexivity. Qed.

Lemma push_status_buttons w this n r :
  heap w !! this = Some n ->
  buttons_of (with_heap (<[this := push_widget (status_widget this) n]> (heap w)) w) r
  = buttons_of w r.
Proof.
  intros Hn. unfold buttons_of, widgets_of. simpl.
  destruct (decide (r = this)) as [->|Hne].
  - rewrite lookup_insert_eq, Hn. simpl.
    rewrite filter_app. simpl. rewrite filter_cons_False, filter_nil; [|done].
    by rewrite app_nil_r.
  - by rewrite lookup_insert_ne.
Qed.

(** The override adds no button to any node. *)
Lemma onNodeCreated_buttons v prev this args w res w' r :
  onNodeCreated v prev this args w = (res, w') ->
  buttons_of w' r = buttons_of w r.
Proof.
  destruct v; simpl.
  - unfold V1.onNodeCreated, V1.attach_status. exec_simpl.
    destruct prev as [f|]; simpl; [destruct (hf_raises f); simpl|];
      try (intros [= _ <-]; done);
      (destruct (heap w !! this) as [n|] eqn:Hn; simpl;
         [|intros [= _ <-]; done]);
      (destruct (negb (truthy (n_id n)) || strict_eq (n_id n) (VNum (-1))); simpl;
         [intros [= _ <-]; done|]);
      rewrite Hn; simpl; destruct (n_addWidget n); simpl; intros [= _ <-];
      try done; by apply (push_status_buttons (with_map _ (with_effects _ w))).
  - unfold V2.onNodeCreated, V2.attach_status. exec_simpl.
    destruct prev as [f|]; simpl; [destruct (hf_raises f); simpl|];
      try (intros [= _ <-]; done);
      (destruct (heap w !! this) as [n|] eqn:Hn; simpl;
         [|intros [= _ <-]; done]);
      (destruct (negb (truthy (n_id n)) || strict_eq (n_id n) (VNum (-1))); simpl;
         [intros [= _ <-]; done|]);
      rewrite Hn; simpl; destruct (n_addWidget n); simpl; intros [= _ <-];
      try done; by apply (push_status_buttons (with_map _ (with_effects _ w))).
Qed.

Lemma construct_buttons v proto this w r :
  buttons_of (construct v proto this w).2 r = buttons_of w r.
Proof.
  unfold construct. destruct (proto_get "onNodeCreated" proto) as [[f|prev| | | |]|];
    try done.
  - exec_simpl. by destruct (hf_raises f).
  - destruct (onNodeCreated v prev this [] w) as [res w'] eqn:E.
    simpl. eapply onNodeCreated_buttons. exact E.
Qed.

(** C8, on the code: the extension [rgthree.TextBatch] hands the prototype
    of a class to [Object.assign], which copies nothing from it, so the node
    type keeps the prototype it had; constructing a node of any node type,
    after both extensions have seen it, leaves the node with the buttons it
    had before, that is with none of the three.  On the demo page: after
    registration the prototype of [TextQueueProcessor] has the two overrides
    and neither [addCustomWidgets] nor [triggerReset], and the node built
    from it has no widget at all, at construction and after the deferred
    check. *)
Theorem C8_buttons_never_attached :
  (forall target c, Object_assign target (class_prototype c) = target)
  /\ (forall proto,
        rgthree_beforeRegisterNodeDef First "TextQueueProcessor" proto = Ok proto
        /\ rgthree_beforeRegisterNodeDef First "ImageQueueProcessor" proto = Ok proto
        /\ rgthree_beforeRegisterNodeDef Second "TextQueueProcessor" proto = Ok proto)
  /\ (forall v name methods,
        registered v name (host_prototype methods)
        = textbatch_beforeRegisterNodeDef name (host_prototype methods))
  /\ (forall v name methods this w r,
        buttons_of
          (construct v (registered v name (host_prototype methods)) this w).2 r
        = buttons_of w r)
  /\ (proto_get "onNodeCreated" TextQueueProcessor_prototype
      = Some (CreatedOverride (Some Demo.previous))
      /\ proto_get "onRemoved" TextQueueProcessor_prototype
         = Some (RemovedOverride None)
      /\ proto_get "addCustomWidgets" TextQueueProcessor_prototype = None
      /\ proto_get "triggerReset" TextQueueProcessor_prototype = None
      /\ widgets_of TextQueueProcessor_created 3 = None
      /\ timers TextQueueProcessor_created = [{| t_due := 0; t_task := RetryInit 3 |}]
      /\ widgets_of
           (retry_init First 3 (with_timers [] TextQueueProcessor_created)).2 3
         = None).
Proof.
  split; [intros; apply Object_assign_class|].
  split; [done|].
  split.
  { intros v name methods. unfold registered, rgthree_beforeRegisterNodeDef.
    destruct (String.eqb name "TextQueueProcessor"); [done|].
    destruct (String.eqb name "ImageQueueProcessor"); [|done].
    by destruct v. }
  split; [intros; apply construct_buttons|].
  repeat split; vm_compute; reflexivity.
Qed.

(** * Further properties of the code *)

(** ** The identifier cache as a map *)

Lemma same_value_zero_spec a b :
  same_value_zero a b = true <-> a = b.
Proof. unfold same_value_zero. apply bool_decide_eq_true. Qed.

Lemma same_value_zero_ne a b : a ≠ b -> same_value_zero a b = false.
Proof. intros H. unfold same_value_zero. by apply bool_decide_eq_false_2. Qed.

Lemma map_get_set_eq k r m : map_get k (map_set k r m) = Some r.
Proof.
  induction m as [|[k' r'] m IH]; simpl.
  - by rewrite (proj2 (same_value_zero_spec k k)).
  - destruct (same_value_zero k' k) eqn:E; simpl; by rewrite E.
Qed.

Lemma map_get_set_ne k k' r m :
  k' ≠ k -> map_get k' (map_set k r m) = map_get k' m.
Proof.
  intros Hne. induction m as [|[k0 r0] m IH]; simpl.
  - by rewrite same_value_zero_ne.
  - destruct (same_value_zero k0 k) eqn:E; simpl.
    + apply same_value_zero_spec in E as ->. by rewrite same_value_zero_ne.
    + by rewrite IH.
Qed.

Lemma map_get_delete_ne k k' m :
  k' ≠ k -> map_get k' (map_delete k m) = map_get k' m.
Proof.
  intros Hne. induction m as [|[k0 r0] m IH]; simpl; [done|].
  destruct (same_value_zero k0 k) eqn:E; simpl.
  - apply same_value_zero_spec in E as ->. by rewrite same_value_zero_ne.
  - by rewrite IH.
Qed.

Lemma map_get_None k m : map_get k m = None <-> k ∉ keys m.
Proof.
  unfold keys. induction m as [|[k0 r0] m IH]; simpl.
  - split; [intros _; apply not_elem_of_nil|done].
  - rewrite not_elem_of_cons. destruct (same_value_zero k0 k) eqn:E.
    + apply same_value_zero_spec in E as ->. split; [done|]. by intros [? _].
    + rewrite IH. split; [|by intros [_ ?]]. intros H. split; [|done].
      intros ->. by rewrite (proj2 (same_value_zero_spec k0 k0)) in E.
Qed.

Lemma keys_map_delete k m : keys (map_delete k m) ⊆ keys m.
Proof.
  unfold keys. induction m as [|[k0 r0] m IH]; simpl; [done|].
  destruct (same_value_zero k0 k); simpl.
  - intros x Hx. by right.
  - intros x Hx. apply elem_of_cons in Hx as [->|Hx]; [left|right; by apply IH].
Qed.

Lemma map_get_delete_eq k m :
  NoDup (keys m) -> map_get k (map_delete k m) = None.
Proof.
  unfold keys. induction m as [|[k0 r0] m IH]; simpl; [done|].
  intros Hnd. apply NoDup_cons in Hnd as [Hk0 Hnd].
  destruct (same_value_zero k0 k) eqn:E; simpl.
  - apply same_value_zero_spec in E as ->. by apply map_get_None.
  - rewrite E. by apply IH.
Qed.

Lemma map_delete_set_absent k r m :
  map_get k m = None -> map_delete k (map_set k r m) = m.
Proof.
  induction m as [|[k0 r0] m IH]; simpl.
  - by rewrite (proj2 (same_value_zero_spec k k)).
  - destruct (same_value_zero k0 k) eqn:E; simpl; [done|].
    intros H. by rewrite E, IH.
Qed.

Lemma keys_map_set k r m :
  keys (map_set k r m) = if decide (k ∈ keys m) then keys m else keys m ++ [k].
Proof.
  unfold keys. induction m as [|[k0 r0] m IH].
  - destruct (decide (k ∈ [].*1)) as [H|H]; [by apply elem_of_nil in H|done].
  - cbn [map_set]. destruct (same_value_zero k0 k) eqn:E.
    + apply same_value_zero_spec in E as ->.
      destruct (decide (k ∈ ((k, r0) :: m).*1)) as [H|H]; [done|].
      exfalso. apply H. left.
    + rewrite !fmap_cons, IH. cbn [fst].
      destruct (decide (k ∈ m.*1)) as [Hin|Hin];
        destruct (decide (k ∈ k0 :: m.*1)) as [Hin'|Hin']; try done.
      * exfalso. apply Hin'. by right.
      * apply elem_of_cons in Hin' as [->|?]; [|done].
        by rewrite (proj2 (same_value_zero_spec k0 k0)) in E.
Qed.

Lemma cache_ok_set k r m :
  valid_id k = true -> cache_ok m -> cache_ok (map_set k r m).
Proof.
  intros Hv [Hnd Hall]. unfold cache_ok. rewrite keys_map_set.
  destruct (decide (k ∈ keys m)); [done|]. split.
  - apply NoDup_app. split; [done|]. split; [|apply NoDup_singleton].
    intros x Hx Hx'. apply list_elem_of_singleton in Hx'. by subst.
  - apply Forall_app. split; [done|]. by apply Forall_singleton.
Qed.

Lemma NoDup_keys_delete k m : NoDup (keys m) -> NoDup (keys (map_delete k m)).
Proof.
  unfold keys. induction m as [|[k0 r0] m IH]; simpl; [done|].
  intros Hnd. apply NoDup_cons in Hnd as [Hk0 Hnd].
  destruct (same_value_zero k0 k); simpl; [done|].
  apply NoDup_cons. split; [|by apply IH].
  intros Hin. apply Hk0. by apply (keys_map_delete k m).
Qed.

Lemma cache_ok_delete k m : cache_ok m -> cache_ok (map_delete k m).
Proof.
  intros [Hnd Hall]. split; [by apply NoDup_keys_delete|].
  rewrite Forall_forall in *. intros x Hx. apply Hall.
  by apply (keys_map_delete k m).
Qed.

Lemma cache_step_ok w w' :
  cache_step w w' -> cache_ok (nodeIdMap w) -> cache_ok (nodeIdMap w').
Proof.
  intros [->|[(k & r & Hv & ->)|(k & ->)]] Hok; [done| |].
  - by apply cache_ok_set.
  - by apply cache_ok_delete.
Qed.

(** ** Frames compose *)

Section Keeps.
Context (P : World -> World -> Prop).
Context (P_refl : forall w, P w w).
Context (P_trans : forall w1 w2 w3, P w1 w2 -> P w2 w3 -> P w1 w3).

Lemma keeps_ret {A} (a : A) : keeps P (mret a).
Proof. intros w. apply P_refl. Qed.

Lemma keeps_throw {A} (e : JsError) : keeps P (@throw A e).
Proof. intros w. apply P_refl. Qed.

Lemma keeps_bind {A B} (m : Exec A) (k : A -> Exec B) :
  keeps P m -> (forall a, keeps P (k a)) -> keeps P (m ≫= k).
Proof.
  intros Hm Hk w. rewrite bind_run. specialize (Hm w).
  destruct (m w) as [[a|e] w1]; simpl in *; [|done].
  eapply P_trans; [exact Hm|apply Hk].
Qed.

Lemma keeps_try_catch {A} (body : Exec A) (handler : JsError -> Exec A) :
  keeps P body -> (forall e, keeps P (handler e)) -> keeps P (try_catch body handler).
Proof.
  intros Hm Hk w. rewrite try_catch_run. specialize (Hm w).
  destruct (body w) as [[a|e] w1]; simpl in *; [done|].
  eapply P_trans; [exact Hm|apply Hk].
Qed.

Lemma keeps_require {A} what (o : option A) : keeps P (require what o).
Proof. destruct o; [apply keeps_ret|apply keeps_throw]. Qed.

Lemma keeps_read_node r : keeps P (read_node r).
Proof. intros w. unfold read_node. destruct (heap w !! r); apply P_refl. Qed.

Lemma keeps_map_get_m k : keeps P (map_get_m k).
Proof. intros w. apply P_refl. Qed.

Lemma keeps_id_of r : keeps P (V2.id_of r).
Proof. intros w. apply P_refl. Qed.

End Keeps.

(** One structural step of a frame proof, for a relation with the
    reflexivity proof [R] and the transitivity proof [T]; [leaf] closes the
    primitives. *)
Ltac keeps_step R T leaf :=
  lazymatch goal with
  | |- keeps _ (mret _) => apply (keeps_ret _ R)
  | |- keeps _ (throw _) => apply (keeps_throw _ R)
  | |- keeps _ (require _ _) => apply (keeps_require _ R)
  | |- keeps _ (read_node _) => apply (keeps_read_node _ R)
  | |- keeps _ (map_get_m _) => apply (keeps_map_get_m _ R)
  | |- keeps _ (V2.id_of _) => apply (keeps_id_of _ R)
  | |- keeps _ (_ ≫= _) => apply (keeps_bind _ T); [|intros ?]
  | |- keeps _ (try_catch _ _) => apply (keeps_try_catch _ T); [|intros ?]
  | |- keeps _ (let _ := _ in _) => cbv zeta
  | |- keeps _ (match ?x with _ => _ end) => destruct x
  | |- keeps _ _ => leaf
  end.

Lemma same_cache_refl w : same_cache w w.
Proof. done. Qed.

Lemma same_cache_trans w1 w2 w3 :
  same_cache w1 w2 -> same_cache w2 w3 -> same_cache w1 w3.
Proof. unfold same_cache. intros (-> & -> & -> & ->) (-> & -> & -> & ->). done. Qed.

Lemma same_nodes_refl w : same_nodes w w.
Proof. done. Qed.

Lemma same_nodes_trans w1 w2 w3 :
  same_nodes w1 w2 -> same_nodes w2 w3 -> same_nodes w1 w3.
Proof.
  unfold same_nodes. intros (-> & -> & -> & -> & ->) (-> & -> & -> & -> & ->). done.
Qed.

Lemma resolve_same v app k w : (resolve v app k w).2 = w.
Proof. by rewrite (resolve_frame v app k w w). Qed.

Ltac same_cache_leaf :=
  first
    [ apply (keeps_ret _ same_cache_refl)
    | intros ?w; rewrite (resolve_same First); apply same_cache_refl
    | intros ?w; rewrite (resolve_same Second); apply same_cache_refl
    | intros ?w; unfold same_cache; exec_simpl; repeat case_match; simpl;
      rewrite ?queue_calls_app; simpl; rewrite ?app_nil_r; done ].

Lemma invoke_same_cache cb v : keeps same_cache (invoke cb v).
Proof.
  destruct cb; unfold invoke, call_host;
    repeat keeps_step same_cache_refl same_cache_trans same_cache_leaf.
Qed.

Lemma assign_and_notify_same_cache r i wd data :
  keeps same_cache (assign_and_notify r i wd data).
Proof.
  unfold assign_and_notify.
  repeat keeps_step same_cache_refl same_cache_trans
    ltac:(first [apply invoke_same_cache | same_cache_leaf]).
Qed.

Lemma feedback_same_cache v app event :
  keeps same_cache (feedback_handler v app event).
Proof.
  destruct v; simpl.
  - unfold V1.feedback_handler, V1.feedback_body.
    change V1.resolve with (resolve First).
    repeat keeps_step same_cache_refl same_cache_trans
      ltac:(first [apply assign_and_notify_same_cache | same_cache_leaf]).
  - unfold V2.feedback_handler, V2.feedback_body.
    change V2.resolve with (resolve Second).
    repeat keeps_step same_cache_refl same_cache_trans
      ltac:(first [apply assign_and_notify_same_cache | same_cache_leaf]).
Qed.

(** X1: the feedback handler, on every event and on every path (payload
    rejected, node or widget not found, error caught, widget written),
    leaves the identifier cache, the timers and the clock as they are, and
    makes no call to [app.queuePrompt]. *)
Theorem feedback_keeps_cache v app event w :
  nodeIdMap (feedback_handler v app event w).2 = nodeIdMap w
  /\ timers (feedback_handler v app event w).2 = timers w
  /\ now (feedback_handler v app event w).2 = now w
  /\ queue_calls (effects (feedback_handler v app event w).2)
     = queue_calls (effects w).
Proof. apply feedback_same_cache. Qed.

(** ** The queue trigger, on every host *)

Ltac same_nodes_leaf :=
  first
    [ apply (keeps_ret _ same_nodes_refl)
    | intros ?w; unfold same_nodes; exec_simpl; repeat case_match; simpl;
      rewrite ?queue_calls_app, ?invocations_app; simpl; rewrite ?app_nil_r; done ].

Lemma queue_handler_same_nodes v app : keeps same_nodes (queue_handler v app).
Proof.
  destruct v; simpl.
  - unfold V1.queue_handler, V1.queue_body, call_host, read_member.
    repeat keeps_step same_nodes_refl same_nodes_trans same_nodes_leaf.
  - unfold V2.queue_handler, V2.queue_body, call_host, read_member.
    repeat keeps_step same_nodes_refl same_nodes_trans same_nodes_leaf.
Qed.

(** X2: whatever the host, the queue handler writes no node and no cache
    entry, calls neither a widget callback nor [app.queuePrompt] itself, and
    either schedules exactly one closure, 100 time units ahead, or (when its
    synchronous part raised) none. *)
Theorem queue_handler_only_schedules v app w :
  same_nodes w (queue_handler v app w).2
  /\ (timers (queue_handler v app w).2 = timers w ++ [queue_timer w]
      \/ (timers (queue_handler v app w).2 = timers w
          /\ exists e, (queue_body v app w).1 = Raise e)).
Proof.
  split; [apply queue_handler_same_nodes|].
  rewrite queue_handler_run.
  assert (H : match queue_body v app w with
              | (Ok _, w1) => timers w1 = timers w ++ [queue_timer w]
              | (Raise _, w1) => timers w1 = timers w
              end).
  { destruct v; simpl; [unfold V1.queue_body|unfold V2.queue_body]; exec_simpl.
    - destruct (app_isProcessing app); simpl;
        destruct (app_graph app) as [g|]; simpl; eauto;
        destruct (g_serialize g) as [s|]; simpl; eauto;
        destruct (hf_raises s); simpl; eauto.
    - destruct (app_isProcessing app); simpl;
        destruct (option_bind _ _ _ (app_graph app)) as [s|]; simpl; eauto;
        destruct (hf_raises s); simpl; eauto. }
  destruct (queue_body v app w) as [[[]|e] w1]; simpl; [by left|].
  right. split; [|by eexists]. by destruct (nullish e).
Qed.

Lemma same_store_refl w : same_store w w.
Proof. done. Qed.

Lemma same_store_trans w1 w2 w3 :
  same_store w1 w2 -> same_store w2 w3 -> same_store w1 w3.
Proof. unfold same_store. intros (-> & -> & -> & ->) (-> & -> & -> & ->). done. Qed.

Ltac same_store_leaf :=
  first
    [ apply (keeps_ret _ same_store_refl)
    | intros ?w; unfold same_store; exec_simpl; repeat case_match; simpl; done ].

(** The scheduled closure leaves the nodes, the cache, the timers and the
    clock alone, on every host. *)
Lemma queue_task_same_store v app : keeps same_store (queue_task v app).
Proof.
  destruct v; simpl.
  - unfold V1.queue_task, V1.queue_task_body, call_host.
    repeat keeps_step same_store_refl same_store_trans same_store_leaf.
  - unfold V2.queue_task, V2.queue_task_body, call_host.
    repeat keeps_step same_store_refl same_store_trans same_store_leaf.
Qed.

Lemma queue_task_without_queuePrompt v app w :
  app_queuePrompt app = None ->
  queue_calls (effects (queue_task v app w).2) = queue_calls (effects w).
Proof.
  intros Hq. destruct v; simpl.
  - unfold V1.queue_task, V1.queue_task_body. rewrite Hq. exec_simpl.
    rewrite !queue_calls_app. simpl. by rewrite !app_nil_r.
  - unfold V2.queue_task, V2.queue_task_body. rewrite Hq. exec_simpl.
    rewrite !queue_calls_app. simpl. by rewrite !app_nil_r.
Qed.

(** X3: on a host without [app.queuePrompt] no run of the event loop ever
    makes the call; when the scheduled closure runs, the first copy logs an
    error, the second logs that the prompt was queued. *)
Theorem no_queuePrompt_no_call v app w :
  app_queuePrompt app = None ->
  (forall w2, steps v app w w2 -> queue_calls (effects w2) = queue_calls (effects w))
  /\ queue_task First app w
     = (Ok tt, with_effects (effects w ++ [Console LLog "Executing queued prompt";
                                           Console LError "Error queueing prompt:"]) w)
  /\ queue_task Second app w
     = (Ok tt, with_effects (effects w ++ [Console LLog "Executing queued prompt";
                                           Console LLog "Queue prompt executed"]) w).
Proof.
  intros Hq. split; [|split].
  - intros w2 Hsteps. unfold steps in Hsteps. revert w2 Hsteps.
    apply rtc_ind_r; [done|]. intros y z _ Hyz IH.
    inversion Hyz as [dt y'|r id y'|i t y' z' res Hi Hdue Hrun]; subst; simpl;
      [exact IH|exact IH|].
    destruct t as [due [|this]]; simpl in Hrun.
    + pose proof (queue_task_without_queuePrompt v app
                    (with_timers (delete i (timers y)) y) Hq) as H.
      rewrite Hrun in H. simpl in H. by rewrite H.
    + destruct (retry_init_cases v this (with_timers (delete i (timers y)) y))
        as (res' & w' & E' & _ & Hc' & _).
      rewrite E' in Hrun. injection Hrun as _ <-. by rewrite Hc'.
  - change (queue_task First) with V1.queue_task.
    unfold V1.queue_task, V1.queue_task_body. rewrite Hq. exec_simpl.
    rewrite console_run. simpl. by rewrite <- app_assoc.
  - change (queue_task Second) with V2.queue_task.
    unfold V2.queue_task, V2.queue_task_body. rewrite Hq. exec_simpl.
    by rewrite <- app_assoc.
Qed.

Lemma no_queuePrompt_no_call_witness :
  app_queuePrompt {| app_graph := Some Demo.graph; app_isProcessing := true;
                     app_queuePrompt := None |} = None
  /\ forall w2,
       steps Second {| app_graph := Some Demo.graph; app_isProcessing := true;
                       app_queuePrompt := None |}
         (queue_handler Second
            {| app_graph := Some Demo.graph; app_isProcessing := true;
               app_queuePrompt := None |} Demo.page).2 w2 ->
       queue_calls (effects w2) = [].
Proof.
  split; [reflexivity|].
  apply (no_queuePrompt_no_call Second
           {| app_graph := Some Demo.graph; app_isProcessing := true;
              app_queuePrompt := None |}
           (queue_handler Second
              {| app_graph := Some Demo.graph; app_isProcessing := true;
                 app_queuePrompt := None |} Demo.page).2).
  reflexivity.
Defined.

(** ** Integers and their decimal strings *)

Lemma digit_of_pretty_char d :
  (d < 10)%N -> digit_of 10 (pretty_N_char d) = Some (Z.of_N d).
Proof.
  intros Hd.
  assert (d = 0 \/ d = 1 \/ d = 2 \/ d = 3 \/ d = 4 \/ d = 5 \/ d = 6 \/ d = 7
          \/ d = 8 \/ d = 9)%N as H by lia.
  repeat (destruct H as [->|H]; [reflexivity|]). by subst.
Qed.

(** Reading the digits of [x] back gives [x], shifted behind what was read
    before. *)
Lemma read_digits_pretty x :
  (0 < x)%N ->
  forall s acc, exists p,
    read_digits 10 (pretty_N_go x s) acc
    = read_digits 10 s (Some (default 0 acc * p + Z.of_N x))%Z.
Proof.
  induction (N.lt_wf_0 x) as [x _ IH]. intros Hx s acc.
  rewrite pretty_N_go_step by done.
  assert (Hmod : (x `mod` 10 < 10)%N) by (apply N.mod_lt; lia).
  assert (Hdiv : (x = 10 * (x `div` 10) + x `mod` 10)%N) by (apply N.div_mod; lia).
  generalize dependent (x `mod` 10)%N. intros lo Hlo Hdiv.
  generalize dependent (x `div` 10)%N. intros hi Hdiv.
  destruct (decide (hi = 0)%N) as [H0|H0].
  - rewrite H0, pretty_N_go_0. exists 10%Z. cbn [read_digits].
    rewrite digit_of_pretty_char by done. do 2 f_equal. lia.
  - destruct (IH hi) with (s := String (pretty_N_char lo) s) (acc := acc)
      as [p Hp].
    + lia.
    + lia.
    + rewrite Hp. exists (p * 10)%Z. cbn [read_digits].
      rewrite digit_of_pretty_char by done. cbn [default]. do 2 f_equal.
      unfold id. subst x. nia.
Qed.

(** The decimal string of a positive number starts with a digit from 1
    to 9. *)
Lemma pretty_go_head x :
  (0 < x)%N ->
  forall s,
  exists d r, pretty_N_go x s = String (pretty_N_char d) r /\ (0 < d < 10)%N.
Proof.
  induction (N.lt_wf_0 x) as [x _ IH]. intros Hx s.
  rewrite pretty_N_go_step by done.
  assert (Hmod : (x `mod` 10 < 10)%N) by (apply N.mod_lt; lia).
  assert (Hdiv : (x = 10 * (x `div` 10) + x `mod` 10)%N) by (apply N.div_mod; lia).
  generalize dependent (x `mod` 10)%N. intros lo Hlo Hdiv.
  generalize dependent (x `div` 10)%N. intros hi Hdiv.
  destruct (decide (hi = 0)%N) as [H0|H0].
  - rewrite H0, pretty_N_go_0. exists lo, s. split; [done|]. lia.
  - apply IH; lia.
Qed.

Lemma leading_digit_plain d r :
  (0 < d < 10)%N ->
  skip_ws (String (pretty_N_char d) r) = String (pretty_N_char d) r
  /\ strip_sign (String (pretty_N_char d) r) = (1%Z, String (pretty_N_char d) r)
  /\ strip_hex (String (pretty_N_char d) r) = (10%Z, String (pretty_N_char d) r)
  /\ strip_radix (String (pretty_N_char d) r) = None
  /\ String.prefix "Infinity" (String (pretty_N_char d) r) = false.
Proof.
  intros Hd.
  assert (d = 1 \/ d = 2 \/ d = 3 \/ d = 4 \/ d = 5 \/ d = 6 \/ d = 7
          \/ d = 8 \/ d = 9)%N as H by lia.
  repeat (destruct H as [->|H];
          [repeat split; try reflexivity; by destruct r as [|c2 [|c3 r3]]|]).
  subst. repeat split; try reflexivity. by destruct r as [|c2 [|c3 r3]].
Qed.

Lemma skip_ws_minus r : skip_ws (String "-" r) = String "-" r.
Proof. by destruct r as [|c2 [|c3 r3]]. Qed.

(** Below [2^53] an integer is a double. *)
Lemma number_value_safe m : (Z.abs m < 2 ^ 53)%Z -> number_value m = VNum m.
Proof.
  intros Hm. unfold number_value, to_double.
  by rewrite (proj2 (Z.ltb_lt _ _) Hm).
Qed.

Lemma round_ratio_safe m : (0 <= m < 2 ^ 53)%Z -> round_ratio m 1 = NInt m.
Proof.
  intros [H0 Hm]. unfold round_ratio.
  destruct (Z.eqb_spec m 0) as [->|Hne]; [done|].
  assert (Hpos : (0 < m)%Z) by lia.
  rewrite (proj2 (Z.leb_le 1 m)) by lia. rewrite Z.div_1_r.
  assert (Hlog : (0 <= Z.log2 m < 53)%Z).
  { split; [apply Z.log2_nonneg|]. by apply Z.log2_lt_pow2. }
  rewrite Z.max_l by lia.
  rewrite (proj2 (Z.ltb_ge 52 (Z.log2 m))) by lia.
  assert (Hp : (0 < 2 ^ (52 - Z.log2 m))%Z) by (apply Z.pow_pos_nonneg; lia).
  generalize dependent (2 ^ (52 - Z.log2 m))%Z. intros p Hp.
  unfold round_half_even. rewrite Z.div_1_r, Z.mod_1_r. simpl.
  rewrite Z.mod_mul by lia. simpl. by rewrite Z.div_mul by lia.
Qed.

Lemma parseInt_string_pretty_N x :
  (0 < x)%N ->
  (Z.of_N x < 2 ^ 53)%Z ->
  parseInt_string (pretty_N_go x "") = VNum (Z.of_N x)
  /\ parseInt_string (String "-" (pretty_N_go x "")) = VNum (- Z.of_N x)
  /\ string_to_number (pretty_N_go x "") = NInt (Z.of_N x)
  /\ string_to_number (String "-" (pretty_N_go x "")) = NInt (- Z.of_N x).
Proof.
  intros Hx Hsafe.
  destruct (pretty_go_head x Hx "") as (d & r & Hhead & Hd).
  destruct (leading_digit_plain d r Hd) as (Hws & Hsign & Hhex & Hradix & Hinf).
  destruct (read_digits_pretty x Hx "" None) as [p Hp]. simpl in Hp.
  rewrite <- Hhead in *.
  assert (Hne : String.eqb (pretty_N_go x "") "" = false) by (by rewrite Hhead).
  repeat split.
  - unfold parseInt_string. rewrite Hws, Hsign, Hhex, Hp. cbn [fst].
    rewrite number_value_safe by lia. f_equal; lia.
  - unfold parseInt_string. rewrite skip_ws_minus.
    change (strip_sign (String "-" (pretty_N_go x "")))
      with ((-1)%Z, pretty_N_go x "").
    cbv beta iota. rewrite Hhex, Hp. cbn [fst].
    rewrite number_value_safe by lia. f_equal; lia.
  - unfold string_to_number. rewrite Hws, Hne, Hradix.
    unfold decimal_literal. rewrite Hsign, Hinf, Hp. cbn -[round_ratio Z.pow Z.mul Z.add].
    change (0 - 0)%Z with 0%Z. change (0 <=? 0)%Z with true. cbv iota.
    rewrite !Z.pow_0_r.
    match goal with
    | |- context [round_ratio ?a 1] => replace a with (Z.of_N x) by lia
    end.
    rewrite round_ratio_safe by lia. cbn [negate]. f_equal; lia.
  - unfold string_to_number. rewrite skip_ws_minus.
    change (String.eqb (String "-" (pretty_N_go x "")) "") with false.
    change (strip_radix (String "-" (pretty_N_go x ""))) with (@None (Z * string)).
    cbv beta iota zeta. unfold decimal_literal.
    change (strip_sign (String "-" (pretty_N_go x "")))
      with ((-1)%Z, pretty_N_go x "").
    cbv beta iota. rewrite Hinf, Hp. cbn -[round_ratio Z.pow Z.mul Z.add].
    change (0 - 0)%Z with 0%Z. change (0 <=? 0)%Z with true. cbv iota.
    rewrite !Z.pow_0_r.
    match goal with
    | |- context [round_ratio ?a 1] => replace a with (Z.of_N x) by lia
    end.
    rewrite round_ratio_safe by lia. cbn [negate]. f_equal; lia.
Qed.

(** The decimal string of an integer below [2^53] reads back as that
    integer, through [parseInt] and through [ToNumber]; and it is the string
    [ToString] gives the integer. *)
Lemma decimal_string_reads_back z :
  (Z.abs z < 2 ^ 53)%Z ->
  parseInt_string (pretty z) = VNum z
  /\ string_to_number (pretty z) = NInt z
  /\ to_string (VNum z) = pretty z.
Proof.
  intros Hz.
  assert (Hs : to_string (VNum z) = pretty z).
  { simpl. unfold number_to_string. by rewrite (proj2 (Z.ltb_lt _ _) Hz). }
  split; [|split; [|exact Hs]].
  - destruct z as [|p|p].
    + reflexivity.
    + destruct (parseInt_string_pretty_N (Npos p)) as (H1 & _ & H3 & _); [lia|lia|].
      unfold pretty, pretty_Z, pretty, pretty_positive, pretty, pretty_N.
      rewrite decide_False by done. done.
    + destruct (parseInt_string_pretty_N (Npos p)) as (_ & H2 & _ & H4); [lia|lia|].
      unfold pretty, pretty_Z, pretty, pretty_positive, pretty, pretty_N.
      rewrite decide_False by done. done.
  - destruct z as [|p|p].
    + reflexivity.
    + destruct (parseInt_string_pretty_N (Npos p)) as (H1 & _ & H3 & _); [lia|lia|].
      unfold pretty, pretty_Z, pretty, pretty_positive, pretty, pretty_N.
      rewrite decide_False by done. done.
    + destruct (parseInt_string_pretty_N (Npos p)) as (_ & H2 & _ & H4); [lia|lia|].
      unfold pretty, pretty_Z, pretty, pretty_positive, pretty, pretty_N.
      rewrite decide_False by done. done.
Qed.

Lemma require_run {A} what (o : option A) w :
  require what o w
  = match o with
    | Some a => (Ok a, w)
    | None => (Raise (TypeError what), w)
    end.
Proof. by destruct o. Qed.

(** The scan of the node list treats the number [z] and its decimal
    string alike, on nodes whose identifiers are numbers. *)
Lemma loose_eq_decimal_string y z :
  (Z.abs z < 2 ^ 53)%Z ->
  loose_eq (VNum y) (VStr (pretty z)) = loose_eq (VNum y) (VNum z).
Proof.
  intros Hz. cbn [loose_eq to_number].
  by rewrite (proj1 (proj2 (decimal_string_reads_back z Hz))).
Qed.

Lemma find_node_1_decimal z ns w :
  (Z.abs z < 2 ^ 53)%Z ->
  (forall r n, r ∈ ns -> heap w !! r = Some n -> exists y, n_id n = VNum y) ->
  V1.find_node (VStr (pretty z)) ns w = V1.find_node (VNum z) ns w.
Proof.
  intros Hz. induction ns as [|r ns IH]; intros Hids; [done|].
  cbn [V1.find_node]. rewrite !bind_run. unfold read_node.
  destruct (heap w !! r) as [n|] eqn:Hn; simpl; [|done].
  destruct (Hids r n) as [y Hy]; [left|done|].
  rewrite Hy, loose_eq_decimal_string by done.
  destruct (loose_eq (VNum y) (VNum z)); [done|].
  apply IH. intros r' n' Hin. apply Hids. by right.
Qed.

Lemma find_node_2_decimal z ns w :
  (Z.abs z < 2 ^ 53)%Z ->
  (forall r n, r ∈ ns -> heap w !! r = Some n -> exists y, n_id n = VNum y) ->
  V2.find_node (VStr (pretty z)) ns w = V2.find_node (VNum z) ns w.
Proof.
  intros Hz. induction ns as [|r ns IH]; intros Hids; [done|].
  cbn [V2.find_node]. rewrite !bind_run. unfold V2.id_of.
  destruct (heap w !! r) as [n|] eqn:Hn; simpl.
  - destruct (Hids r n) as [y Hy]; [left|done|].
    rewrite Hy, loose_eq_decimal_string by done.
    destruct (loose_eq (VNum y) (VNum z)); [done|].
    apply IH. intros r' n' Hin. apply Hids. by right.
  - apply IH. intros r' n' Hin. apply Hids. by right.
Qed.

(** X5: the host lookups (the id-indexed table, the getter, the scan of
    the node list) make no difference between an integer identifier below
    [2^53] and its decimal string, when the identifiers of the graph's nodes
    are numbers: both spellings find the same node, or raise the same
    error. *)
Theorem fallback_number_or_string v app z w :
  (Z.abs z < 2 ^ 53)%Z ->
  (forall g ns r n,
     app_graph app = Some g -> g_nodes g = Some ns -> r ∈ ns ->
     heap w !! r = Some n -> exists y, n_id n = VNum y) ->
  fallback v app (VStr (pretty z)) w = fallback v app (VNum z) w.
Proof.
  intros Hz Hids.
  destruct (decimal_string_reads_back z Hz) as (_ & _ & Hstr).
  assert (Hs : to_string (VStr (pretty z)) = to_string (VNum z)) by (by rewrite Hstr).
  assert (Hp : parseInt (VStr (pretty z)) = parseInt (VNum z)).
  { unfold parseInt. by rewrite Hs. }
  destruct v; simpl.
  - unfold V1.fallback. rewrite Hp, Hs. rewrite !bind_run, !require_run.
    destruct (app_graph app) as [g|] eqn:Hg; [|done].
    rewrite !bind_run, !require_run.
    destruct (g_nodes_by_id g) as [tbl|]; [|done].
    destruct (table_get (to_string (VNum z)) tbl); [done|].
    rewrite !bind_run, !require_run.
    destruct (g_getNodeById g) as [f|]; [|done].
    destruct (f (parseInt (VNum z))); [done|].
    rewrite !bind_run, !require_run.
    destruct (g_nodes g) as [ns|] eqn:Hns; [|done].
    rewrite !bind_run, (find_node_1_decimal z ns w Hz); [done|].
    intros r n. by apply (Hids g ns).
  - unfold V2.fallback. rewrite Hp, Hs. rewrite !bind_run, !require_run.
    destruct (app_graph app) as [g|] eqn:Hg; [|done].
    destruct (g_nodes_by_id g ≫= table_get (to_string (VNum z))); [done|].
    destruct (g_getNodeById g ≫= _); [done|].
    destruct (g_nodes g) as [ns|] eqn:Hns; cbn [default].
    + unfold id. rewrite !bind_run, (find_node_2_decimal z ns w Hz); [done|].
      intros r n. by apply (Hids g ns).
    + done.
Qed.

Lemma fallback_number_or_string_witness :
  (Z.abs 7 < 2 ^ 53)%Z
  /\ fallback First Demo.app (VStr "7") Demo.page
     = fallback First Demo.app (VNum 7) Demo.page
  /\ (fallback First Demo.app (VNum 7) Demo.page).1 = Ok (Some 1).
Proof.
  split; [reflexivity|]. split; [|reflexivity].
  apply (fallback_number_or_string First Demo.app 7 Demo.page); [reflexivity|].
  intros g ns r n [= <-] [= <-] Hr Hn.
  apply elem_of_cons in Hr as [->|Hr].
  { injection Hn as <-. by exists 7%Z. }
  apply list_elem_of_singleton in Hr as ->.
  injection Hn as <-. by exists 0%Z.
Defined.

(** ** Registration at creation *)

Lemma valid_id_cond id :
  negb (truthy id) || strict_eq id (VNum (-1)) = negb (valid_id id).
Proof. unfold valid_id. by destruct (truthy id), (strict_eq id (VNum (-1))). Qed.

(** Creation of a node whose identifier is valid, when the handler installed
    before returns: the node is registered under its identifier at once,
    nothing is scheduled, and the status widget is pushed when the node has
    [addWidget]; when it has not, the first copy raises after the
    registration and the second returns. *)
Lemma onNodeCreated_valid v prev this args w n :
  heap w !! this = Some n ->
  valid_id (n_id n) = true ->
  raises prev = false ->
  exists w1,
    onNodeCreated v prev this args w
    = (if n_addWidget n then Ok tt
       else match v with
            | First => Raise (TypeError "this.addWidget")
            | Second => Ok tt
            end, w1)
    /\ nodeIdMap w1 = map_set (n_id n) this (nodeIdMap w)
    /\ timers w1 = timers w /\ now w1 = now w
    /\ heap w1 = (if n_addWidget n
                  then <[this := push_widget (status_widget this) n]> (heap w)
                  else heap w).
Proof.
  intros Hn Hv Hprev.
  pose proof (valid_id_cond (n_id n)) as Hc. rewrite Hv in Hc. simpl in Hc.
  destruct v; simpl.
  - unfold V1.onNodeCreated, V1.attach_status. exec_simpl.
    destruct prev as [f|]; simpl in *; [rewrite Hprev; simpl|];
      rewrite Hn; simpl; rewrite Hc; simpl; rewrite Hn; simpl;
      destruct (n_addWidget n); simpl; eexists; done.
  - unfold V2.onNodeCreated, V2.attach_status. exec_simpl.
    destruct prev as [f|]; simpl in *; [rewrite Hprev; simpl|];
      rewrite Hn; simpl; rewrite Hc; simpl; rewrite Hn; simpl;
      destruct (n_addWidget n); simpl; eexists; done.
Qed.

Lemma resolved_cached v app k w r :
  map_get k (nodeIdMap w) = Some r -> resolved v app k w = Ok (Some r).
Proof.
  intros H. unfold resolved.
  destruct v; simpl; [unfold V1.resolve|unfold V2.resolve];
    rewrite bind_run; unfold map_get_m; by rewrite H.
Qed.

(** X6: once [onNodeCreated] has run on a node whose identifier is valid,
    a feedback event that carries that identifier resolves to the node from
    the cache, on every host, even one without a graph, and even when the
    override itself raised for want of [addWidget]. *)
Theorem created_node_resolves v prev this args w n :
  heap w !! this = Some n ->
  valid_id (n_id n) = true ->
  raises prev = false ->
  forall app,
    resolved v app (n_id n) (onNodeCreated v prev this args w).2 = Ok (Some this).
Proof.
  intros Hn Hv Hprev app.
  destruct (onNodeCreated_valid v prev this args w n Hn Hv Hprev)
    as (w1 & E & Hm & _).
  rewrite E. simpl. apply resolved_cached. rewrite Hm. apply map_get_set_eq.
Qed.

(** A host with no graph at all; node 7 dropped from the cache first. *)
Lemma created_node_resolves_witness :
  (heap (with_map [] Demo.page) !! 1 = Some Demo.node7
   /\ valid_id (n_id Demo.node7) = true
   /\ raises None = false)
  /\ resolved Second
       {| app_graph := None; app_isProcessing := false; app_queuePrompt := None |}
       (VNum 7) (onNodeCreated Second None 1 [] (with_map [] Demo.page)).2
     = Ok (Some 1).
Proof.
  split; [repeat split; reflexivity|].
  apply (created_node_resolves Second None 1 [] (with_map [] Demo.page)
           Demo.node7); reflexivity.
Defined.

(** X7: a node created with a valid identifier gets the status widget at
    once, as the last of its widgets, with the text type, the empty value
    and the closure that writes [status]; no timer is scheduled. *)
Theorem created_node_gets_status_widget v prev this args w n :
  heap w !! this = Some n ->
  valid_id (n_id n) = true ->
  raises prev = false ->
  n_addWidget n = true ->
  exists w1,
    onNodeCreated v prev this args w = (Ok tt, w1)
    /\ widgets_of w1 this = Some (default [] (n_widgets n) ++ [status_widget this])
    /\ (forall r, r ≠ this -> heap w1 !! r = heap w !! r)
    /\ timers w1 = timers w.
Proof.
  intros Hn Hv Hprev Ha.
  destruct (onNodeCreated_valid v prev this args w n Hn Hv Hprev)
    as (w1 & E & Hm & Ht & _ & Hh).
  rewrite Ha in E, Hh. exists w1. split; [exact E|].
  unfold widgets_of. rewrite Hh, lookup_insert_eq. split; [done|].
  split; [|done]. intros r Hr. by rewrite lookup_insert_ne.
Qed.

Lemma created_node_gets_status_widget_witness :
  exists w1,
    onNodeCreated First (Some Demo.previous) 1 [] Demo.page = (Ok tt, w1)
    /\ widgets_of w1 1 = Some [Demo.text; Demo.start_index; status_widget 1]
    /\ (forall r, r ≠ 1 -> heap w1 !! r = heap Demo.page !! r)
    /\ timers w1 = [].
Proof.
  apply (created_node_gets_status_widget First (Some Demo.previous) 1 []
           Demo.page Demo.node7); reflexivity.
Defined.

(** X8: on a node that has no [addWidget] method the two copies part: the
    first raises a [TypeError] out of [onNodeCreated], after it has
    registered the node; the second returns normally.  Both leave the nodes
    as they are and the node registered. *)
Theorem created_node_without_addWidget prev this args w n :
  heap w !! this = Some n ->
  valid_id (n_id n) = true ->
  raises prev = false ->
  n_addWidget n = false ->
  (onNodeCreated First prev this args w).1 = Raise (TypeError "this.addWidget")
  /\ (onNodeCreated Second prev this args w).1 = Ok tt
  /\ forall v,
       heap (onNodeCreated v prev this args w).2 = heap w
       /\ map_get (n_id n) (nodeIdMap (onNodeCreated v prev this args w).2)
          = Some this.
Proof.
  intros Hn Hv Hprev Ha.
  destruct (onNodeCreated_valid First prev this args w n Hn Hv Hprev)
    as (w1 & E1 & Hm1 & _ & _ & Hh1).
  destruct (onNodeCreated_valid Second prev this args w n Hn Hv Hprev)
    as (w2 & E2 & Hm2 & _ & _ & Hh2).
  rewrite Ha in *. split; [by rewrite E1|]. split; [by rewrite E2|].
  intros [|]; [rewrite E1|rewrite E2]; simpl.
  - by rewrite Hh1, Hm1, map_get_set_eq.
  - by rewrite Hh2, Hm2, map_get_set_eq.
Qed.

(** A node the host gave no [addWidget]. *)
Lemma created_node_without_addWidget_witness :
  let bare := {| n_id := VNum 4; n_widgets := None; n_status := VUndef;
                 n_addWidget := false; n_outputs := None |} in
  let w := with_heap (<[4 := bare]> Demo.objects) Demo.page in
  (onNodeCreated First None 4 [] w).1 = Raise (TypeError "this.addWidget")
  /\ (onNodeCreated Second None 4 [] w).1 = Ok tt
  /\ forall v,
       heap (onNodeCreated v None 4 [] w).2 = heap w
       /\ map_get (VNum 4) (nodeIdMap (onNodeCreated v None 4 [] w).2) = Some 4.
Proof.
  apply (created_node_without_addWidget None 4 []
           (with_heap (<[4 := {| n_id := VNum 4; n_widgets := None;
                                 n_status := VUndef; n_addWidget := false;
                                 n_outputs := None |}]> Demo.objects) Demo.page)
           {| n_id := VNum 4; n_widgets := None; n_status := VUndef;
              n_addWidget := false; n_outputs := None |});
    reflexivity.
Defined.

(** ** Removal *)

(** What [onRemoved] does to the cache: the first copy deletes the key
    [this.id], the second does so when the identifier is truthy. *)
Lemma onRemoved_cache v prev this args w n :
  heap w !! this = Some n ->
  nodeIdMap (onRemoved v prev this args w).2
  = (if match v with First => true | Second => truthy (n_id n) end
     then map_delete (n_id n) (nodeIdMap w) else nodeIdMap w)
  /\ heap (onRemoved v prev this args w).2 = heap w
  /\ timers (onRemoved v prev this args w).2 = timers w.
Proof.
  intros Hn. destruct v; simpl.
  - unfold V1.onRemoved. exec_simpl. rewrite Hn. simpl.
    destruct prev as [f|]; simpl; [destruct (hf_raises f)|]; done.
  - unfold V2.onRemoved. exec_simpl. rewrite Hn. simpl.
    destruct (truthy (n_id n)); simpl;
      (destruct prev as [f|]; simpl; [destruct (hf_raises f)|]); done.
Qed.

Lemma valid_id_truthy id : valid_id id = true -> truthy id = true.
Proof. unfold valid_id. by destruct (truthy id). Qed.

(** X9: creating a node under a valid identifier that the cache did not
    hold, and then removing it, gives the cache back as it was, entry for
    entry and in the same order. *)
Theorem create_then_remove_restores_cache v prev prev' this args args' w n :
  heap w !! this = Some n ->
  valid_id (n_id n) = true ->
  raises prev = false ->
  map_get (n_id n) (nodeIdMap w) = None ->
  nodeIdMap
    (onRemoved v prev' this args' (onNodeCreated v prev this args w).2).2
  = nodeIdMap w.
Proof.
  intros Hn Hv Hprev Habs.
  destruct (onNodeCreated_valid v prev this args w n Hn Hv Hprev)
    as (w1 & E & Hm & _ & _ & Hh).
  rewrite E. simpl.
  assert (Hn1 : exists n1, heap w1 !! this = Some n1 /\ n_id n1 = n_id n).
  { rewrite Hh. destruct (n_addWidget n).
    - rewrite lookup_insert_eq. by eexists.
    - by exists n. }
  destruct Hn1 as (n1 & Hn1 & Hid).
  destruct (onRemoved_cache v prev' this args' w1 n1 Hn1) as (-> & _).
  rewrite Hid, (valid_id_truthy _ Hv), Hm.
  destruct v; by apply map_delete_set_absent.
Qed.

Lemma create_then_remove_restores_cache_witness :
  (heap (with_map [(VNum 3, 3)] Demo.page) !! 1 = Some Demo.node7
   /\ valid_id (n_id Demo.node7) = true
   /\ raises (Some Demo.previous) = false
   /\ map_get (n_id Demo.node7) [(VNum 3, 3)] = None)
  /\ nodeIdMap
       (onRemoved First None 1 []
          (onNodeCreated First (Some Demo.previous) 1 []
             (with_map [(VNum 3, 3)] Demo.page)).2).2
     = [(VNum 3, 3)].
Proof.
  split; [repeat split; reflexivity|].
  apply (create_then_remove_restores_cache First (Some Demo.previous) None 1 [] []
           (with_map [(VNum 3, 3)] Demo.page) Demo.node7); reflexivity.
Defined.

(** X10: removing a node whose identifier is truthy evicts the entry under
    that identifier, the one the node has at removal, and no other: every
    other key still maps to what it mapped to.  An entry made under an
    identifier the node no longer has therefore stays in the cache. *)
Theorem removal_evicts_current_id_only v prev this args w n :
  heap w !! this = Some n ->
  truthy (n_id n) = true ->
  NoDup (keys (nodeIdMap w)) ->
  map_get (n_id n) (nodeIdMap (onRemoved v prev this args w).2) = None
  /\ forall k, k ≠ n_id n ->
       map_get k (nodeIdMap (onRemoved v prev this args w).2)
       = map_get k (nodeIdMap w).
Proof.
  intros Hn Ht Hnd.
  destruct (onRemoved_cache v prev this args w n Hn) as (-> & _).
  rewrite Ht. destruct v; (split; [by apply map_get_delete_eq|]);
    intros k Hk; by apply map_get_delete_ne.
Qed.

(** Node 7 was renumbered 8 by the host after its registration: its
    removal leaves the entry under 7 behind. *)
Lemma removal_evicts_current_id_only_witness :
  let w := with_heap (<[1 := set_id (VNum 8) Demo.node7]> Demo.objects) Demo.page in
  (heap w !! 1 = Some (set_id (VNum 8) Demo.node7)
   /\ truthy (VNum 8) = true)
  /\ map_get (VNum 8) (nodeIdMap (onRemoved Second None 1 [] w).2) = None
  /\ map_get (VNum 7) (nodeIdMap (onRemoved Second None 1 [] w).2) = Some 1.
Proof.
  split; [split; reflexivity|].
  destruct (removal_evicts_current_id_only Second None 1 []
              (with_heap (<[1 := set_id (VNum 8) Demo.node7]> Demo.objects) Demo.page)
              (set_id (VNum 8) Demo.node7))
    as [H1 H2]; [reflexivity|reflexivity|apply NoDup_singleton|].
  split; [exact H1|]. rewrite H2; [reflexivity|discriminate].
Defined.

(** ** What the cache can hold *)

Lemma onNodeCreated_cache_step v prev this args w :
  cache_step w (onNodeCreated v prev this args w).2.
Proof.
  assert (Hvalid : forall id,
            negb (truthy id) || strict_eq id (VNum (-1)) = false ->
            valid_id id = true).
  { intros id H. rewrite valid_id_cond in H. by destruct (valid_id id). }
  destruct v; simpl.
  - unfold V1.onNodeCreated, V1.attach_status. exec_simpl.
    destruct prev as [f|]; simpl; [destruct (hf_raises f); simpl|];
      try (by left);
      (destruct (heap w !! this) as [n|] eqn:Hn; simpl; [|by left]);
      (destruct (negb (truthy (n_id n)) || strict_eq (n_id n) (VNum (-1))) eqn:Hc;
         simpl; [by left|]);
      rewrite Hn; simpl; right; left; exists (n_id n), this;
      (split; [by apply Hvalid|]); by destruct (n_addWidget n).
  - unfold V2.onNodeCreated, V2.attach_status. exec_simpl.
    destruct prev as [f|]; simpl; [destruct (hf_raises f); simpl|];
      try (by left);
      (destruct (negb (truthy (from_option n_id VUndef (heap w !! this)))
                 || strict_eq (from_option n_id VUndef (heap w !! this)) (VNum (-1)))
         eqn:Hc; simpl; [by left|]);
      right; left; exists (from_option n_id VUndef (heap w !! this)), this;
      (split; [by apply Hvalid|]);
      destruct (heap w !! this) as [n|]; simpl; try done;
      by destruct (n_addWidget n).
Qed.

Lemma onRemoved_cache_step v prev this args w :
  cache_step w (onRemoved v prev this args w).2.
Proof.
  destruct v; simpl.
  - unfold V1.onRemoved. exec_simpl.
    destruct (heap w !! this) as [n|]; simpl; [|by left].
    right; right. exists (n_id n).
    destruct prev as [f|]; simpl; [destruct (hf_raises f)|]; done.
  - unfold V2.onRemoved. exec_simpl.
    destruct (truthy (from_option n_id VUndef (heap w !! this))); simpl.
    + right; right. exists (from_option n_id VUndef (heap w !! this)).
      destruct prev as [f|]; simpl; [destruct (hf_raises f)|]; done.
    + left. destruct prev as [f|]; simpl; [destruct (hf_raises f)|]; done.
Qed.

Lemma run_task_cache_step v app t w : cache_step w (run_task v app t w).2.
Proof.
  destruct t as [|this]; simpl.
  - left. by destruct (queue_task_same_store v app w) as (_ & ? & _).
  - destruct (retry_init_cases v this w) as (res & w' & E & _ & _ & H).
    rewrite E. simpl. destruct H as [(Hm & _)|(n & _ & Hv & Hm)].
    + by left.
    + right; left. by exists (n_id n), this.
Qed.

(** X11: the cache never holds a key twice and holds valid identifiers
    only (truthy and not -1): each handler of the extension, called on a
    page where this is so, leaves a page where it is so, and so does every
    run of the event loop. *)
Theorem cache_stays_ok v app w :
  cache_ok (nodeIdMap w) ->
  (forall event, cache_ok (nodeIdMap (feedback_handler v app event w).2))
  /\ cache_ok (nodeIdMap (queue_handler v app w).2)
  /\ (forall prev this args, cache_ok (nodeIdMap (onNodeCreated v prev this args w).2))
  /\ (forall prev this args, cache_ok (nodeIdMap (onRemoved v prev this args w).2))
  /\ (forall w2, steps v app w w2 -> cache_ok (nodeIdMap w2)).
Proof.
  intros Hok. split; [|split; [|split; [|split]]].
  - intros event.
    destruct (feedback_same_cache v app event w) as (Hm & _). by rewrite Hm.
  - destruct (queue_handler_same_nodes v app w) as (_ & Hm & _). by rewrite Hm.
  - intros prev this args.
    eapply cache_step_ok; [apply onNodeCreated_cache_step|done].
  - intros prev this args.
    eapply cache_step_ok; [apply onRemoved_cache_step|done].
  - intros w2 Hsteps. unfold steps in Hsteps. revert w2 Hsteps.
    apply rtc_ind_r; [done|]. intros y z _ Hyz IH.
    inversion Hyz as [dt y'|r id y'|i t y' z' res Hi Hdue Hrun]; subst;
      [done|done|].
    pose proof (run_task_cache_step v app (t_task t)
                  (with_timers (delete i (timers y)) y)) as Hs.
    rewrite Hrun in Hs. by eapply cache_step_ok in Hs.
Qed.

Lemma cache_stays_ok_witness :
  cache_ok (nodeIdMap Demo.page)
  /\ (forall event,
        cache_ok (nodeIdMap (feedback_handler First Demo.app event Demo.page).2))
  /\ cache_ok (nodeIdMap (queue_handler First Demo.app Demo.page).2)
  /\ (forall prev this args,
        cache_ok (nodeIdMap (onNodeCreated First prev this args Demo.page).2))
  /\ (forall prev this args,
        cache_ok (nodeIdMap (onRemoved First prev this args Demo.page).2))
  /\ (forall w2, steps First Demo.app Demo.page w2 -> cache_ok (nodeIdMap w2)).
Proof.
  assert (H : cache_ok (nodeIdMap Demo.page)).
  { split; [apply NoDup_singleton|]. apply Forall_singleton. reflexivity. }
  split; [exact H|]. exact (cache_stays_ok First Demo.app Demo.page H).
Defined.

(** ** The handler installed before *)

Lemma same_applications_refl w : same_applications w w.
Proof. done. Qed.

Lemma same_applications_trans w1 w2 w3 :
  same_applications w1 w2 -> same_applications w2 w3 -> same_applications w1 w3.
Proof. unfold same_applications. by intros -> ->. Qed.

Ltac same_applications_leaf :=
  first
    [ apply (keeps_ret _ same_applications_refl)
    | intros ?w; unfold same_applications; exec_simpl; repeat case_match; simpl;
      rewrite ?applications_app; simpl; rewrite ?app_nil_r; done ].

Lemma call_previous_applications prev this args w :
  applications
    (effects (match prev with
              | Some f => call_host (Applied f this args) f
              | None => mret tt
              end w).2)
  = applications (effects w)
    ++ match prev with Some f => [(f, this, args)] | None => [] end.
Proof.
  destruct prev as [f|]; simpl; [|by rewrite app_nil_r].
  exec_simpl. destruct (hf_raises f); simpl; by rewrite applications_app.
Qed.

(** X12: the [onNodeCreated] override calls the handler that was installed
    before exactly once, first, on the node and with the arguments it was
    given, whatever the node's identifier; and when that handler raises,
    the override does nothing more: no registration, no widget, no timer. *)
Theorem creation_calls_previous_handler v prev this args w :
  applications (effects (onNodeCreated v prev this args w).2)
  = applications (effects w)
    ++ match prev with Some f => [(f, this, args)] | None => [] end
  /\ (raises prev = true ->
      same_store w (onNodeCreated v prev this args w).2
      /\ exists f, prev = Some f
           /\ (onNodeCreated v prev this args w).1 = Raise (HostError f)).
Proof.
  split.
  - assert (Hrest1 : keeps same_applications
              (n ← read_node this;
               if negb (truthy (n_id n)) || strict_eq (n_id n) (VNum (-1)) then
                 console_warn "Invalid node ID detected, waiting for proper initialization";;
                 setTimeout (RetryInit this) 0
               else
                 console_log "Node created:";;
                 map_set_m (n_id n) this;;
                 V1.attach_status this)).
    { unfold V1.attach_status.
      repeat keeps_step same_applications_refl same_applications_trans
        same_applications_leaf. }
    assert (Hrest2 : keeps same_applications
              (id ← V2.id_of this;
               if negb (truthy id) || strict_eq id (VNum (-1)) then
                 console_warn "Invalid node ID detected, waiting for proper initialization";;
                 setTimeout (RetryInit this) 0
               else
                 console_log "Node created:";;
                 map_set_m id this;;
                 V2.attach_status this)).
    { unfold V2.attach_status.
      repeat keeps_step same_applications_refl same_applications_trans
        same_applications_leaf. }
    pose proof (call_previous_applications prev this args w) as Hprev.
    destruct v; simpl.
    + unfold V1.onNodeCreated. rewrite bind_run.
      destruct (match prev with
                | Some f => call_host (Applied f this args) f
                | None => mret tt
                end w) as [[[]|e] w1]; simpl in *; [|done].
      rewrite <- Hprev. apply Hrest1.
    + unfold V2.onNodeCreated. rewrite bind_run.
      destruct (match prev with
                | Some f => call_host (Applied f this args) f
                | None => mret tt
                end w) as [[[]|e] w1]; simpl in *; [|done].
      rewrite <- Hprev. apply Hrest2.
  - intros Hr. destruct prev as [f|]; [|done]. simpl in Hr.
    destruct v; simpl.
    + unfold V1.onNodeCreated. exec_simpl. rewrite Hr. simpl.
      split; [by unfold same_store|by exists f].
    + unfold V2.onNodeCreated. exec_simpl. rewrite Hr. simpl.
      split; [by unfold same_store|by exists f].
Qed.

Lemma creation_calls_previous_handler_witness :
  raises (Some Demo.failing) = true
  /\ applications
       (effects (onNodeCreated First (Some Demo.failing) 1 [VStr "a"] Demo.page).2)
     = [(Demo.failing, 1, [VStr "a"])]
  /\ same_store Demo.page
       (onNodeCreated First (Some Demo.failing) 1 [VStr "a"] Demo.page).2.
Proof.
  split; [reflexivity|].
  destruct (creation_calls_previous_handler First (Some Demo.failing) 1
              [VStr "a"] Demo.page) as [H1 H2].
  split; [exact H1|]. apply H2. reflexivity.
Defined.

(** ** The deferred check against the direct registration *)

Lemma retry_init_valid v this w n :
  heap w !! this = Some n ->
  valid_id (n_id n) = true ->
  exists res w',
    retry_init v this w = (res, w')
    /\ nodeIdMap w' = map_set (n_id n) this (nodeIdMap w)
    /\ timers w' = timers w /\ now w' = now w
    /\ heap w' = (if n_addWidget n
                  then <[this := push_widget (status_widget this) n]> (heap w)
                  else heap w).
Proof.
  intros Hn Hv. unfold valid_id in Hv.
  destruct v; simpl.
  - unfold V1.retry_init, V1.attach_status. exec_simpl.
    rewrite Hn. simpl. rewrite Hv. simpl. rewrite Hn. simpl.
    destruct (n_addWidget n); simpl; eexists _, _; done.
  - unfold V2.retry_init, V2.attach_status. exec_simpl.
    rewrite Hn. simpl. rewrite Hv. simpl. rewrite Hn. simpl.
    destruct (n_addWidget n); simpl; eexists _, _; done.
Qed.

(** X13: the two ways to registration end alike, whatever else is
    pending.  A node created before the host has numbered it, then numbered
    [k], then checked at the next tick, ends with the cache, the nodes and
    the timers of a node created when it was already numbered [k]; the page
    reached is one the event loop reaches from the creation. *)
Theorem deferred_registration_equals_direct v app prev this args w n k :
  heap w !! this = Some n ->
  valid_id (n_id n) = false ->
  valid_id k = true ->
  raises prev = false ->
  let direct :=
    (onNodeCreated v prev this args
       (with_heap (alter (set_id k) this (heap w)) w)).2 in
  let created := (onNodeCreated v prev this args w).2 in
  let numbered := with_heap (alter (set_id k) this (heap created)) created in
  let checked := (retry_init v this (with_timers (timers w) numbered)).2 in
  timers created = timers w ++ [retry_timer w this]
  /\ steps v app created checked
  /\ nodeIdMap checked = nodeIdMap direct
  /\ heap checked = heap direct
  /\ timers checked = timers direct.
Proof.
  intros Hn Hinv Hk Hprev direct created numbered checked.
  destruct (onNodeCreated_invalid v prev this args w n Hn Hinv)
    as (res1 & w1 & E1 & Hm1 & Hh1 & Ht1).
  rewrite Hprev in Ht1.
  assert (Hw1 : created = w1) by (unfold created; by rewrite E1).
  assert (Hnk : alter (set_id k) this (heap w) !! this = Some (set_id k n)).
  { by rewrite lookup_alter_eq, Hn. }
  destruct (onNodeCreated_valid v prev this args
              (with_heap (alter (set_id k) this (heap w)) w) (set_id k n)
              Hnk Hk Hprev) as (wd & Ed & Hmd & Htd & _ & Hhd).
  assert (Hnum : heap (with_timers (timers w) numbered) !! this
                 = Some (set_id k n)).
  { unfold numbered. simpl. by rewrite Hw1, Hh1. }
  destruct (retry_init_valid v this (with_timers (timers w) numbered) (set_id k n)
              Hnum Hk) as (res2 & wc & Ec & Hmc & Htc & _ & Hhc).
  assert (Hd : direct = wd) by (unfold direct; by rewrite Ed).
  assert (Hc : checked = wc) by (unfold checked; by rewrite Ec).
  split; [by rewrite Hw1|].
  split; [|rewrite Hd, Hc, Hmc, Hmd, Hhc, Hhd, Htc, Htd; unfold numbered; simpl;
           rewrite Hw1, Hm1, Hh1; done].
  eapply rtc_l; [apply (step_assign_id v app this k created)|].
  eapply rtc_l; [|apply rtc_refl]. fold numbered.
  eapply (step_fire v app (List.length (timers w)) (retry_timer w this)
            numbered checked res2).
  - unfold numbered. simpl. rewrite Hw1, Ht1. by apply list_lookup_middle.
  - unfold numbered. simpl. rewrite Hw1.
    assert (Hnow : now w1 = now w).
    { clear -E1 Hn. revert E1. destruct v; simpl;
        [unfold V1.onNodeCreated|unfold V2.onNodeCreated]; exec_simpl;
        (destruct prev as [f|]; simpl; [destruct (hf_raises f); simpl|]);
        try (intros [= _ <-]; done);
        rewrite Hn; simpl;
        destruct (negb (truthy (n_id n)) || strict_eq (n_id n) (VNum (-1)));
        simpl; try (intros [= _ <-]; done);
        unfold V1.attach_status, V2.attach_status; exec_simpl; rewrite Hn; simpl;
        destruct (n_addWidget n); simpl; intros [= _ <-]; done. }
    rewrite Hnow. lia.
  - cbn [run_task retry_timer t_task].
    replace (delete (List.length (timers w)) (timers numbered)) with (timers w);
      [rewrite Hc; exact Ec|].
    unfold numbered. simpl. rewrite Hw1, Ht1.
    rewrite (delete_middle (timers w) [] (retry_timer w this)).
    by rewrite app_nil_r.
Qed.

(** The node not numbered yet gets the number 5 between its creation and
    the check, while a queue event and the check of another node are
    pending. *)
Lemma deferred_registration_equals_direct_witness :
  (heap Demo.busy !! 3 = Some Demo.fresh
   /\ valid_id (n_id Demo.fresh) = false
   /\ valid_id (VNum 5) = true
   /\ raises (Some Demo.previous) = false)
  /\ let direct :=
       (onNodeCreated First (Some Demo.previous) 3 []
          (with_heap (alter (set_id (VNum 5)) 3 (heap Demo.busy)) Demo.busy)).2 in
     let created := (onNodeCreated First (Some Demo.previous) 3 [] Demo.busy).2 in
     let numbered :=
       with_heap (alter (set_id (VNum 5)) 3 (heap created)) created in
     let checked :=
       (retry_init First 3 (with_timers (timers Demo.busy) numbered)).2 in
     timers created = timers Demo.busy ++ [retry_timer Demo.busy 3]
     /\ steps First Demo.app created checked
     /\ nodeIdMap checked = nodeIdMap direct
     /\ heap checked = heap direct
     /\ timers checked = timers direct.
Proof.
  split; [repeat split; reflexivity|].
  apply (deferred_registration_equals_direct First Demo.app (Some Demo.previous)
           3 [] Demo.busy Demo.fresh (VNum 5)); reflexivity.
Defined.

(** ** The feedback handler off the main path *)

Lemma find_widget_None name ws :
  find_widget name ws = None
  <-> Forall (fun x => strict_eq (w_name x) name = false) ws.
Proof.
  induction ws as [|x ws IH]; simpl; [by split|].
  rewrite Forall_cons. destruct (strict_eq (w_name x) name).
  - split; [done|]. by intros [? _].
  - rewrite <- IH. destruct (find_widget name ws) as [[j y]|]; simpl.
    + split; [done|]. by intros [_ ?].
    + split; [done|]. by intros [_ ?].
Qed.

(** X14: when the node is found and none of its widgets has the name the
    event gives, the handler logs one warning and changes nothing: no node,
    no cache entry, no timer, no callback. *)
Theorem feedback_unknown_widget v app data w (r : NodeRef) n ws :
  truthy (node_id data) = true ->
  resolved v app (node_id data) w = Ok (Some r) ->
  heap w !! r = Some n ->
  n_widgets n = Some ws ->
  Forall (fun x => strict_eq (w_name x) (widget_name data) = false) ws ->
  feedback_handler v app {| detail := Some data |} w
  = (Ok tt,
     with_effects
       (effects w ++ [Console LLog "Received node feedback:";
                      Console LLog "Looking for node:";
                      Console LLog "Found node:";
                      Console LWarn "Widget not found:"]) w).
Proof.
  intros Ht Hres Hn Hws Hall. apply find_widget_None in Hall.
  destruct v; simpl.
  - unfold V1.feedback_handler, V1.feedback_body. simpl. rewrite Ht. simpl.
    rewrite bind_run. unfold console_log at 1. rewrite console_run.
    rewrite try_catch_run, bind_run. unfold console_log at 1. rewrite console_run.
    rewrite bind_run, (resolve_log First), resolved_log, Hres.
    rewrite bind_run. unfold console_log at 1. rewrite console_run.
    rewrite bind_run. unfold read_node at 1. simpl. rewrite Hn. simpl.
    rewrite bind_run. rewrite Hws. simpl. rewrite Hall.
    unfold console_warn. rewrite console_run. simpl.
    by rewrite <- !app_assoc.
  - unfold V2.feedback_handler, V2.feedback_body. simpl. rewrite Ht. simpl.
    rewrite bind_run. unfold console_log at 1. rewrite console_run.
    rewrite try_catch_run, bind_run. unfold console_log at 1. rewrite console_run.
    rewrite bind_run, (resolve_log Second), resolved_log, Hres.
    rewrite bind_run. unfold console_log at 1. rewrite console_run.
    rewrite bind_run. unfold read_node at 1. simpl. rewrite Hn. simpl.
    rewrite Hws. simpl. rewrite Hall.
    unfold console_warn. rewrite console_run. simpl.
    by rewrite <- !app_assoc.
Qed.

Lemma feedback_unknown_widget_witness :
  (truthy (VNum 7) = true
   /\ resolved First Demo.app (VNum 7) Demo.page = Ok (Some 1)
   /\ heap Demo.page !! 1 = Some Demo.node7
   /\ n_widgets Demo.node7 = Some [Demo.text; Demo.start_index])
  /\ feedback_handler First Demo.app
       {| detail := Some {| node_id := VNum 7; widget_name := VStr "seed";
                            type := VStr "int"; value := VStr "3" |} |} Demo.page
     = (Ok tt,
        with_effects [Console LLog "Received node feedback:";
                      Console LLog "Looking for node:";
                      Console LLog "Found node:";
                      Console LWarn "Widget not found:"] Demo.page).
Proof.
  split; [repeat split; reflexivity|].
  apply (feedback_unknown_widget First Demo.app
           {| node_id := VNum 7; widget_name := VStr "seed";
              type := VStr "int"; value := VStr "3" |}
           Demo.page 1 Demo.node7 [Demo.text; Demo.start_index]);
    try reflexivity.
  repeat constructor.
Defined.

(** X15: on a node that has no [widgets] array yet the two copies part: the
    first raises inside the handler, which catches and logs an error; the
    second logs the warning of a widget not found.  Neither changes the
    page beyond its log. *)
Theorem feedback_node_without_widgets v app data w (r : NodeRef) n :
  truthy (node_id data) = true ->
  resolved v app (node_id data) w = Ok (Some r) ->
  heap w !! r = Some n ->
  n_widgets n = None ->
  feedback_handler v app {| detail := Some data |} w
  = (Ok tt,
     with_effects
       (effects w ++ [Console LLog "Received node feedback:";
                      Console LLog "Looking for node:";
                      Console LLog "Found node:";
                      match v with
                      | First => Console LError "Error in node feedback handler:"
                      | Second => Console LWarn "Widget not found:"
                      end]) w).
Proof.
  intros Ht Hres Hn Hws.
  destruct v; simpl.
  - unfold V1.feedback_handler, V1.feedback_body. simpl. rewrite Ht. simpl.
    rewrite bind_run. unfold console_log at 1. rewrite console_run.
    rewrite try_catch_run, bind_run. unfold console_log at 1. rewrite console_run.
    rewrite bind_run, (resolve_log First), resolved_log, Hres.
    rewrite bind_run. unfold console_log at 1. rewrite console_run.
    rewrite bind_run. unfold read_node at 1. simpl. rewrite Hn. simpl.
    rewrite bind_run. rewrite Hws. simpl.
    unfold console_error, emit. simpl.
    by rewrite <- !app_assoc.
  - unfold V2.feedback_handler, V2.feedback_body. simpl. rewrite Ht. simpl.
    rewrite bind_run. unfold console_log at 1. rewrite console_run.
    rewrite try_catch_run, bind_run. unfold console_log at 1. rewrite console_run.
    rewrite bind_run, (resolve_log Second), resolved_log, Hres.
    rewrite bind_run. unfold console_log at 1. rewrite console_run.
    rewrite bind_run. unfold read_node at 1. simpl. rewrite Hn. simpl.
    rewrite Hws. simpl.
    unfold console_warn, emit. simpl.
    by rewrite <- !app_assoc.
Qed.

Lemma feedback_node_without_widgets_witness :
  (truthy (VNum 3) = true
   /\ resolved First Demo.app (VNum 3) (with_map [(VNum 3, 3)] Demo.page) = Ok (Some 3)
   /\ heap (with_map [(VNum 3, 3)] Demo.page) !! 3 = Some Demo.fresh
   /\ n_widgets Demo.fresh = None)
  /\ messages LError
       (effects (feedback_handler First Demo.app
                   (Demo.feedback (VNum 3) (VStr "int") (VStr "1"))
                   (with_map [(VNum 3, 3)] Demo.page)).2)
     = ["Error in node feedback handler:"]
  /\ messages LWarn
       (effects (feedback_handler Second Demo.app
                   (Demo.feedback (VNum 3) (VStr "int") (VStr "1"))
                   (with_map [(VNum 3, 3)] Demo.page)).2)
     = ["Widget not found:"].
Proof.
  split; [repeat split; reflexivity|].
  unfold Demo.feedback. split.
  - rewrite (feedback_node_without_widgets First Demo.app
               {| node_id := VNum 3; widget_name := VStr "start_index";
                  type := VStr "int"; value := VStr "1" |}
               (with_map [(VNum 3, 3)] Demo.page) 3 Demo.fresh);
      reflexivity.
  - rewrite (feedback_node_without_widgets Second Demo.app
               {| node_id := VNum 3; widget_name := VStr "start_index";
                  type := VStr "int"; value := VStr "1" |}
               (with_map [(VNum 3, 3)] Demo.page) 3 Demo.fresh);
      reflexivity.
Defined.

Lemma find_widget_first name ws i wd :
  find_widget name ws = Some (i, wd) ->
  forall j wj, j < i -> ws !! j = Some wj -> strict_eq (w_name wj) name = false.
Proof.
  revert i. induction ws as [|x ws IH]; intros i; simpl; [done|].
  destruct (strict_eq (w_name x) name) eqn:E.
  - intros [= <- <-] j wj Hj. lia.
  - destruct (find_widget name ws) as [[i0 y]|] eqn:Hf; simpl; [|done].
    intros [= <- <-] j wj Hj Hwj. destruct j as [|j]; simpl in Hwj.
    + by injection Hwj as <-.
    + eapply (IH i0); [done| |exact Hwj]. lia.
Qed.

(** X16: the handler writes one widget only: the first widget of the node
    that has the name; that widget keeps its type, name and callback, and
    every other widget of every node, a later widget of the same name
    included, is as it was. *)
Theorem feedback_changes_target_only v app data w (r : NodeRef) n ws i wd :
  truthy (node_id data) = true ->
  resolved v app (node_id data) w = Ok (Some r) ->
  heap w !! r = Some n ->
  n_widgets n = Some ws ->
  find_widget (widget_name data) ws = Some (i, wd) ->
  (forall j wj, j < i -> ws !! j = Some wj ->
                strict_eq (w_name wj) (widget_name data) = false)
  /\ widget_at (feedback_handler v app {| detail := Some data |} w).2 r i
     = Some (set_value (coerce data) wd)
  /\ (forall r' i', r' ≠ r \/ i' ≠ i ->
        widget_at (feedback_handler v app {| detail := Some data |} w).2 r' i'
        = widget_at w r' i').
Proof.
  intros Ht Hres Hn Hws Hfind.
  split; [by apply (find_widget_first _ ws i wd)|].
  destruct (feedback_found v app data w r n ws i wd Ht Hres Hn Hws Hfind)
    as (w' & E & Hat & _ & Hfr & _).
  rewrite E. done.
Qed.

(** Two widgets of one name: the event reaches the first. *)
Lemma feedback_changes_target_only_witness :
  w_value <$> widget_at
    (feedback_handler First Demo.app
       {| detail := Some {| node_id := VNum 7; widget_name := VStr "start_index";
                            type := VStr "int"; value := VStr "5" |} |}
       (with_heap
          (<[1 := set_widgets (Some [Demo.start_index; Demo.start_index])
                    Demo.node7]> Demo.objects) Demo.page)).2 1 0
  = Some (VNum 5)
  /\ w_value <$> widget_at
       (feedback_handler First Demo.app
          {| detail := Some {| node_id := VNum 7; widget_name := VStr "start_index";
                               type := VStr "int"; value := VStr "5" |} |}
          (with_heap
             (<[1 := set_widgets (Some [Demo.start_index; Demo.start_index])
                       Demo.node7]> Demo.objects) Demo.page)).2 1 1
     = Some (VNum 0).
Proof.
  destruct (feedback_changes_target_only First Demo.app
              {| node_id := VNum 7; widget_name := VStr "start_index";
                 type := VStr "int"; value := VStr "5" |}
              (with_heap (<[1 := set_widgets (Some [Demo.start_index; Demo.start_index])
                                   Demo.node7]> Demo.objects) Demo.page)
              1 (set_widgets (Some [Demo.start_index; Demo.start_index]) Demo.node7)
              [Demo.start_index; Demo.start_index] 0 Demo.start_index)
    as (_ & Hat & Hfr); try reflexivity.
  split.
  - rewrite Hat. reflexivity.
  - rewrite (Hfr 1 1); [reflexivity|]. right. lia.
Defined.

Lemma assign_and_notify_heap r i wd data w :
  heap (assign_and_notify r i wd data w).2
  = match w_callback wd with
    | Some (StatusCallback owner) => alter (set_status (coerce data)) owner
    | _ => fun h => h
    end
      (alter (fun n => set_widgets (alter (set_value (coerce data)) i <$> n_widgets n) n)
         r (heap w)).
Proof.
  unfold assign_and_notify, coerce, invoke. exec_simpl.
  destruct (strict_eq (type data) (VStr "int")); simpl;
    (destruct (w_callback wd) as [[f|owner]|]; simpl;
       [destruct (hf_raises f)| |]); done.
Qed.

Lemma feedback_found_heap v app data w (r : NodeRef) n ws i wd :
  truthy (node_id data) = true ->
  resolved v app (node_id data) w = Ok (Some r) ->
  heap w !! r = Some n ->
  n_widgets n = Some ws ->
  find_widget (widget_name data) ws = Some (i, wd) ->
  heap (feedback_handler v app {| detail := Some data |} w).2
  = heap (assign_and_notify r i wd data w).2.
Proof.
  intros Ht Hres Hn Hws Hfind.
  set (w3 := with_effects
               (((effects w ++ [Console LLog "Received node feedback:"])
                 ++ [Console LLog "Looking for node:"])
                ++ [Console LLog "Found node:"]) w).
  assert (Hrun : feedback_handler v app {| detail := Some data |} w
                 = try_catch (fun w0 => assign_and_notify r i wd data w0)
                     (fun _ => console_error "Error in node feedback handler:") w3).
  { destruct v; simpl.
    - unfold V1.feedback_handler, V1.feedback_body. simpl. rewrite Ht. simpl.
      rewrite bind_run. unfold console_log at 1. rewrite console_run.
      rewrite !try_catch_run, bind_run. unfold console_log at 1. rewrite console_run.
      rewrite bind_run, (resolve_log First), resolved_log, Hres.
      rewrite bind_run. unfold console_log at 1. rewrite console_run.
      rewrite bind_run. unfold read_node at 1. simpl. rewrite Hn. simpl.
      rewrite bind_run. rewrite Hws. simpl. rewrite Hfind. reflexivity.
    - unfold V2.feedback_handler, V2.feedback_body. simpl. rewrite Ht. simpl.
      rewrite bind_run. unfold console_log at 1. rewrite console_run.
      rewrite !try_catch_run, bind_run. unfold console_log at 1. rewrite console_run.
      rewrite bind_run, (resolve_log Second), resolved_log, Hres.
      rewrite bind_run. unfold console_log at 1. rewrite console_run.
      rewrite bind_run. unfold read_node at 1. simpl. rewrite Hn. simpl.
      rewrite Hws. simpl. rewrite Hfind. reflexivity. }
  rewrite Hrun, try_catch_run.
  pose proof (assign_and_notify_heap r i wd data w3) as H3.
  rewrite (assign_and_notify_heap r i wd data w).
  destruct (assign_and_notify r i wd data w3) as [[[]|e] w4]; simpl in *; done.
Qed.

(** X17: a feedback event addressed to the status widget writes the value
    twice: on the widget, and, through the widget's closure, on the
    [status] field of the node that owns the closure. *)
Theorem feedback_to_status_widget v app data w (r : NodeRef) n ws i wd owner no :
  truthy (node_id data) = true ->
  resolved v app (node_id data) w = Ok (Some r) ->
  heap w !! r = Some n ->
  n_widgets n = Some ws ->
  find_widget (widget_name data) ws = Some (i, wd) ->
  w_callback wd = Some (StatusCallback owner) ->
  heap w !! owner = Some no ->
  let w' := (feedback_handler v app {| detail := Some data |} w).2 in
  n_status <$> heap w' !! owner = Some (coerce data)
  /\ w_value <$> widget_at w' r i = Some (coerce data)
  /\ forall o, o ≠ owner -> n_status <$> heap w' !! o = n_status <$> heap w !! o.
Proof.
  intros Ht Hres Hn Hws Hfind Hcb Ho w'.
  destruct (feedback_found v app data w r n ws i wd Ht Hres Hn Hws Hfind)
    as (w1 & E & Hat & _).
  split; [|split; [unfold w'; by rewrite E; simpl; rewrite Hat|]].
  - unfold w'. rewrite (feedback_found_heap v app data w r n ws i wd) by done.
    rewrite assign_and_notify_heap, Hcb, lookup_alter_eq.
    destruct (decide (owner = r)) as [->|Hne].
    + rewrite lookup_alter_eq, Hn. done.
    + rewrite lookup_alter_ne, Ho by done. done.
  - intros o Hne. unfold w'.
    rewrite (feedback_found_heap v app data w r n ws i wd) by done.
    rewrite assign_and_notify_heap, Hcb, lookup_alter_ne by done.
    destruct (decide (o = r)) as [->|Hr].
    + rewrite lookup_alter_eq. by destruct (heap w !! r).
    + by rewrite lookup_alter_ne.
Qed.

(** Node 7 is created on a page with an empty cache, which registers it and
    gives it the status widget; then the server reports progress. *)
Lemma feedback_to_status_widget_witness :
  let w := (onNodeCreated First None 1 [] (with_map [] Demo.page)).2 in
  let data := {| node_id := VNum 7; widget_name := VStr "status";
                 type := VStr "text"; value := VStr "3/10" |} in
  (truthy (node_id data) = true
   /\ resolved First Demo.app (node_id data) w = Ok (Some 1)
   /\ heap w !! 1 = Some (push_widget (status_widget 1) Demo.node7)
   /\ find_widget (widget_name data) [Demo.text; Demo.start_index; status_widget 1]
      = Some (2, status_widget 1))
  /\ n_status <$> heap (feedback_handler First Demo.app {| detail := Some data |} w).2 !! 1
     = Some (VStr "3/10")
  /\ w_value <$> widget_at (feedback_handler First Demo.app {| detail := Some data |} w).2 1 2
     = Some (VStr "3/10").
Proof.
  cbv zeta. split; [repeat split; reflexivity|].
  destruct (feedback_to_status_widget First Demo.app
              {| node_id := VNum 7; widget_name := VStr "status";
                 type := VStr "text"; value := VStr "3/10" |}
              (onNodeCreated First None 1 [] (with_map [] Demo.page)).2
              1 (push_widget (status_widget 1) Demo.node7)
              [Demo.text; Demo.start_index; status_widget 1] 2 (status_widget 1)
              1 (push_widget (status_widget 1) Demo.node7))
    as (H1 & H2 & _); try reflexivity.
  split; [exact H1|exact H2].
Defined.

(** ** Which lookup answers *)

(** X18: a cache whose keys are numbers, as the identifiers [this.id] of
    the host are, never answers an event that names the node by a string:
    the lookup is then the host fallbacks alone. *)
Theorem string_id_bypasses_cache v app s w :
  Forall (fun k => exists z, k = VNum z) (keys (nodeIdMap w)) ->
  map_get (VStr s) (nodeIdMap w) = None
  /\ resolve v app (VStr s) w = fallback v app (VStr s) w.
Proof.
  intros Hkeys.
  assert (Hmiss : map_get (VStr s) (nodeIdMap w) = None).
  { apply map_get_None. intros Hin. rewrite Forall_forall in Hkeys.
    destruct (Hkeys _ Hin) as [z Hz]. discriminate. }
  split; [exact Hmiss|].
  destruct v; simpl; [unfold V1.resolve|unfold V2.resolve];
    rewrite bind_run; unfold map_get_m; by rewrite Hmiss.
Qed.

Lemma string_id_bypasses_cache_witness :
  map_get (VStr "7") (nodeIdMap Demo.page) = None
  /\ resolve First Demo.app (VStr "7") Demo.page
     = fallback First Demo.app (VStr "7") Demo.page.
Proof.
  apply (string_id_bypasses_cache First Demo.app "7" Demo.page).
  apply Forall_singleton. by exists 7%Z.
Defined.

Lemma find_node_2_total k ns w : exists o, V2.find_node k ns w = (Ok o, w).
Proof.
  induction ns as [|r ns IH]; [by exists None|].
  cbn [V2.find_node]. rewrite bind_run. unfold V2.id_of.
  destruct (loose_eq (from_option n_id VUndef (heap w !! r)) k); [by eexists|exact IH].
Qed.

Lemma resolved_second_total app g k w :
  app_graph app = Some g -> exists o, resolved Second app k w = Ok o.
Proof.
  intros Hg. unfold resolved. simpl. unfold V2.resolve, V2.fallback.
  rewrite bind_run. unfold map_get_m.
  destruct (map_get k (nodeIdMap w)); [by eexists|].
  rewrite bind_run, require_run, Hg.
  destruct (g_nodes_by_id g ≫= table_get (to_string k)); [by eexists|].
  destruct (g_getNodeById g ≫= _); [by eexists|].
  rewrite bind_run.
  destruct (find_node_2_total k (default [] (g_nodes g)) w) as [o ->].
  by eexists.
Qed.

(** X19: in the second copy the lookup of a node never raises once the
    host has a graph, whatever the graph lacks; without a graph, an
    identifier that is not in the cache raises a [TypeError] in both
    copies. *)
Theorem lookup_raises_only_without_graph v app k w :
  (forall g, app_graph app = Some g -> exists o, resolved Second app k w = Ok o)
  /\ (app_graph app = None -> map_get k (nodeIdMap w) = None ->
      resolved v app k w = Raise (TypeError "app.graph")).
Proof.
  split.
  - intros g. apply resolved_second_total.
  - intros Hg Hmiss. unfold resolved.
    destruct v; simpl; [unfold V1.resolve, V1.fallback|unfold V2.resolve, V2.fallback];
      rewrite bind_run; unfold map_get_m; rewrite Hmiss;
      by rewrite bind_run, require_run, Hg.
Qed.

Lemma lookup_raises_only_without_graph_witness :
  (exists o,
     resolved Second
       {| app_graph := Some {| g_nodes_by_id := None; g_getNodeById := None;
                               g_nodes := None; g_serialize := None |};
          app_isProcessing := false; app_queuePrompt := None |}
       (VStr "12") Demo.page = Ok o)
  /\ resolved First
       {| app_graph := None; app_isProcessing := false; app_queuePrompt := None |}
       (VStr "12") Demo.page = Raise (TypeError "app.graph").
Proof.
  split.
  - apply (proj1 (lookup_raises_only_without_graph Second
             {| app_graph := Some {| g_nodes_by_id := None; g_getNodeById := None;
                                     g_nodes := None; g_serialize := None |};
                app_isProcessing := false; app_queuePrompt := None |}
             (VStr "12") Demo.page)
             {| g_nodes_by_id := None; g_getNodeById := None;
                g_nodes := None; g_serialize := None |}).
    reflexivity.
  - apply (proj2 (lookup_raises_only_without_graph First
             {| app_graph := None; app_isProcessing := false;
                app_queuePrompt := None |} (VStr "12") Demo.page));
      reflexivity.
Defined.

Lemma find_node_alike k ns w :
  Forall (fun r => is_Some (heap w !! r)) ns ->
  V1.find_node k ns w = V2.find_node k ns w.
Proof.
  induction ns as [|r ns IH]; intros Hlive; [done|].
  apply Forall_cons in Hlive as [[n Hn] Hlive].
  cbn [V1.find_node V2.find_node]. rewrite !bind_run.
  unfold read_node, V2.id_of. rewrite Hn. simpl.
  destruct (loose_eq (n_id n) k); [done|by apply IH].
Qed.

(** X20: on a host that has the id-indexed table, the getter and a node
    list, all of whose nodes are objects, the two copies find the same
    thing for every identifier (the same node, the same inherited member of
    the table, or nothing), and neither raises. *)
Theorem copies_resolve_alike_on_full_host app g tbl f ns k w :
  app_graph app = Some g ->
  g_nodes_by_id g = Some tbl ->
  g_getNodeById g = Some f ->
  g_nodes g = Some ns ->
  Forall (fun r => is_Some (heap w !! r)) ns ->
  resolved First app k w = resolved Second app k w
  /\ exists o, resolved First app k w = Ok o.
Proof.
  intros Hg Htbl Hf Hns Hlive.
  assert (H : resolve First app k w = resolve Second app k w).
  { simpl. unfold V1.resolve, V2.resolve, V1.fallback, V2.fallback.
    rewrite !bind_run. unfold map_get_m.
    destruct (map_get k (nodeIdMap w)); [done|].
    rewrite !bind_run, !require_run, Hg. rewrite !bind_run, !require_run, Htbl.
    simpl. destruct (table_get (to_string k) tbl); [done|].
    rewrite !bind_run, !require_run, Hf. simpl.
    destruct (f (parseInt k)); [done|].
    rewrite !bind_run, !require_run, Hns. simpl.
    rewrite !bind_run. by rewrite (find_node_alike k ns w Hlive). }
  unfold resolved. rewrite H. split; [done|].
  by apply (resolved_second_total app g).
Qed.

Lemma copies_resolve_alike_on_full_host_witness :
  resolved First Demo.app (VStr "0") Demo.page
  = resolved Second Demo.app (VStr "0") Demo.page
  /\ exists o, resolved First Demo.app (VStr "0") Demo.page = Ok o.
Proof.
  apply (copies_resolve_alike_on_full_host Demo.app Demo.graph
           [("7", 1); ("0", 2)] Demo.getNodeById [1; 2] (VStr "0") Demo.page);
    try reflexivity.
  repeat constructor; by eexists.
Defined.

(** ** Registration of the node types *)

Lemma proto_get_set_eq k m p : proto_get k (proto_set k m p) = Some m.
Proof.
  induction p as [|[k' d] p IH]; simpl.
  - by rewrite String.eqb_refl.
  - destruct (String.eqb k' k) eqn:E; simpl; by rewrite E.
Qed.

Lemma proto_get_set_ne k k' m p :
  k' ≠ k -> proto_get k' (proto_set k m p) = proto_get k' p.
Proof.
  intros Hne. induction p as [|[k0 d] p IH]; simpl.
  - by rewrite (proj2 (String.eqb_neq k k')).
  - destruct (String.eqb k0 k) eqn:E; simpl.
    + apply String.eqb_eq in E as ->. by rewrite (proj2 (String.eqb_neq k k')).
    + by rewrite IH.
Qed.

Lemma registered_is_textbatch v name proto :
  registered v name proto = textbatch_beforeRegisterNodeDef name proto.
Proof.
  unfold registered, rgthree_beforeRegisterNodeDef.
  destruct (String.eqb name "TextQueueProcessor"); [apply Object_assign_class|].
  destruct (String.eqb name "ImageQueueProcessor"); [|done].
  destruct v; [apply Object_assign_class|done].
Qed.

Lemma handled_name name :
  String.eqb name "TextBatch" || String.eqb name "TextQueueProcessor"
  || String.eqb name "ZippedPromptBatch"
  || String.eqb name "ZippedPromptBatchAdvanced" = true
  <-> name ∈ ["TextBatch"; "TextQueueProcessor"; "ZippedPromptBatch";
              "ZippedPromptBatchAdvanced"].
Proof.
  rewrite !orb_true_iff, !String.eqb_eq, !elem_of_cons, elem_of_nil. tauto.
Qed.

(** X21: for the four node types the extension names, a node the host
    constructs runs the override, with the [onNodeCreated] the host's
    prototype had as the handler installed before; [onRemoved] is overridden
    likewise, and every other method of the prototype is left as it was. *)
Theorem handled_node_types_run_the_override v name methods :
  name ∈ ["TextBatch"; "TextQueueProcessor"; "ZippedPromptBatch";
          "ZippedPromptBatchAdvanced"] ->
  let proto := registered v name (host_prototype methods) in
  (forall this w,
     construct v proto this w
     = onNodeCreated v (host_member "onNodeCreated" (host_prototype methods))
         this [] w)
  /\ proto_get "onRemoved" proto
     = Some (RemovedOverride (host_member "onRemoved" (host_prototype methods)))
  /\ (forall k, k ≠ "onNodeCreated" -> k ≠ "onRemoved" ->
        proto_get k proto = proto_get k (host_prototype methods)).
Proof.
  intros Hname proto. apply handled_name in Hname.
  assert (Hp : proto
               = proto_set "onRemoved"
                   (RemovedOverride (host_member "onRemoved" (host_prototype methods)))
                   (proto_set "onNodeCreated"
                      (CreatedOverride
                         (host_member "onNodeCreated" (host_prototype methods)))
                      (host_prototype methods))).
  { unfold proto. rewrite registered_is_textbatch.
    unfold textbatch_beforeRegisterNodeDef. by rewrite Hname. }
  split; [|split].
  - intros this w. unfold construct. rewrite Hp.
    rewrite proto_get_set_ne by done. by rewrite proto_get_set_eq.
  - rewrite Hp. apply proto_get_set_eq.
  - intros k H1 H2. rewrite Hp. by rewrite !proto_get_set_ne.
Qed.

Lemma handled_node_types_run_the_override_witness :
  construct Second
    (registered Second "ZippedPromptBatch"
       (host_prototype [("onNodeCreated", Demo.previous); ("onDrawForeground", Demo.on_change)]))
    1 Demo.page
  = onNodeCreated Second (Some Demo.previous) 1 [] Demo.page
  /\ proto_get "onDrawForeground"
       (registered Second "ZippedPromptBatch"
          (host_prototype [("onNodeCreated", Demo.previous);
                           ("onDrawForeground", Demo.on_change)]))
     = Some (HostMethod Demo.on_change).
Proof.
  destruct (handled_node_types_run_the_override Second "ZippedPromptBatch"
              [("onNodeCreated", Demo.previous); ("onDrawForeground", Demo.on_change)])
    as (H1 & _ & H3).
  { apply handled_name. reflexivity. }
  split; [apply H1|]. rewrite H3 by discriminate. reflexivity.
Defined.

Lemma proto_get_host_prototype k methods :
  proto_get k (host_prototype methods) = None
  \/ exists f, proto_get k (host_prototype methods) = Some (HostMethod f).
Proof.
  induction methods as [|[k0 f] methods IH]; simpl; [by left|].
  destruct (String.eqb k0 k); [right; by exists f|exact IH].
Qed.

(** X22: every other node type, ["ImageQueueProcessor"] among them, keeps
    the prototype the host gave it: a node of such a type is never put in
    the identifier cache at construction, gets no status widget and no
    deferred check. *)
Theorem other_node_types_are_left_alone v name methods this w :
  name ∉ ["TextBatch"; "TextQueueProcessor"; "ZippedPromptBatch";
          "ZippedPromptBatchAdvanced"] ->
  registered v name (host_prototype methods) = host_prototype methods
  /\ same_store w (construct v (registered v name (host_prototype methods)) this w).2.
Proof.
  intros Hname.
  assert (Hp : registered v name (host_prototype methods) = host_prototype methods).
  { rewrite registered_is_textbatch. unfold textbatch_beforeRegisterNodeDef.
    destruct (_ || _) eqn:E; [|done]. by apply handled_name in E. }
  split; [exact Hp|]. rewrite Hp. unfold construct.
  destruct (proto_get_host_prototype "onNodeCreated" methods) as [->|[f ->]];
    [done|].
  exec_simpl. by destruct (hf_raises f).
Qed.

Lemma other_node_types_are_left_alone_witness :
  registered First "ImageQueueProcessor" (host_prototype [("onNodeCreated", Demo.previous)])
  = host_prototype [("onNodeCreated", Demo.previous)]
  /\ same_store Demo.page
       (construct First
          (registered First "ImageQueueProcessor"
             (host_prototype [("onNodeCreated", Demo.previous)])) 1 Demo.page).2.
Proof.
  apply (other_node_types_are_left_alone First "ImageQueueProcessor"
           [("onNodeCreated", Demo.previous)] 1 Demo.page).
  intros H. repeat (apply elem_of_cons in H as [H|H]; [discriminate|]).
  by apply elem_of_nil in H.
Defined.

(** ** Every queue event, whatever else is pending *)

(** X23: each queue event whose synchronous part does not raise adds
    exactly one call of [app.queuePrompt] to those the page owes, whatever
    timers were pending before: along every run of the event loop from
    there, the calls made plus the closures still pending are one more than
    before the event. *)
Theorem each_queue_event_adds_one_call v app f w :
  (queue_body v app w).1 = Ok tt ->
  app_queuePrompt app = Some f ->
  forall w2,
    steps v app (queue_handler v app w).2 w2 ->
    List.length (queue_calls (effects w2)) + pending_queue (timers w2)
    = List.length (queue_calls (effects w)) + pending_queue (timers w) + 1.
Proof.
  intros Hbody Hq w2 Hsteps.
  destruct (queue_handler_spec v app w Hbody) as (w1 & E & Ht1 & Hc1 & _).
  rewrite E in Hsteps. simpl in Hsteps.
  rewrite (queue_calls_conserved v app f w1 w2 Hq Hsteps), Hc1, Ht1.
  unfold pending_queue. rewrite filter_app, length_app.
  rewrite filter_cons_True by done. simpl. lia.
Qed.

(** Two queue events in a row, then any run. *)
Lemma each_queue_event_adds_one_call_witness :
  ((queue_body First Demo.app (queue_handler First Demo.app Demo.page).2).1 = Ok tt
   /\ app_queuePrompt Demo.app = Some Demo.queuePrompt)
  /\ forall w2,
       steps First Demo.app
         (queue_handler First Demo.app (queue_handler First Demo.app Demo.page).2).2
         w2 ->
       List.length (queue_calls (effects w2)) + pending_queue (timers w2) = 2.
Proof.
  split; [split; reflexivity|].
  apply (each_queue_event_adds_one_call First Demo.app Demo.queuePrompt
           (queue_handler First Demo.app Demo.page).2); reflexivity.
Defined.

(** ** The button closures *)

Lemma set_start_index_inv v this this' :
  set_start_index v this = Ok this' ->
  exists ws i wd,
    n_widgets this = Some ws
    /\ find_widget (VStr "start_index") ws = Some (i, wd)
    /\ this' = set_widgets (Some (alter (set_value v) i ws)) this.
Proof.
  unfold set_start_index. destruct (n_widgets this) as [ws|]; [|done].
  destruct (find_widget (VStr "start_index") ws) as [[i wd]|] eqn:E; [|done].
  intros [= <-]. by exists ws, i, wd.
Qed.

Lemma find_widget_alter name v ws i wd :
  find_widget name ws = Some (i, wd) ->
  find_widget name (alter (set_value v) i ws) = Some (i, set_value v wd).
Proof.
  revert i. induction ws as [|x ws IH]; intros i; simpl; [done|].
  destruct (strict_eq (w_name x) name) eqn:E.
  - intros [= <- <-]. simpl. by rewrite E.
  - destruct (find_widget name ws) as [[i0 y]|] eqn:Hf; simpl; [|done].
    intros [= <- <-]. simpl. rewrite E.
    change (list_alter (set_value v) i0 ws) with (alter (set_value v) i0 ws).
    by rewrite (IH i0 eq_refl).
Qed.

Lemma set_start_index_twice v this this' :
  set_start_index v this = Ok this' -> set_start_index v this' = Ok this'.
Proof.
  intros H. apply set_start_index_inv in H as (ws & i & wd & Hws & Hf & ->).
  unfold set_start_index. simpl.
  rewrite (find_widget_alter _ v ws i wd Hf).
  rewrite list_alter_alter_eq.
  rewrite (list_alter_ext (set_value v ∘ set_value v) (set_value v) ws ws i);
    [done| |done].
  by intros [].
Qed.

Lemma names_alter_value v i ws :
  map w_name (alter (set_value v) i ws) = map w_name ws.
Proof.
  revert i. induction ws as [|x ws IH]; intros [|i]; simpl; try done.
  f_equal. apply IH.
Qed.

(** X24: a button closure, when it returns, has written at most the value
    of the first widget named [start_index]: the node keeps its identifier,
    status, outputs and the names of its widgets; pressing the same button
    again changes nothing more; and after jump-to-start that widget
    holds 0. *)
Theorem pressing_twice_is_pressing_once a this this' :
  press a this = Ok this' ->
  press a this' = Ok this'
  /\ n_id this' = n_id this /\ n_status this' = n_status this
  /\ n_outputs this' = n_outputs this
  /\ (map w_name <$> n_widgets this') = (map w_name <$> n_widgets this)
  /\ (a = ToStart ->
      exists ws' i wd,
        n_widgets this' = Some ws'
        /\ find_widget (VStr "start_index") ws' = Some (i, wd)
        /\ w_value wd = VNum 0).
Proof.
  assert (Hframe : forall v n n',
            set_start_index v n = Ok n' ->
            n_id n' = n_id n /\ n_status n' = n_status n
            /\ n_outputs n' = n_outputs n
            /\ (map w_name <$> n_widgets n') = (map w_name <$> n_widgets n)).
  { intros v n n' H. apply set_start_index_inv in H as (ws & i & wd & Hws & Hf & ->).
    simpl. rewrite Hws. simpl. by rewrite names_alter_value. }
  destruct a as [| |slot]; simpl.
  - intros [= <-]. repeat split; done.
  - intros H. split; [by apply (set_start_index_twice _ this)|].
    destruct (Hframe _ _ _ H) as (? & ? & ? & ?). repeat split; try done.
    intros _. apply set_start_index_inv in H as (ws & i & wd & Hws & Hf & ->).
    exists (alter (set_value (VNum 0)) i ws), i, (set_value (VNum 0) wd).
    split; [done|]. split; [by apply find_widget_alter|done].
  - destruct (0 <? total_of slot this)%Z eqn:Hpos.
    + intros H. destruct (Hframe _ _ _ H) as (Hid & Hst & Hout & Hnames).
      assert (Htot : total_of slot this' = total_of slot this).
      { unfold total_of. by rewrite Hout. }
      rewrite Htot, Hpos. split; [by apply (set_start_index_twice _ this)|].
      repeat split; done.
    + intros [= <-]. rewrite Hpos. repeat split; done.
Qed.

Lemma pressing_twice_is_pressing_once_witness :
  press ToStart (set_widgets (Some [Demo.text; set_value (VNum 4) Demo.start_index])
                   Demo.node7)
  = Ok Demo.node7
  /\ press ToStart Demo.node7 = Ok Demo.node7.
Proof.
  split; [reflexivity|].
  apply (pressing_twice_is_pressing_once ToStart
           (set_widgets (Some [Demo.text; set_value (VNum 4) Demo.start_index])
              Demo.node7) Demo.node7).
  reflexivity.
Defined.
